(** * ARMA graph classifier: round bookkeeping, early stopping and
      architecture construction of [model_lib/arma.py]

    The class [ARMA] of [code_submission/model_lib/arma.py] is embedded as
    state-passing functions over a record of its attributes.  The tensor
    engine, the graph-convolution operator, the optimiser, the metric and the
    hyper-parameter tuner are external collaborators: they are reached
    through the interface [Backend], every call to them is recorded in an
    event log, and any of them may raise a Python exception.

    Conventions.
    - Python floats are modelled by exact rationals ([Q]).
    - The numeric knobs of a configuration that the code passes through
      [int(...)] are integral (the search space draws them with
      [quniform(_, _, 1)]), so they are kept as [Z] and [int] is the identity.
    - A tensor that only flows through external operators is kept as the
      symbolic expression that produced it ([Expr]); the class-probability
      matrix, which the code indexes with the masks, is a matrix of
      rationals.
    - All parameter tensors of a layer are created together with the layer
      and belong to it alone; a layer's identity ([layer_id]) therefore
      stands for its parameter tensors. *)

From Stdlib Require Import ZArith QArith Qreduction List String Bool Lia.
Import ListNotations.
Open Scope Z_scope.

Set Implicit Arguments.

(** ** Python exceptions and outcomes *)

(** The exceptions that can reach [trial].  An accelerator out-of-memory
    failure is reported by the tensor engine as a [RuntimeError]; the engine
    raises [RuntimeError] for many other failures too. *)
Inductive PyExc : Type :=
| CudaOOM                        (* RuntimeError: CUDA out of memory ... *)
| RuntimeErr (msg : string)      (* any other RuntimeError *)
| AttributeErr (name : string)
| IndexErr (msg : string)
| KeyErr (key : string)
| ValueErr (msg : string)
| TypeErr (msg : string).

(** [isinstance(e, RuntimeError)], the test made by [except RuntimeError]. *)
Definition is_RuntimeError (e : PyExc) : bool :=
  match e with
  | CudaOOM | RuntimeErr _ => true
  | _ => false
  end.

Definition is_oom (e : PyExc) : bool :=
  match e with
  | CudaOOM => true
  | _ => false
  end.

Inductive result (A : Type) : Type :=
| Ok (a : A)
| Raise (e : PyExc).
Arguments Ok {A} a.
Arguments Raise {A} e.

(** ** Configurations *)

(** The hyper-parameter dictionary ([self.hyperparameters]); one field per
    key.  [hp_dropedge_rate] may be [None]. *)
Record HP : Type := mkHP {
  hp_num_layers : Z;
  hp_lr : Q;
  hp_num_stacks : Z;
  hp_conv_layers : Z;
  hp_dropedge_rate : option Q;
  hp_dropout_rate : Q;
  hp_hidden : Z;
  hp_use_linear : bool
}.

(** The constructor argument [info]. *)
Record Info : Type := mkInfo {
  info_num_layers : Z;
  info_lr : Q;
  info_dropedge_rate : option Q;
  info_dropout_rate : Q;
  info_init_hidden_size : Z;
  info_use_linear : bool;
  info_n_class : Z
}.

(** One entry of the tuner's search space. *)
Inductive SpaceEntry : Type :=
| choice_rate (values : list (option Q))
| choice_num (values : list Q)
| choice_bool (values : list bool)
| quniform (low high q : Z).

Definition SearchSpace : Type := list (string * SpaceEntry).

(** ** Layers, registered sub-modules, optimiser *)

Inductive Layer : Type :=
| Linear (id : nat) (in_features out_features : Z)
| ARMAConv (id : nat) (in_channels out_channels : Z)
           (num_stacks num_layers : Z) (shared_weights : bool) (dropout : Q).

Definition layer_id (l : Layer) : nat :=
  match l with
  | Linear id _ _ => id
  | ARMAConv id _ _ _ _ _ _ => id
  end.

(** A value stored in [torch.nn.Module._modules]. *)
Inductive Submodule : Type :=
| Single (l : Layer)
| ModuleList (ls : list Layer).

(** [_modules] is an ordered dictionary: assigning an existing name keeps
    its position, a new name goes to the end. *)
Definition Modules : Type := list (string * Submodule).

Fixpoint modules_get (name : string) (ms : Modules) : option Submodule :=
  match ms with
  | [] => None
  | (k, v) :: rest => if String.eqb k name then Some v else modules_get name rest
  end.

Fixpoint modules_set (name : string) (v : Submodule) (ms : Modules) : Modules :=
  match ms with
  | [] => [(name, v)]
  | (k, w) :: rest =>
      if String.eqb k name then (k, v) :: rest
      else (k, w) :: modules_set name v rest
  end.

Definition submodule_layers (m : Submodule) : list Layer :=
  match m with
  | Single l => [l]
  | ModuleList ls => ls
  end.

Definition modules_layers (ms : Modules) : list Layer :=
  flat_map (fun kv => submodule_layers (snd kv)) ms.

Record Optimizer : Type := mkAdam {
  opt_id : nat;
  opt_params : list nat;
  opt_lr : Q;
  opt_weight_decay : Q
}.

(** ** Symbolic tensors *)

Inductive EdgeExpr : Type :=
| data_edges                                   (* data.edge_index, data.edge_weight *)
| dropout_adj (p : Q) (training : bool).       (* dropout_adj of the data's edges *)

Inductive Expr : Type :=
| data_x
| F_relu (e : Expr)
| F_dropout (p : Q) (training : bool) (e : Expr)
| call_linear (l : Layer) (e : Expr)
| call_conv (l : Layer) (e : Expr) (edges : EdgeExpr).

(** Number of graph convolutions, linear projections and feature dropouts a
    forward expression applies, and the layers it uses. *)
Fixpoint conv_count (e : Expr) : nat :=
  match e with
  | data_x => 0
  | F_relu e' | F_dropout _ _ e' | call_linear _ e' => conv_count e'
  | call_conv _ e' _ => S (conv_count e')
  end.

Fixpoint linear_count (e : Expr) : nat :=
  match e with
  | data_x => 0
  | F_relu e' | F_dropout _ _ e' | call_conv _ e' _ => linear_count e'
  | call_linear _ e' => S (linear_count e')
  end.

Fixpoint dropout_count (e : Expr) : nat :=
  match e with
  | data_x => 0
  | F_relu e' | call_linear _ e' | call_conv _ e' _ => dropout_count e'
  | F_dropout _ _ e' => S (dropout_count e')
  end.

Fixpoint layers_used (e : Expr) : list Layer :=
  match e with
  | data_x => []
  | F_relu e' | F_dropout _ _ e' => layers_used e'
  | call_linear l e' | call_conv l e' _ => l :: layers_used e'
  end.

(** ** The graph batch *)

(** [data.x], [data.edge_index], [data.edge_weight] and [data.label_weights]
    are opaque to this class; it reads the feature width, the labels and the
    three masks. *)
Record Data : Type := mkData {
  x_shape1 : Z;
  y : list Z;
  train_mask : list bool;
  valid_mask : list bool;
  test_mask : list bool
}.

(** A matrix of class probabilities, one row per node. *)
Definition Probs : Type := list (list Q).

(** What [numpy()] can hand back: a vector or a matrix. *)
Inductive ndarray : Type :=
| array1 (v : list Q)
| array2 (m : list (list Q)).

(** Boolean-mask indexing [t[mask]] along the first axis. *)
Fixpoint select_rows (A : Type) (mask : list bool) (rows : list A) : list A :=
  match mask, rows with
  | b :: mask', r :: rows' =>
      if b then r :: select_rows mask' rows' else select_rows mask' rows'
  | _, _ => []
  end.

Definition mask_index (A : Type) (mask : list bool) (rows : list A) : result (list A) :=
  if Nat.eqb (List.length mask) (List.length rows) then Ok (select_rows mask rows)
  else Raise (IndexErr "The shape of the mask does not match the shape of the indexed tensor").

(** ** utils.tools.AverageMeter *)

(** Modelled from the spec: [AverageMeter] lives in [utils/tools.py], which
    is not part of the sources at hand.  The spec describes it as "a running
    average of the validation score (window = all epochs so far)": [update]
    adds the value to a running sum, counts it, and [avg] is the sum divided
    by the count.  ([Qred] only puts a fraction in lowest terms.) *)
Record AverageMeter : Type := mkMeter {
  meter_sum : Q;
  meter_count : Z;
  avg : Q
}.

Definition AverageMeter_new : AverageMeter :=
  {| meter_sum := 0; meter_count := 0; avg := 0 |}.

Definition AverageMeter_update (v : Q) (m : AverageMeter) : AverageMeter :=
  let s := Qred (meter_sum m + v) in
  let c := meter_count m + 1 in
  {| meter_sum := s; meter_count := c; avg := Qred (s / inject_Z c) |}.

(** Strict comparison of two scores, [a < b]. *)
Definition Qlt_bool (a b : Q) : bool :=
  (Qnum a * QDen b <? Qnum b * QDen a)%Z.

(** ** The object, the world around it, and the external interface *)

(** The attributes of an [ARMA] instance.  [_modules] and [training] are the
    attributes inherited from [torch.nn.Module] that this class relies on. *)
Record ARMA : Type := mkARMA {
  info : Info;
  best_score : Q;
  hist_score : list Q;
  best_preds : option Probs;
  current_round_best_preds : option Probs;
  best_valid_score : Q;
  max_patience : Z;
  max_epochs : Z;
  name : string;
  hidden : Z;
  lr : Q;
  hyperparameters : HP;
  best_hp : option HP;
  _modules : Modules;
  optimizer : option Optimizer;
  training : bool
}.

Definition set_hyperparameters (h : HP) (a : ARMA) : ARMA :=
  mkARMA (info a) (best_score a) (hist_score a) (best_preds a)
    (current_round_best_preds a) (best_valid_score a) (max_patience a)
    (max_epochs a) (name a) (hidden a) (lr a) h (best_hp a) (_modules a)
    (optimizer a) (training a).

Definition set_best_hp (h : option HP) (a : ARMA) : ARMA :=
  mkARMA (info a) (best_score a) (hist_score a) (best_preds a)
    (current_round_best_preds a) (best_valid_score a) (max_patience a)
    (max_epochs a) (name a) (hidden a) (lr a) (hyperparameters a) h
    (_modules a) (optimizer a) (training a).

Definition set_current_round_best_preds (p : option Probs) (a : ARMA) : ARMA :=
  mkARMA (info a) (best_score a) (hist_score a) (best_preds a) p
    (best_valid_score a) (max_patience a) (max_epochs a) (name a) (hidden a)
    (lr a) (hyperparameters a) (best_hp a) (_modules a) (optimizer a)
    (training a).

Definition set_modules (ms : Modules) (a : ARMA) : ARMA :=
  mkARMA (info a) (best_score a) (hist_score a) (best_preds a)
    (current_round_best_preds a) (best_valid_score a) (max_patience a)
    (max_epochs a) (name a) (hidden a) (lr a) (hyperparameters a) (best_hp a)
    ms (optimizer a) (training a).

Definition set_optimizer (o : option Optimizer) (a : ARMA) : ARMA :=
  mkARMA (info a) (best_score a) (hist_score a) (best_preds a)
    (current_round_best_preds a) (best_valid_score a) (max_patience a)
    (max_epochs a) (name a) (hidden a) (lr a) (hyperparameters a) (best_hp a)
    (_modules a) o (training a).

Definition set_training (b : bool) (a : ARMA) : ARMA :=
  mkARMA (info a) (best_score a) (hist_score a) (best_preds a)
    (current_round_best_preds a) (best_valid_score a) (max_patience a)
    (max_epochs a) (name a) (hidden a) (lr a) (hyperparameters a) (best_hp a)
    (_modules a) (optimizer a) b.

(** Calls into the tensor engine that return nothing. *)
Inductive TorchOp : Type :=
| op_construct (l : Layer)                     (* Linear(...) / ARMAConv(...) *)
| op_Adam (o : Optimizer)                      (* torch.optim.Adam(...) *)
| op_to_cuda (params : list nat)               (* self.to('cuda') *)
| op_empty_cache                               (* torch.cuda.empty_cache() *)
| op_zero_grad (o : Optimizer)                 (* optimizer.zero_grad() *)
| op_train_step (preds : Expr) (d : Data) (o : Optimizer).
    (* cross_entropy(preds[train_mask], y[train_mask], label_weights),
       loss.backward(), optimizer.step(): the three statements of lines
       171-173 as one entry, which fails when any of them does *)

(** The calls the object makes to its collaborators, in order. *)
Inductive Event : Type :=
| ev_update_search_space (space : SearchSpace)
| ev_generate_parameters (index : Z)
| ev_receive_trial_result (index : Z) (h : HP) (score : Q)
| ev_torch (op : TorchOp)
| ev_softmax (logits : Expr)
| ev_print_hp (h : HP)
| ev_print_oom (who : string) (e : PyExc) (hidden_exp : Z)
| ev_print_best (who : string) (h : option HP).

(** The collaborators.  [Env] is their hidden state (tuner history, weights
    values, device memory, random generators). *)
Class Backend (Env : Type) : Type := {
  tuner_update_search_space : SearchSpace -> Env -> result unit * Env;
  tuner_generate_parameters : Z -> Env -> result HP * Env;
  tuner_receive_trial_result : Z -> HP -> Q -> Env -> result unit * Env;
  torch_op : TorchOp -> Env -> result unit * Env;
  (* F.softmax(<logits>, dim=-1) evaluated on the data *)
  torch_softmax : Expr -> Data -> Env -> result Probs * Env;
  (* f1_score(y_true, valid_preds.max(1)[1].flatten(), average='micro') *)
  f1_score_micro : list Z -> Probs -> result Q
}.

Record World (Env : Type) : Type := mkWorld {
  self : ARMA;
  env : Env;
  events : list Event;
  next_id : nat                 (* identities handed to new Python objects *)
}.

(** ** A state-and-exception monad *)

Definition M (Env A : Type) : Type := World Env -> result A * World Env.

Section Monad.
Context {Env : Type}.

Definition ret (A : Type) (a : A) : M Env A := fun w => (Ok a, w).

Definition bind (A B : Type) (m : M Env A) (k : A -> M Env B) : M Env B :=
  fun w =>
    match m w with
    | (Ok a, w') => k a w'
    | (Raise e, w') => (Raise e, w')
    end.

Definition raise (A : Type) (e : PyExc) : M Env A := fun w => (Raise e, w).

Definition lift (A : Type) (r : result A) : M Env A := fun w => (r, w).

Definition get_self : M Env ARMA := fun w => (Ok (self w), w).

Definition update_self (f : ARMA -> ARMA) : M Env unit :=
  fun w => (Ok tt, mkWorld (f (self w)) (env w) (events w) (next_id w)).

Definition emit (ev : Event) : M Env unit :=
  fun w => (Ok tt, mkWorld (self w) (env w) (events w ++ [ev]) (next_id w)).

(** An external call: logged, then run on the collaborators' state. *)
Definition external (A : Type) (ev : Event) (f : Env -> result A * Env) : M Env A :=
  fun w =>
    let (r, env') := f (env w) in
    (r, mkWorld (self w) env' (events w ++ [ev]) (next_id w)).

Definition fresh_id : M Env nat :=
  fun w => (Ok (next_id w), mkWorld (self w) (env w) (events w) (S (next_id w))).

Definition when (b : bool) (m : M Env unit) : M Env unit :=
  if b then m else ret tt.

(** [try: body  except RuntimeError as e: handler(e)]. *)
Definition try_except_RuntimeError (A : Type) (body : M Env A)
    (handler : PyExc -> M Env A) : M Env A :=
  fun w =>
    match body w with
    | (Ok a, w') => (Ok a, w')
    | (Raise e, w') =>
        if is_RuntimeError e then handler e w' else (Raise e, w')
    end.
End Monad.

Arguments ret {Env A} a.
Arguments bind {Env A B} m k.
Arguments raise {Env A} e.
Arguments lift {Env A} r.
Arguments external {Env A} ev f.
Arguments try_except_RuntimeError {Env A} body handler.

Declare Scope arma_scope.
Delimit Scope arma_scope with arma.
Notation "x <- m ;; k" := (bind m (fun x => k))
  (at level 61, m at next level, right associativity) : arma_scope.
Notation "m ;; k" := (bind m (fun _ => k))
  (at level 61, right associativity) : arma_scope.
Open Scope arma_scope.

(** ** The methods of [ARMA] *)

Section Model.
Context {Env : Type} {B : Backend Env}.

(** *** [__init__] *)

Definition search_space (i : Info) : SearchSpace :=
  [ ("dropedge_rate"%string, choice_rate [info_dropedge_rate i]);
    ("dropout_rate"%string, choice_num [info_dropout_rate i]);
    ("num_layers"%string, quniform 1 3 1);
    ("hidden"%string, quniform 4 7 1);
    ("lr"%string, choice_num [5 # 1000]);
    ("num_stacks"%string, quniform 1 5 1);
    ("conv_layers"%string, quniform 1 5 1);
    ("use_linear"%string, choice_bool [true; false]) ].

(** The dictionary built at lines 33-42. *)
Definition initial_hyperparameters (i : Info) : HP :=
  {| hp_num_layers := info_num_layers i;
     hp_lr := info_lr i;
     hp_num_stacks := 1;
     hp_conv_layers := 1;
     hp_dropedge_rate := info_dropedge_rate i;
     hp_dropout_rate := 1 # 2;
     hp_hidden := info_init_hidden_size i;
     hp_use_linear := info_use_linear i |}.

Definition new_ARMA (i : Info) : ARMA :=
  {| info := i;
     best_score := 0;
     hist_score := [];
     best_preds := None;
     current_round_best_preds := None;
     best_valid_score := 0;
     max_patience := 100;
     max_epochs := 1600;
     name := "ARMA";
     hidden := 16;
     lr := 5 # 1000;
     hyperparameters := initial_hyperparameters i;
     best_hp := None;
     _modules := [];
     optimizer := None;
     training := true |}.

Definition __init__ (i : Info) (e : Env) : result unit * World Env :=
  external (ev_update_search_space (search_space i))
           (tuner_update_search_space (search_space i))
           {| self := new_ARMA i; env := e; events := []; next_id := O |}.

(** *** [torch.nn.Module] attribute protocol *)

Definition setattr_module (attr : string) (v : Submodule) : M Env unit :=
  update_self (fun a => set_modules (modules_set attr v (_modules a)) a).

Definition getattr_module (attr : string) : M Env Submodule :=
  a <- get_self ;;
  match modules_get attr (_modules a) with
  | Some v => ret v
  | None => raise (AttributeErr attr)
  end.

Definition getattr_layer (attr : string) : M Env Layer :=
  m <- getattr_module attr ;;
  match m with
  | Single l => ret l
  | ModuleList _ => raise (TypeErr "ModuleList is not callable")
  end.

Definition getattr_list (attr : string) : M Env (list Layer) :=
  m <- getattr_module attr ;;
  match m with
  | ModuleList ls => ret ls
  | Single _ => raise (TypeErr "layer is not a ModuleList")
  end.

(** [self.parameters()]: the parameter tensors of every registered layer. *)
Definition parameters (a : ARMA) : list nat :=
  map layer_id (modules_layers (_modules a)).

(** *** [init_model] *)

(** [int(2 ** h)] for an integral [h]: a negative exponent gives a float
    in (0, 1/2], which [int] truncates to 0. *)
Definition hidden_size_of (h : Z) : Z := if 0 <=? h then 2 ^ h else 0.

(** Calling a layer constructor: a new object with new parameter tensors. *)
Definition construct (mk : nat -> Layer) : M Env Layer :=
  id <- fresh_id ;;
  external (ev_torch (op_construct (mk id))) (torch_op (op_construct (mk id))) ;;
  ret (mk id).

(** [self.convs.append(l)] *)
Definition convs_append (l : Layer) : M Env unit :=
  ls <- getattr_list "convs" ;;
  setattr_module "convs" (ModuleList (ls ++ [l])).

(** [for i in range(n): body] *)
Fixpoint for_range (n : nat) (body : M Env unit) : M Env unit :=
  match n with
  | O => ret tt
  | S n' => body ;; for_range n' body
  end.

Definition init_model (n_class feature_num : Z) : M Env unit :=
  a <- get_self ;;
  let hp := hyperparameters a in
  let hidden_size := hidden_size_of (hp_hidden hp) in
  let num_stacks := hp_num_stacks hp in
  let conv_layers := hp_conv_layers hp in
  let lr := hp_lr hp in
  let dropout := hp_dropout_rate hp in
  let num_layers := hp_num_layers hp in
  (if hp_use_linear hp then
     l <- construct (fun id => Linear id feature_num hidden_size) ;;
     setattr_module "input_lin" (Single l) ;;
     setattr_module "convs" (ModuleList []) ;;
     for_range (Z.to_nat num_layers)
       (c <- construct (fun id => ARMAConv id hidden_size hidden_size
                                   num_stacks conv_layers false dropout) ;;
        convs_append c) ;;
     l <- construct (fun id => Linear id hidden_size n_class) ;;
     setattr_module "output_lin" (Single l)
   else
     if num_layers =? 1 then
       c <- construct (fun id => ARMAConv id feature_num n_class
                                   num_stacks conv_layers false dropout) ;;
       setattr_module "conv1" (Single c)
     else
       c <- construct (fun id => ARMAConv id feature_num hidden_size
                                   num_stacks conv_layers false dropout) ;;
       setattr_module "conv1" (Single c) ;;
       setattr_module "convs" (ModuleList []) ;;
       for_range (Z.to_nat (num_layers - 2))
         (c <- construct (fun id => ARMAConv id hidden_size hidden_size
                                     num_stacks conv_layers false dropout) ;;
          convs_append c) ;;
       c <- construct (fun id => ARMAConv id hidden_size n_class
                                   num_stacks conv_layers false dropout) ;;
       setattr_module "conv2" (Single c)) ;;
  a <- get_self ;;
  oid <- fresh_id ;;
  let o := mkAdam oid (parameters a) lr (5 # 10000) in
  external (ev_torch (op_Adam o)) (torch_op (op_Adam o)) ;;
  update_self (set_optimizer (Some o)) ;;
  external (ev_torch (op_to_cuda (parameters a))) (torch_op (op_to_cuda (parameters a))) ;;
  external (ev_torch op_empty_cache) (torch_op op_empty_cache).

(** *** [forward] *)

(** [for conv in self.convs: x = F.relu(conv(x, edge_index, edge_weight))] *)
Fixpoint apply_convs (convs : list Layer) (edges : EdgeExpr) (x : Expr) : Expr :=
  match convs with
  | [] => x
  | conv :: rest => apply_convs rest edges (F_relu (call_conv conv x edges))
  end.

(** Lines 113-133.  The pass is followed up to the attributes it reads and
    the expression it builds: its tensor operators ([dropout_adj], the
    layer calls, [relu], [dropout]) are the terms of the result and are not
    logged.  An operator that rejects its arguments (a rate outside [0, 1],
    widths that do not fit) is not told apart at this point; the engine
    meets the expression where it is consumed, at the training step or at
    the softmax. *)
Definition forward (data : Data) : M Env Expr :=
  a <- get_self ;;
  let hp := hyperparameters a in
  let edges :=
    match hp_dropedge_rate hp with
    | Some p => dropout_adj p (training a)
    | None => data_edges
    end in
  (* lines 126-133 *)
  let rest (x : Expr) : M Env Expr :=
    let x := F_dropout (hp_dropout_rate hp) (training a) x in
    convs <- getattr_list "convs" ;;
    let x := apply_convs convs edges x in
    if hp_use_linear hp then
      output_lin <- getattr_layer "output_lin" ;;
      ret (call_linear output_lin x)
    else
      conv2 <- getattr_layer "conv2" ;;
      ret (call_conv conv2 x edges) in
  if hp_use_linear hp then
    input_lin <- getattr_layer "input_lin" ;;
    rest (F_relu (call_linear input_lin data_x))
  else
    conv1 <- getattr_layer "conv1" ;;
    let x := F_relu (call_conv conv1 data_x edges) in
    if hp_num_layers hp =? 1 then ret x
    else rest x.

(** *** [train_valid] *)

(** The local variables of [train_valid] that live across iterations.
    [valid_score] and [test_preds] are unbound before the first epoch. *)
Record Frame : Type := mkFrame {
  patience : Z;
  loc_best_valid_score : Q;
  valid_acc_meter : AverageMeter;
  valid_score : option Q;
  test_preds : option Probs
}.

Definition getattr_optimizer : M Env Optimizer :=
  a <- get_self ;;
  match optimizer a with
  | Some o => ret o
  | None => raise (AttributeErr "optimizer")
  end.

(** Lines 167-173, the training step of an epoch. *)
Definition epoch_train (data : Data) : M Env unit :=
  update_self (set_training true) ;;
  o <- getattr_optimizer ;;
  external (ev_torch (op_zero_grad o)) (torch_op (op_zero_grad o)) ;;
  preds <- forward data ;;
  external (ev_torch (op_train_step preds data o))
           (torch_op (op_train_step preds data o)).

(** Lines 175-180, the evaluation of an epoch: [valid_score] and
    [test_preds]. *)
Definition epoch_valid (data : Data) : M Env (Q * Probs) :=
  update_self (set_training false) ;;
  logits <- forward data ;;
  preds <- external (ev_softmax logits) (torch_softmax logits data) ;;
  valid_preds <- lift (mask_index (valid_mask data) preds) ;;
  test_preds <- lift (mask_index (test_mask data) preds) ;;
  y_valid <- lift (mask_index (valid_mask data) (y data)) ;;
  valid_score <- lift (f1_score_micro y_valid valid_preds) ;;
  ret (valid_score, test_preds).

(** One iteration of the epoch loop, lines 167-189 (everything but the
    final [if patience == 0: break]). *)
Definition epoch_body (data : Data) (f : Frame) : M Env Frame :=
  epoch_train data ;;
  scored <- epoch_valid data ;;
  let valid_score := fst scored in
  let test_preds := snd scored in
  let meter := AverageMeter_update valid_score (valid_acc_meter f) in
  (* patience *)
  a <- get_self ;;
  if Qlt_bool (loc_best_valid_score f) (avg meter) then
    update_self (set_current_round_best_preds (Some test_preds)) ;;
    ret (mkFrame (max_patience a) (avg meter) meter
                 (Some valid_score) (Some test_preds))
  else
    ret (mkFrame (patience f - 1) (loc_best_valid_score f) meter
                 (Some valid_score) (Some test_preds)).

(** [for epoch in range(n): <body>; if patience == 0: break] *)
Fixpoint epoch_loop (n : nat) (data : Data) (f : Frame) : M Env Frame :=
  match n with
  | O => ret f
  | S n' =>
      f' <- epoch_body data f ;;
      if patience f' =? 0 then ret f' else epoch_loop n' data f'
  end.

Definition initial_frame (a : ARMA) : Frame :=
  mkFrame (max_patience a) 0 AverageMeter_new None None.

Definition train_valid (data : Data) (round_num : Z) : M Env Q :=
  a <- get_self ;;
  f <- epoch_loop (Z.to_nat (max_epochs a)) data (initial_frame a) ;;
  ret (loc_best_valid_score f).

(** *** [trial] *)

(** [copy.deepcopy] of a dictionary of scalars: a new dictionary with the
    same entries. *)
Definition deepcopy (h : HP) : HP :=
  mkHP (hp_num_layers h) (hp_lr h) (hp_num_stacks h) (hp_conv_layers h)
       (hp_dropedge_rate h) (hp_dropout_rate h) (hp_hidden h) (hp_use_linear h).

(** How the [try] statement inside [while True] is left: by [break] or by
    [return 0].  Every path through the loop body is one of the two (or a
    propagating exception), so the body runs once per call. *)
Inductive LoopExit : Type :=
| exit_break (val_score : Q)
| exit_return (v : Q).

(** The [try] block, lines 143-149. *)
Definition trial_try (data : Data) (round_num n_class feature_num : Z)
    : M Env LoopExit :=
  init_model n_class feature_num ;;
  val_score <- train_valid data round_num ;;
  a <- get_self ;;
  when (1 <? round_num)
    (external (ev_receive_trial_result (round_num - 1) (hyperparameters a) val_score)
              (tuner_receive_trial_result (round_num - 1) (hyperparameters a) val_score)) ;;
  a <- get_self ;;
  when (Qlt_bool (best_score a) val_score)
    (update_self (set_best_hp (Some (deepcopy (hyperparameters a))))) ;;
  ret (exit_break val_score).

(** The [except RuntimeError as e] block, lines 151-154. *)
Definition trial_except (round_num : Z) (e : PyExc) : M Env LoopExit :=
  a <- get_self ;;
  emit (ev_print_oom (name a) e (hp_hidden (hyperparameters a))) ;;
  when (1 <? round_num)
    (external (ev_receive_trial_result (round_num - 1) (hyperparameters a) 0)
              (tuner_receive_trial_result (round_num - 1) (hyperparameters a) 0)) ;;
  ret (exit_return 0).

(** Lines 137-139: the configuration of the round. *)
Definition trial_configure (round_num : Z) : M Env unit :=
  when (2 <=? round_num)
    (h <- external (ev_generate_parameters (round_num - 1))
                   (tuner_generate_parameters (round_num - 1)) ;;
     update_self (set_hyperparameters h)) ;;
  a <- get_self ;;
  emit (ev_print_hp (hyperparameters a)).

(** Lines 141-156: the [while True] statement and what follows it. *)
Definition trial_round (data : Data) (round_num n_class feature_num : Z)
    : M Env Q :=
  out <- try_except_RuntimeError
           (trial_try data round_num n_class feature_num)
           (trial_except round_num) ;;
  match out with
  | exit_return v => ret v
  | exit_break val_score =>
      a <- get_self ;;
      emit (ev_print_best (name a) (best_hp a)) ;;
      ret val_score
  end.

Definition trial (data : Data) (round_num : Z) : M Env Q :=
  a <- get_self ;;
  let n_class := info_n_class (info a) in
  let feature_num := x_shape1 data in
  trial_configure round_num ;;
  trial_round data round_num n_class feature_num.

(** *** [predict] *)

(** [self.current_round_best_preds.cpu().numpy()]; [None] has no [cpu]. *)
Definition predict : M Env ndarray :=
  a <- get_self ;;
  match current_round_best_preds a with
  | Some p => ret (array2 p)
  | None => raise (AttributeErr "cpu")
  end.

End Model.

Arguments getattr_optimizer {Env}.
Arguments predict {Env}.

(** ** What a run of the epoch loop goes through *)

Section Runs.
Context {Env : Type} {B : Backend Env}.

(** The local variables and the world at the end of every completed
    iteration of [epoch_loop n data f] started in [w], in order.  It follows
    the same steps as [epoch_loop] and stops where the loop stops: at the
    [break], at the end of the range, or at an exception. *)
Fixpoint epoch_frames (n : nat) (data : Data) (f : Frame) (w : World Env)
    : list (Frame * World Env) :=
  match n with
  | O => []
  | S n' =>
      match epoch_body data f w with
      | (Ok f', w') =>
          (f', w') :: (if patience f' =? 0 then [] else epoch_frames n' data f' w')
      | (Raise _, _) => []
      end
  end.

(** The iterations of [train_valid data round_num] started in [w]. *)
Definition train_valid_frames (data : Data) (w : World Env)
    : list (Frame * World Env) :=
  epoch_frames (Z.to_nat (max_epochs (self w))) data (initial_frame (self w)) w.

(** The validation scores of the completed iterations, in order. *)
Definition frame_scores (fs : list (Frame * World Env)) : list Q :=
  flat_map (fun x => match valid_score (fst x) with
                     | Some v => [v]
                     | None => []
                     end) fs.

(** The mean of all scores so far, after each score: what "a running
    average over all epochs so far" denotes.  [sum] and [count] are the sum
    and the number of the scores that came before. *)
Fixpoint running_means (sum : Q) (count : Z) (scores : list Q) : list Q :=
  match scores with
  | [] => []
  | v :: rest =>
      ((sum + v) / inject_Z (count + 1))%Q
        :: running_means (sum + v)%Q (count + 1) rest
  end.

(** The public methods, as the orchestrator can call them. *)
Inductive Call : Type :=
| call_init_model (n_class feature_num : Z)
| call_forward (data : Data)
| call_train_valid (data : Data) (round_num : Z)
| call_trial (data : Data) (round_num : Z)
| call_predict.

Definition run_call (c : Call) (w : World Env) : World Env :=
  match c with
  | call_init_model n_class feature_num => snd (init_model n_class feature_num w)
  | call_forward data => snd (forward data w)
  | call_train_valid data round_num => snd (train_valid data round_num w)
  | call_trial data round_num => snd (trial data round_num w)
  | call_predict => snd (predict w)
  end.

Definition run_calls (cs : list Call) (w : World Env) : World Env :=
  fold_left (fun w c => run_call c w) cs w.
End Runs.

(** ** A scripted collaborator, to run the methods on concrete inputs *)

Module Scripted.

(** What the collaborators will answer. *)
Record Script : Type := mkScript {
  sc_probs : nat -> Probs;          (* result of the k-th softmax evaluation *)
  sc_fault : nat -> option PyExc;   (* exception of the k-th training step *)
  sc_params : Z -> result HP        (* answer to generate_parameters(index) *)
}.

Record SEnv : Type := mkSEnv {
  evals : nat;
  steps : nat
}.

(** Index of the first largest entry of a row. *)
Fixpoint argmax_from (best_i : Z) (best : Q) (i : Z) (row : list Q) : Z :=
  match row with
  | [] => best_i
  | v :: rest =>
      if Qlt_bool best v then argmax_from i v (i + 1) rest
      else argmax_from best_i best (i + 1) rest
  end.

Definition argmax (row : list Q) : Z :=
  match row with
  | [] => 0
  | v :: rest => argmax_from 0 v 1 rest
  end.

Fixpoint hits (labels : list Z) (p : Probs) : nat :=
  match labels, p with
  | l :: labels', row :: p' =>
      ((if (l =? argmax row)%Z then 1 else 0) + hits labels' p')%nat
  | _, _ => O
  end.

(** Micro-averaged F1 of single-label predictions: the share of nodes
    whose predicted class is the true one. *)
Definition accuracy (labels : list Z) (p : Probs) : result Q :=
  match labels with
  | [] => Ok 0%Q
  | _ => Ok (Z.of_nat (hits labels p) # Pos.of_nat (List.length labels))
  end.

Definition script_torch_op (sc : Script) (op : TorchOp) (e : SEnv)
    : result unit * SEnv :=
  match op with
  | op_train_step _ _ _ =>
      (match sc_fault sc (steps e) with
       | Some x => Raise x
       | None => Ok tt
       end, mkSEnv (evals e) (S (steps e)))
  | _ => (Ok tt, e)
  end.

Definition backend (sc : Script) : Backend SEnv :=
  {| tuner_update_search_space := fun _ e => (Ok tt, e);
     tuner_generate_parameters := fun index e => (sc_params sc index, e);
     tuner_receive_trial_result := fun _ _ _ e => (Ok tt, e);
     torch_op := script_torch_op sc;
     torch_softmax := fun _ _ e => (Ok (sc_probs sc (evals e)), mkSEnv (S (evals e)) (steps e));
     f1_score_micro := accuracy |}.

Definition start : SEnv := mkSEnv O O.

End Scripted.

(** * Vocabulary of the properties *)

Section Vocabulary.
Context {Env : Type} {B : Backend Env}.

(** The metric behaves like an F1 score: it is never negative. *)
Definition f1_score_in_range : Prop :=
  forall y_true p v, f1_score_micro y_true p = Ok v -> (0 <= v)%Q.

(** A relation between the world before and after, kept by every run of
    the computation. *)
Definition keeps (R : World Env -> World Env -> Prop) (A : Type) (m : M Env A)
    : Prop :=
  forall w, R w (snd (m w)).

(** The observation [obs] reads the same before and after. *)
Definition same (X : Type) (obs : World Env -> X) (w w' : World Env) : Prop :=
  obs w' = obs w.

(** The calls made to the tuner so far. *)
Definition is_tuner_event (ev : Event) : bool :=
  match ev with
  | ev_update_search_space _
  | ev_generate_parameters _
  | ev_receive_trial_result _ _ _ => true
  | _ => false
  end.

Definition tuner_calls (w : World Env) : list Event :=
  filter is_tuner_event (events w).

(** The calls made to the tensor engine so far. *)
Definition is_torch_event (ev : Event) : bool :=
  match ev with
  | ev_torch _ | ev_softmax _ => true
  | _ => false
  end.

Definition torch_calls (w : World Env) : list Event :=
  filter is_torch_event (events w).

(** The configuration and the best-known configuration during a round. *)
Definition round_config (w : World Env) : HP * option HP :=
  (hyperparameters (self w), best_hp (self w)).

(** Appending to the event log. *)
Definition logged (evs : list Event) (w : World Env) : World Env :=
  mkWorld (self w) (env w) (events w ++ evs) (next_id w).

(** Model construction or training, started in [w], raises [e] and leaves
    the world [we]. *)
Definition round_fails (data : Data) (round_num n_class feature_num : Z)
    (w : World Env) (e : PyExc) (we : World Env) : Prop :=
  init_model n_class feature_num w = (Raise e, we) \/
  exists wm, init_model n_class feature_num w = (Ok tt, wm) /\
             train_valid data round_num wm = (Raise e, we).

(** Construction and training of the round succeed, with score [v], but the
    report of the score to the tuner (line 146, inside the [try] block)
    raises [e] and leaves the world [we]. *)
Definition report_fails (data : Data) (round_num n_class feature_num : Z)
    (w : World Env) (e : PyExc) (we : World Env) : Prop :=
  exists wm wt v env',
    init_model n_class feature_num w = (Ok tt, wm) /\
    train_valid data round_num wm = (Ok v, wt) /\
    1 < round_num /\
    tuner_receive_trial_result (round_num - 1) (hyperparameters (self wt)) v
      (env wt) = (Raise e, env') /\
    we = mkWorld (self wt) env'
           (events wt ++ [ev_receive_trial_result (round_num - 1)
                            (hyperparameters (self wt)) v])
           (next_id wt).

(** The layer [l] was created between the worlds [w] and [w']. *)
Definition created_between (w w' : World Env) (l : Layer) : Prop :=
  (next_id w <= layer_id l < next_id w')%nat.

Definition registered (w : World Env) (attr : string) (v : Submodule) : Prop :=
  modules_get attr (_modules (self w)) = Some v.

(** The attributes that [init_model] assigns, by configuration. *)
Definition assigned_attrs (h : HP) : list string :=
  if hp_use_linear h then ["input_lin"; "convs"; "output_lin"]%string
  else if hp_num_layers h =? 1 then ["conv1"]%string
  else ["conv1"; "convs"; "conv2"]%string.

(** Whatever is registered under another attribute stays as it is. *)
Definition others_kept (h : HP) (w w' : World Env) : Prop :=
  forall attr, ~ In attr (assigned_attrs h) ->
    modules_get attr (_modules (self w')) = modules_get attr (_modules (self w)).

(** What [init_model] has registered when it returns, by configuration. *)
Definition built_for (h : HP) (w w' : World Env) : Prop :=
  if hp_use_linear h then
    exists input_lin convs output_lin,
      registered w' "input_lin" (Single input_lin) /\
      registered w' "convs" (ModuleList convs) /\
      registered w' "output_lin" (Single output_lin) /\
      Forall (created_between w w') (input_lin :: output_lin :: convs)
  else if hp_num_layers h =? 1 then
    exists conv1,
      registered w' "conv1" (Single conv1) /\
      created_between w w' conv1
  else
    exists conv1 convs conv2,
      registered w' "conv1" (Single conv1) /\
      registered w' "convs" (ModuleList convs) /\
      registered w' "conv2" (Single conv2) /\
      Forall (created_between w w') (conv1 :: conv2 :: convs).

(** The edges a forward pass works on (lines 115-117). *)
Definition edges_of (a : ARMA) : EdgeExpr :=
  match hp_dropedge_rate (hyperparameters a) with
  | Some p => dropout_adj p (training a)
  | None => data_edges
  end.

(** What the epoch loop reads from, and caches in, the object. *)
Definition loop_view (w : World Env) : Z * Z * option Probs :=
  (max_patience (self w), max_epochs (self w), current_round_best_preds (self w)).

(** The effect of one completed iteration on the local variables and on
    the cache. *)
Definition epoch_effect (data : Data) (f : Frame) (w : World Env)
    (f' : Frame) (w' : World Env) : Prop :=
  exists v tp,
    valid_score f' = Some v /\
    test_preds f' = Some tp /\
    (exists y_valid valid_preds, f1_score_micro y_valid valid_preds = Ok v) /\
    (exists probs : Probs,
       List.length probs = List.length (test_mask data) /\
       tp = select_rows (test_mask data) probs) /\
    valid_acc_meter f' = AverageMeter_update v (valid_acc_meter f) /\
    max_patience (self w') = max_patience (self w) /\
    max_epochs (self w') = max_epochs (self w) /\
    if Qlt_bool (loc_best_valid_score f) (avg (valid_acc_meter f')) then
      patience f' = max_patience (self w) /\
      loc_best_valid_score f' = avg (valid_acc_meter f') /\
      current_round_best_preds (self w') = Some tp
    else
      patience f' = patience f - 1 /\
      loc_best_valid_score f' = loc_best_valid_score f /\
      current_round_best_preds (self w') = current_round_best_preds (self w).

(** A meter that has only seen scores that are not negative. *)
Definition meter_ok (m : AverageMeter) : Prop :=
  (0 <= meter_sum m)%Q /\ 0 <= meter_count m /\ (0 <= avg m)%Q.

(** [rel] holds between each element and the next, starting from [prev]. *)
Fixpoint chain (A : Type) (rel : A -> A -> Prop) (prev : A) (xs : list A) : Prop :=
  match xs with
  | [] => True
  | x :: rest => rel prev x /\ chain rel x rest
  end.

(** One iteration, from the end of the previous one: the loop went on
    (or had not started), and the body had its effect. *)
Definition epoch_step (data : Data) (p c : Frame * World Env) : Prop :=
  epoch_effect data (fst p) (snd p) (fst c) (snd c).

(** The counter stays within [0, bound], and the bound is not written. *)
Definition patience_within (bound : Z) (x : Frame * World Env) : Prop :=
  0 <= patience (fst x) <= bound /\ max_patience (self (snd x)) = bound.

(** The iteration [x] reached the mean [best] and its test-mask rows are
    what the world [w] has cached. *)
Definition cached_from (data : Data) (best : Q) (w : World Env)
    (x : Frame * World Env) : Prop :=
  avg (valid_acc_meter (fst x)) = best /\
  current_round_best_preds (self w) = test_preds (fst x) /\
  exists probs : Probs,
    List.length probs = List.length (test_mask data) /\
    test_preds (fst x) = Some (select_rows (test_mask data) probs).

(** The world after [self.eval()]. *)
Definition eval_world (w : World Env) : World Env :=
  mkWorld (set_training false (self w)) (env w) (events w) (next_id w).

(** The evaluation of the iteration that leads from [w] to [w'] (lines
    175-180): after the training step, the forward pass in evaluation mode
    gives [logits]; [probs] is what the engine's softmax answers for them,
    one row per node; [v] is the value of the metric on the rows and labels
    that the validation mask selects. *)
Definition evaluated (data : Data) (w w' : World Env) (probs : Probs) (v : Q)
    : Prop :=
  exists w1 logits,
    epoch_train data w = (Ok tt, w1) /\
    forward data (eval_world w1) = (Ok logits, eval_world w1) /\
    torch_softmax logits data (env w1) = (Ok probs, env w') /\
    events w' = events w1 ++ [ev_softmax logits] /\
    List.length probs = List.length (valid_mask data) /\
    List.length probs = List.length (test_mask data) /\
    f1_score_micro (select_rows (valid_mask data) (y data))
                   (select_rows (valid_mask data) probs) = Ok v.

(** One iteration, from the end of the previous one: its score and its
    test-mask rows are those of its own evaluation, and the score is what
    the meter was updated with. *)
Definition evaluated_step (data : Data) (p c : Frame * World Env) : Prop :=
  exists probs v,
    evaluated data (snd p) (snd c) probs v /\
    valid_score (fst c) = Some v /\
    valid_acc_meter (fst c) = AverageMeter_update v (valid_acc_meter (fst p)) /\
    test_preds (fst c) = Some (select_rows (test_mask data) probs).

(** The answer the claim C2 expects: one class index per held-out node. *)
Definition class_indices (labels : list Z) : ndarray :=
  array1 (map inject_Z labels).

End Vocabulary.

(** * A small graph and scripted collaborators *)

Module Scenario.
Import Scripted.

(** Four nodes, two classes: node 0 is for training, nodes 1 and 2 for
    validation, node 3 is held out. *)
Definition graph : Data :=
  {| x_shape1 := 3;
     y := [0; 1; 0; 1];
     train_mask := [true; false; false; false];
     valid_mask := [false; true; true; false];
     test_mask := [false; false; false; true] |}.

Definition the_info : Info :=
  {| info_num_layers := 2;
     info_lr := 5 # 1000;
     info_dropedge_rate := None;
     info_dropout_rate := 1 # 2;
     info_init_hidden_size := 4;
     info_use_linear := false;
     info_n_class := 2 |}.

(** The same, asking for a single convolution. *)
Definition single_info : Info :=
  {| info_num_layers := 1;
     info_lr := 5 # 1000;
     info_dropedge_rate := Some (1 # 10);
     info_dropout_rate := 1 # 2;
     info_init_hidden_size := 4;
     info_use_linear := false;
     info_n_class := 2 |}.

(** Both validation nodes classified correctly: score 1. *)
Definition probs_good : Probs :=
  [[1; 0]; [0; 1]; [1; 0]; [1 # 4; 3 # 4]]%Q.

(** One of the two validation nodes classified correctly: score 1/2. *)
Definition probs_half : Probs :=
  [[1; 0]; [0; 1]; [0; 1]; [3 # 4; 1 # 4]]%Q.

(** A configuration the tuner may propose: linear in, one convolution,
    linear out. *)
Definition proposal : HP :=
  {| hp_num_layers := 1;
     hp_lr := 5 # 1000;
     hp_num_stacks := 2;
     hp_conv_layers := 1;
     hp_dropedge_rate := None;
     hp_dropout_rate := 1 # 2;
     hp_hidden := 5;
     hp_use_linear := true |}.

(** Round 1 scores 1 at every epoch and stops after 101 epochs; later
    rounds score 1/2 at every epoch. *)
Definition fading : Script :=
  {| sc_probs := fun k => if (k <? 101)%nat then probs_good else probs_half;
     sc_fault := fun _ => None;
     sc_params := fun _ => Ok proposal |}.

(** No validation node is classified correctly: score 0. *)
Definition probs_none : Probs :=
  [[1; 0]; [1; 0]; [0; 1]; [1 # 2; 1 # 2]]%Q.

(** Round 1 as in [fading]; later rounds score 0 at every epoch. *)
Definition collapsing : Script :=
  {| sc_probs := fun k => if (k <? 101)%nat then probs_good else probs_none;
     sc_fault := fun _ => None;
     sc_params := fun _ => Ok proposal |}.

(** The training step number [k] fails with [e]. *)
Definition failing (k : nat) (e : PyExc) : Script :=
  {| sc_probs := fun _ => probs_good;
     sc_fault := fun j => if (j =? k)%nat then Some e else None;
     sc_params := fun _ => Ok proposal |}.

(** The object right after construction. *)
Definition created (sc : Script) : World SEnv :=
  snd (@__init__ SEnv (backend sc) the_info start).

(** The object after round 1 of the [fading] script. *)
Definition after_round1 : World SEnv :=
  snd (@trial SEnv (backend fading) graph 1 (created fading)).

(** ... and after round 2. *)
Definition after_round2 : World SEnv :=
  snd (@trial SEnv (backend fading) graph 2 after_round1).

End Scenario.

(** * Vocabulary of the further properties *)

Section Architecture.
Context {Env : Type} {B : Backend Env}.

(** The metric behaves like an F1 score: it is at most 1. *)
Definition f1_score_at_most_one : Prop :=
  forall y_true p v, f1_score_micro y_true p = Ok v -> (v <= 1)%Q.

(** The convolution [init_model] creates under the configuration [h]. *)
Definition conv_layer (h : HP) (in_channels out_channels : Z) (id : nat) : Layer :=
  ARMAConv id in_channels out_channels (hp_num_stacks h) (hp_conv_layers h)
           false (hp_dropout_rate h).

(** The edges a forward pass works on under [h], in the given mode. *)
Definition edges_for (h : HP) (mode : bool) : EdgeExpr :=
  match hp_dropedge_rate h with
  | Some p => dropout_adj p mode
  | None => data_edges
  end.

(** The network that [init_model] followed by [forward] amounts to, for
    the configuration [h], when [first] is the identity of the first layer
    created: a stack between two linear projections, a single convolution,
    or a stack between two convolutions. *)
Definition architecture (h : HP) (n_class feature_num : Z) (first : nat)
    (mode : bool) : Expr :=
  let width := hidden_size_of (hp_hidden h) in
  let edges := edges_for h mode in
  if hp_use_linear h then
    let k := Z.to_nat (hp_num_layers h) in
    call_linear (Linear (first + 1 + k) width n_class)
      (apply_convs (map (conv_layer h width width) (seq (first + 1) k)) edges
         (F_dropout (hp_dropout_rate h) mode
            (F_relu (call_linear (Linear first feature_num width) data_x))))
  else if hp_num_layers h =? 1 then
    F_relu (call_conv (conv_layer h feature_num n_class first) data_x edges)
  else
    let k := Z.to_nat (hp_num_layers h - 2) in
    call_conv (conv_layer h width n_class (first + 1 + k))
      (apply_convs (map (conv_layer h width width) (seq (first + 1) k)) edges
         (F_dropout (hp_dropout_rate h) mode
            (F_relu (call_conv (conv_layer h feature_num width first) data_x edges))))
      edges.

Definition layer_in (l : Layer) : Z :=
  match l with
  | Linear _ i _ => i
  | ARMAConv _ i _ _ _ _ _ => i
  end.

Definition layer_out (l : Layer) : Z :=
  match l with
  | Linear _ _ o => o
  | ARMAConv _ _ o _ _ _ _ => o
  end.

(** The number of columns of the tensor an expression denotes, when the
    node features have [feature_num] columns and every layer is applied to
    an input of the width it was built for; [None] otherwise. *)
Fixpoint columns (feature_num : Z) (e : Expr) : option Z :=
  match e with
  | data_x => Some feature_num
  | F_relu e' | F_dropout _ _ e' => columns feature_num e'
  | call_linear l e' | call_conv l e' _ =>
      match columns feature_num e' with
      | Some d => if d =? layer_in l then Some (layer_out l) else None
      | None => None
      end
  end.

(** Every stochastic operator of the expression runs in the mode [mode]
    ([true]: training, [false]: evaluation). *)
Definition edges_in_mode (mode : bool) (edges : EdgeExpr) : bool :=
  match edges with
  | data_edges => true
  | dropout_adj _ t => Bool.eqb t mode
  end.

Fixpoint in_mode (mode : bool) (e : Expr) : bool :=
  match e with
  | data_x => true
  | F_relu e' => in_mode mode e'
  | F_dropout _ t e' => Bool.eqb t mode && in_mode mode e'
  | call_linear _ e' => in_mode mode e'
  | call_conv _ e' edges => edges_in_mode mode edges && in_mode mode e'
  end.

(** Every registered layer was created before: its identity is below the
    next one to be handed out. *)
Definition ids_below (w : World Env) : Prop :=
  Forall (fun l => (layer_id l < next_id w)%nat)
         (modules_layers (_modules (self w))).

(** A step after which [ids_below] still holds. *)
Definition ids_kept (w w' : World Env) : Prop := ids_below w -> ids_below w'.

(** [m], started where [pre] holds, ends normally where [post] holds, or
    with an exception where [inv] holds. *)
Definition ensures (pre : World Env -> Prop) (A : Type) (m : M Env A)
    (post : A -> World Env -> Prop) (inv : World Env -> Prop) : Prop :=
  forall w, pre w ->
    match m w with
    | (Ok a, w') => post a w'
    | (Raise _, w') => inv w'
    end.

(** The attributes that no method assigns after construction. *)
Definition fixed_attributes (a : ARMA)
    : Info * list Q * option Probs * Q * Z * Z * string * Z * Q :=
  (info a, hist_score a, best_preds a, best_valid_score a, max_patience a,
   max_epochs a, name a, hidden a, lr a).

(** The configuration and the calls made to the tuner. *)
Definition tuning_view (w : World Env) : HP * list Event :=
  (hyperparameters (self w), tuner_calls w).

(** What the epoch loop has cached. *)
Definition cache_view (w : World Env) : option Probs :=
  current_round_best_preds (self w).

(** A call of [trial] for a round that asks the tuner. *)
Definition is_tuned_round (c : Call) : bool :=
  match c with
  | call_trial _ round_num => 2 <=? round_num
  | _ => false
  end.

(** A call that runs the epoch loop. *)
Definition is_training_call (c : Call) : bool :=
  match c with
  | call_train_valid _ _ | call_trial _ _ => true
  | _ => false
  end.

(** A meter that has only seen scores of at most 1. *)
Definition meter_capped (m : AverageMeter) : Prop :=
  (meter_sum m <= inject_Z (meter_count m))%Q /\
  0 <= meter_count m /\
  (avg m <= 1)%Q.

(** The world after [self.train()]. *)
Definition train_world (w : World Env) : World Env :=
  mkWorld (set_training true (self w)) (env w) (events w) (next_id w).

(** What one iteration of the epoch loop adds to the log: the gradient
    reset (line 169), the training step on [preds] (the loss, the backward
    pass and the optimizer step of lines 171-173, recorded as one entry)
    and the softmax of [logits] (line 178).  The forward passes themselves
    are not logged: they are the expressions [preds] and [logits]. *)
Definition epoch_events (o : Optimizer) (data : Data) (preds logits : Expr)
    : list Event :=
  [ev_torch (op_zero_grad o); ev_torch (op_train_step preds data o);
   ev_softmax logits].

(** A call that builds a model: [init_model], or [trial], which calls it. *)
Definition builds_model (c : Call) : bool :=
  match c with
  | call_init_model _ _ | call_trial _ _ => true
  | _ => false
  end.

(** An object constructed from [i] that has not been given a model: no
    layer is registered, there is no optimizer, the configuration and the
    epoch budget are the constructor's, and the tensor engine has not been
    called. *)
Definition unbuilt (i : Info) (w : World Env) : Prop :=
  _modules (self w) = [] /\
  optimizer (self w) = None /\
  hyperparameters (self w) = initial_hyperparameters i /\
  max_epochs (self w) = 1600 /\
  torch_calls w = [].

End Architecture.

(** * Properties *)

(** ** Reasoning rules for the monad *)

Section Rules.
Context {Env : Type}.

Lemma bind_Ok (A C : Type) (m : M Env A) (k : A -> M Env C) w c w' :
  bind m k w = (Ok c, w') ->
  exists a w1, m w = (Ok a, w1) /\ k a w1 = (Ok c, w').
Proof.
  unfold bind. destruct (m w) as [[a | e] w1]; intros H.
  - exists a, w1. split; [reflexivity | exact H].
  - discriminate H.
Qed.

Lemma bind_Raise (A C : Type) (m : M Env A) (k : A -> M Env C) w e w' :
  bind m k w = (Raise e, w') ->
  m w = (Raise e, w') \/
  exists a w1, m w = (Ok a, w1) /\ k a w1 = (Raise e, w').
Proof.
  unfold bind. destruct (m w) as [[a | e0] w1]; intros H.
  - right. exists a, w1. split; [reflexivity | exact H].
  - left. inversion H; subst. reflexivity.
Qed.

Lemma bind_of_Ok (A C : Type) (m : M Env A) (k : A -> M Env C) w a w1 :
  m w = (Ok a, w1) -> bind m k w = k a w1.
Proof. intros H. unfold bind. rewrite H. reflexivity. Qed.

Lemma bind_of_Raise (A C : Type) (m : M Env A) (k : A -> M Env C) w e w1 :
  m w = (Raise e, w1) -> bind m k w = (Raise e, w1).
Proof. intros H. unfold bind. rewrite H. reflexivity. Qed.

(** A relation between the world before and after, kept by every step. *)
Section Keeps.
Variable R : World Env -> World Env -> Prop.
Hypothesis R_refl : forall w, R w w.
Hypothesis R_trans : forall w1 w2 w3, R w1 w2 -> R w2 w3 -> R w1 w3.

Lemma keeps_ret (A : Type) (a : A) : keeps R (ret a).
Proof. intros w. apply R_refl. Qed.

Lemma keeps_raise (A : Type) (e : PyExc) : keeps R (@raise Env A e).
Proof. intros w. apply R_refl. Qed.

Lemma keeps_lift (A : Type) (r : result A) : keeps R (@lift Env A r).
Proof. intros w. apply R_refl. Qed.

Lemma keeps_get_self : keeps R (@get_self Env).
Proof. intros w. apply R_refl. Qed.

Lemma keeps_bind (A C : Type) (m : M Env A) (k : A -> M Env C) :
  keeps R m -> (forall a, keeps R (k a)) -> keeps R (bind m k).
Proof.
  intros Hm Hk w. unfold bind.
  specialize (Hm w). destruct (m w) as [[a | e] w1]; simpl in *.
  - eapply R_trans; [exact Hm | apply Hk].
  - exact Hm.
Qed.

Lemma keeps_when (b : bool) (m : M Env unit) : keeps R m -> keeps R (when b m).
Proof. intros Hm. destruct b; [exact Hm | apply keeps_ret]. Qed.

Lemma keeps_try (A : Type) (body : M Env A) (handler : PyExc -> M Env A) :
  keeps R body -> (forall e, keeps R (handler e)) ->
  keeps R (try_except_RuntimeError body handler).
Proof.
  intros Hb Hh w. unfold try_except_RuntimeError.
  specialize (Hb w). destruct (body w) as [[a | e] w1]; simpl in *.
  - exact Hb.
  - destruct (is_RuntimeError e); simpl.
    + eapply R_trans; [exact Hb | apply Hh].
    + exact Hb.
Qed.
End Keeps.
End Rules.

Ltac keeps_step :=
  first
    [ solve [auto]
    | match goal with
      | |- forall _, _ => intros ?
      | |- keeps _ (ret _) => apply keeps_ret
      | |- keeps _ (raise _) => apply keeps_raise
      | |- keeps _ (lift _) => apply keeps_lift
      | |- keeps _ get_self => apply keeps_get_self
      | |- keeps _ (when _ _) => apply keeps_when
      | |- keeps _ (bind _ _) => apply keeps_bind
      | |- keeps _ (try_except_RuntimeError _ _) => apply keeps_try
      | |- keeps _ (if ?b then _ else _) => destruct b
      | |- keeps _ (match ?x with _ => _ end) => destruct x
      | |- keeps _ _ => progress cbv zeta
      end ].

Ltac keeps_structure := repeat keeps_step.

(** ** Which steps each method is made of *)

Section MethodRules.
Context {Env : Type} {B : Backend Env}.
Variable R : World Env -> World Env -> Prop.
Hypothesis R_refl : forall w, R w w.
Hypothesis R_trans : forall w1 w2 w3, R w1 w2 -> R w2 w3 -> R w1 w3.
Hypothesis R_emit : forall ev, keeps R (emit ev).
Hypothesis R_torch : forall op (f : Env -> result unit * Env),
  keeps R (external (ev_torch op) f).
Hypothesis R_softmax : forall logits (f : Env -> result Probs * Env),
  keeps R (external (ev_softmax logits) f).
Hypothesis R_generate : forall index (f : Env -> result HP * Env),
  keeps R (external (ev_generate_parameters index) f).
Hypothesis R_receive : forall index h score (f : Env -> result unit * Env),
  keeps R (external (ev_receive_trial_result index h score) f).
Hypothesis R_fresh : keeps R fresh_id.
Hypothesis R_modules : forall f : ARMA -> Modules,
  keeps R (update_self (fun a => set_modules (f a) a)).
Hypothesis R_optimizer : forall o, keeps R (update_self (set_optimizer o)).
Hypothesis R_training : forall b, keeps R (update_self (set_training b)).
Hypothesis R_cache : forall p,
  keeps R (update_self (set_current_round_best_preds p)).
Hypothesis R_hyperparameters : forall h,
  keeps R (update_self (set_hyperparameters h)).
Hypothesis R_best_hp : forall h, keeps R (update_self (set_best_hp h)).

Lemma keeps_setattr_module attr v : keeps R (setattr_module attr v).
Proof. unfold setattr_module. apply R_modules. Qed.

Lemma keeps_getattr_module attr : keeps R (getattr_module attr).
Proof. unfold getattr_module. keeps_structure. Qed.

Lemma keeps_getattr_layer attr : keeps R (getattr_layer attr).
Proof.
  unfold getattr_layer. pose proof keeps_getattr_module. keeps_structure.
Qed.

Lemma keeps_getattr_list attr : keeps R (getattr_list attr).
Proof.
  unfold getattr_list. pose proof keeps_getattr_module. keeps_structure.
Qed.

Lemma keeps_getattr_optimizer : keeps R getattr_optimizer.
Proof. unfold getattr_optimizer. keeps_structure. Qed.

Lemma keeps_construct mk : keeps R (construct mk).
Proof. unfold construct. keeps_structure. Qed.

Lemma keeps_convs_append l : keeps R (convs_append l).
Proof.
  unfold convs_append.
  pose proof keeps_getattr_list. pose proof keeps_setattr_module.
  keeps_structure.
Qed.

Lemma keeps_for_range n (body : M Env unit) :
  keeps R body -> keeps R (for_range n body).
Proof.
  intros Hb. induction n as [| n IH]; simpl.
  - apply keeps_ret; auto.
  - apply keeps_bind; auto.
Qed.

Lemma keeps_init_model n_class feature_num :
  keeps R (init_model n_class feature_num).
Proof.
  unfold init_model.
  pose proof keeps_construct. pose proof keeps_setattr_module.
  pose proof keeps_convs_append.
  keeps_structure;
    try (apply keeps_for_range; keeps_structure).
Qed.

Lemma keeps_forward data : keeps R (forward data).
Proof.
  unfold forward.
  pose proof keeps_getattr_layer. pose proof keeps_getattr_list.
  keeps_structure.
Qed.

Lemma keeps_epoch_train data : keeps R (epoch_train data).
Proof.
  unfold epoch_train.
  pose proof keeps_getattr_optimizer. pose proof keeps_forward.
  keeps_structure.
Qed.

Lemma keeps_epoch_valid data : keeps R (epoch_valid data).
Proof.
  unfold epoch_valid. pose proof keeps_forward. keeps_structure.
Qed.

Lemma keeps_epoch_body data f : keeps R (epoch_body data f).
Proof.
  unfold epoch_body.
  pose proof keeps_epoch_train. pose proof keeps_epoch_valid.
  keeps_structure.
Qed.

Lemma keeps_epoch_loop n data f : keeps R (epoch_loop n data f).
Proof.
  revert f. induction n as [| n IH]; intros f; simpl.
  - apply keeps_ret; auto.
  - apply keeps_bind; auto.
    + apply keeps_epoch_body.
    + intros f'. destruct (patience f' =? 0); [apply keeps_ret; auto | apply IH].
Qed.

Lemma keeps_train_valid data round_num : keeps R (train_valid data round_num).
Proof.
  unfold train_valid. pose proof keeps_epoch_loop. keeps_structure.
Qed.

Lemma keeps_trial_try data round_num n_class feature_num :
  keeps R (trial_try data round_num n_class feature_num).
Proof.
  unfold trial_try.
  pose proof keeps_init_model. pose proof keeps_train_valid.
  keeps_structure.
Qed.

Lemma keeps_trial_except round_num e : keeps R (trial_except round_num e).
Proof. unfold trial_except. keeps_structure. Qed.

Lemma keeps_trial_configure round_num : keeps R (trial_configure round_num).
Proof. unfold trial_configure. keeps_structure. Qed.

Lemma keeps_trial_round data round_num n_class feature_num :
  keeps R (trial_round data round_num n_class feature_num).
Proof.
  unfold trial_round.
  pose proof keeps_trial_try. pose proof keeps_trial_except.
  keeps_structure.
Qed.

Lemma keeps_trial data round_num : keeps R (trial data round_num).
Proof.
  unfold trial.
  pose proof keeps_trial_configure. pose proof keeps_trial_round.
  keeps_structure.
Qed.

Lemma keeps_predict : keeps R predict.
Proof. unfold predict. keeps_structure. Qed.

End MethodRules.

(** ** Attributes that a method leaves alone *)

Section Fields.
Context {Env : Type} {B : Backend Env}.

Lemma same_refl (X : Type) (obs : World Env -> X) w : same obs w w.
Proof. reflexivity. Qed.

Lemma same_trans (X : Type) (obs : World Env -> X) w1 w2 w3 :
  same obs w1 w2 -> same obs w2 w3 -> same obs w1 w3.
Proof. unfold same. congruence. Qed.
End Fields.

Ltac same_side :=
  solve
    [ apply same_refl
    | apply same_trans
    | intros; intros ?w; unfold same, external, emit, update_self, fresh_id,
        tuner_calls, torch_calls;
      simpl;
      try match goal with
          | |- context [let (_, _) := ?f ?e in _] => destruct (f e)
          end;
      simpl; rewrite ?filter_app; simpl; rewrite ?app_nil_r; reflexivity ].

Section FieldFacts.
Context {Env : Type} {B : Backend Env}.

Lemma best_score_kept_by_init_model n_class feature_num :
  keeps (same (fun w : World Env => best_score (self w)))
        (init_model n_class feature_num).
Proof. apply keeps_init_model; same_side. Qed.

Lemma best_score_kept_by_forward data :
  keeps (same (fun w : World Env => best_score (self w))) (forward data).
Proof. apply keeps_forward; same_side. Qed.

Lemma best_score_kept_by_train_valid data round_num :
  keeps (same (fun w : World Env => best_score (self w)))
        (train_valid data round_num).
Proof. apply keeps_train_valid; same_side. Qed.

Lemma best_score_kept_by_trial data round_num :
  keeps (same (fun w : World Env => best_score (self w))) (trial data round_num).
Proof. apply keeps_trial; same_side. Qed.

Lemma best_score_kept_by_predict :
  keeps (same (fun w : World Env => best_score (self w))) predict.
Proof. apply keeps_predict; same_side. Qed.

Lemma best_score_kept_by_call (c : Call) (w : World Env) :
  best_score (self (run_call c w)) = best_score (self w).
Proof.
  destruct c; simpl.
  - apply best_score_kept_by_init_model.
  - apply best_score_kept_by_forward.
  - apply best_score_kept_by_train_valid.
  - apply best_score_kept_by_trial.
  - apply best_score_kept_by_predict.
Qed.

Lemma best_score_kept_by_calls (cs : list Call) (w : World Env) :
  best_score (self (run_calls cs w)) = best_score (self w).
Proof.
  revert w. induction cs as [| c cs IH]; intros w; simpl.
  - reflexivity.
  - change (best_score (self (run_calls cs (run_call c w))) = best_score (self w)).
    rewrite IH. apply best_score_kept_by_call.
Qed.

Lemma best_score_after_init (i : Info) (e : Env) :
  best_score (self (snd (__init__ i e))) = 0%Q.
Proof.
  unfold __init__, external; simpl.
  destruct (tuner_update_search_space (search_space i) e); reflexivity.
Qed.

Lemma round_config_kept_by_init_model n_class feature_num :
  keeps (same round_config) (init_model n_class feature_num).
Proof. apply keeps_init_model; same_side. Qed.

Lemma round_config_kept_by_train_valid data round_num :
  keeps (same round_config) (train_valid data round_num).
Proof. apply keeps_train_valid; same_side. Qed.

Lemma tuner_calls_kept_by_init_model n_class feature_num :
  keeps (same tuner_calls) (init_model n_class feature_num).
Proof. apply keeps_init_model; same_side. Qed.

Lemma tuner_calls_kept_by_train_valid data round_num :
  keeps (same tuner_calls) (train_valid data round_num).
Proof. apply keeps_train_valid; same_side. Qed.

Lemma deepcopy_eq (h : HP) : deepcopy h = h.
Proof. destruct h; reflexivity. Qed.

End FieldFacts.

(** ** The round boundary *)

Section RoundFacts.
Context {Env : Type} {B : Backend Env}.

Lemma trial_unfold data round_num (w : World Env) :
  trial data round_num w =
  bind (trial_configure round_num)
       (fun _ => trial_round data round_num (info_n_class (info (self w)))
                             (x_shape1 data)) w.
Proof. reflexivity. Qed.

Lemma trial_configure_first (w : World Env) :
  trial_configure 1 w = (Ok tt, logged [ev_print_hp (hyperparameters (self w))] w).
Proof. reflexivity. Qed.

Lemma trial_configure_later round_num (w : World Env) h env' :
  1 < round_num ->
  tuner_generate_parameters (round_num - 1) (env w) = (Ok h, env') ->
  trial_configure round_num w =
  (Ok tt, mkWorld (set_hyperparameters h (self w)) env'
            (events w ++ [ev_generate_parameters (round_num - 1); ev_print_hp h])
            (next_id w)).
Proof.
  intros Hr Hgen. unfold trial_configure.
  replace (2 <=? round_num) with true by (symmetry; apply Z.leb_le; lia).
  unfold when, bind, external, update_self, get_self, emit; simpl.
  rewrite Hgen; simpl. rewrite <- app_assoc. reflexivity.
Qed.

Lemma trial_configure_raises round_num (w : World Env) e env' :
  1 < round_num ->
  tuner_generate_parameters (round_num - 1) (env w) = (Raise e, env') ->
  trial_configure round_num w =
  (Raise e, mkWorld (self w) env'
              (events w ++ [ev_generate_parameters (round_num - 1)]) (next_id w)).
Proof.
  intros Hr Hgen. unfold trial_configure.
  replace (2 <=? round_num) with true by (symmetry; apply Z.leb_le; lia).
  unfold when, bind, external; simpl. rewrite Hgen. reflexivity.
Qed.

Lemma trial_configure_self round_num (w w1 : World Env) :
  trial_configure round_num w = (Ok tt, w1) ->
  best_score (self w1) = best_score (self w) /\
  best_hp (self w1) = best_hp (self w) /\
  info (self w1) = info (self w) /\
  (round_num <= 1 -> self w1 = self w /\ tuner_calls w1 = tuner_calls w).
Proof.
  unfold trial_configure. destruct (2 <=? round_num) eqn:Hr.
  - unfold when, bind, external, update_self, get_self, emit; simpl.
    destruct (tuner_generate_parameters (round_num - 1) (env w)) as [[h | e] env'];
      simpl; intros H; inversion H; subst; simpl.
    do 3 (split; [reflexivity |]). intros Hle. apply Z.leb_le in Hr. lia.
  - intros H. inversion H; subst; simpl. do 3 (split; [reflexivity |]).
    intros _. split; [reflexivity |].
    unfold tuner_calls; simpl. rewrite filter_app; simpl. apply app_nil_r.
Qed.

Lemma trial_try_of_failure data round_num n_class feature_num (w : World Env) e we :
  round_fails data round_num n_class feature_num w e we ->
  trial_try data round_num n_class feature_num w = (Raise e, we).
Proof.
  intros [Hinit | [wm [Hinit Htrain]]]; unfold trial_try.
  - erewrite bind_of_Raise by exact Hinit. reflexivity.
  - erewrite bind_of_Ok by exact Hinit.
    erewrite bind_of_Raise by exact Htrain. reflexivity.
Qed.

Lemma round_fails_keeps data round_num n_class feature_num (w : World Env) e we :
  round_fails data round_num n_class feature_num w e we ->
  best_score (self we) = best_score (self w) /\
  hyperparameters (self we) = hyperparameters (self w) /\
  best_hp (self we) = best_hp (self w) /\
  tuner_calls we = tuner_calls w.
Proof.
  intros [Hinit | [wm [Hinit Htrain]]].
  - pose proof (best_score_kept_by_init_model n_class feature_num w) as H1.
    pose proof (round_config_kept_by_init_model n_class feature_num w) as H2.
    pose proof (tuner_calls_kept_by_init_model n_class feature_num w) as H3.
    rewrite Hinit in H1, H2, H3. unfold same, round_config in *; simpl in *.
    inversion H2. auto.
  - pose proof (best_score_kept_by_init_model n_class feature_num w) as H1.
    pose proof (round_config_kept_by_init_model n_class feature_num w) as H2.
    pose proof (tuner_calls_kept_by_init_model n_class feature_num w) as H3.
    pose proof (best_score_kept_by_train_valid data round_num wm) as H4.
    pose proof (round_config_kept_by_train_valid data round_num wm) as H5.
    pose proof (tuner_calls_kept_by_train_valid data round_num wm) as H6.
    rewrite Hinit in H1, H2, H3. rewrite Htrain in H4, H5, H6.
    unfold same, round_config in *; simpl in *.
    inversion H2. inversion H5. repeat split; congruence.
Qed.

(** An exception that is not a [RuntimeError] leaves [trial_round] as it
    came. *)
Lemma trial_round_propagates data round_num n_class feature_num (w : World Env) e we :
  round_fails data round_num n_class feature_num w e we ->
  is_RuntimeError e = false ->
  trial_round data round_num n_class feature_num w = (Raise e, we).
Proof.
  intros Hf He. unfold trial_round, bind, try_except_RuntimeError.
  rewrite (trial_try_of_failure Hf). rewrite He. reflexivity.
Qed.

(** A [RuntimeError] runs the handler, and nothing else. *)
Lemma trial_round_caught data round_num n_class feature_num (w : World Env) e we :
  round_fails data round_num n_class feature_num w e we ->
  is_RuntimeError e = true ->
  trial_round data round_num n_class feature_num w =
  bind (trial_except round_num e)
       (fun out => match out with
                   | exit_return v => ret v
                   | exit_break val_score =>
                       a <- get_self ;;
                       emit (ev_print_best (name a) (best_hp a)) ;;
                       ret val_score
                   end) we.
Proof.
  intros Hf He. unfold trial_round, bind at 1, try_except_RuntimeError.
  rewrite (trial_try_of_failure Hf). rewrite He. reflexivity.
Qed.

Lemma trial_round_caught_first data round_num n_class feature_num (w : World Env) e we :
  round_fails data round_num n_class feature_num w e we ->
  is_RuntimeError e = true ->
  round_num <= 1 ->
  trial_round data round_num n_class feature_num w =
  (Ok 0%Q, logged [ev_print_oom (name (self we)) e
                     (hp_hidden (hyperparameters (self we)))] we).
Proof.
  intros Hf He Hr. rewrite (trial_round_caught Hf He).
  unfold trial_except.
  replace (1 <? round_num) with false by (symmetry; apply Z.ltb_ge; lia).
  reflexivity.
Qed.

Lemma trial_round_caught_later data round_num n_class feature_num (w : World Env) e we :
  round_fails data round_num n_class feature_num w e we ->
  is_RuntimeError e = true ->
  1 < round_num ->
  let h := hyperparameters (self we) in
  let answer := tuner_receive_trial_result (round_num - 1) h 0 (env we) in
  let w' := mkWorld (self we) (snd answer)
              (events we ++ [ev_print_oom (name (self we)) e (hp_hidden h);
                             ev_receive_trial_result (round_num - 1) h 0])
              (next_id we) in
  trial_round data round_num n_class feature_num w =
  (match fst answer with Ok _ => Ok 0%Q | Raise x => Raise x end, w').
Proof.
  intros Hf He Hr. rewrite (trial_round_caught Hf He).
  unfold trial_except.
  replace (1 <? round_num) with true by (symmetry; apply Z.ltb_lt; lia).
  unfold when, bind, external, get_self, emit, ret; simpl.
  destruct (tuner_receive_trial_result (round_num - 1) (hyperparameters (self we)) 0 (env we))
    as [[[] | x] env']; simpl; rewrite <- app_assoc; reflexivity.
Qed.

(** The [try] block raises in one of three places: construction,
    training, or the report of the score. *)
Lemma trial_try_raises data round_num n_class feature_num (w : World Env) e we :
  trial_try data round_num n_class feature_num w = (Raise e, we) <->
  round_fails data round_num n_class feature_num w e we \/
  report_fails data round_num n_class feature_num w e we.
Proof.
  unfold round_fails, report_fails, trial_try. unfold bind at 1.
  destruct (init_model n_class feature_num w) as [[[] | e1] wm] eqn:Hi.
  2: { split.
       - intros H. inversion H; subst. left. left. reflexivity.
       - intros [[H | [wm' [H _]]] | [wm' [wt [v [env' [H _]]]]]];
           [inversion H; subst; reflexivity | discriminate H | discriminate H]. }
  unfold bind at 1.
  destruct (train_valid data round_num wm) as [[v | e2] wt] eqn:Ht.
  2: { split.
       - intros H. inversion H; subst. left. right. exists wm.
         split; [reflexivity | exact Ht].
       - intros [[H | [wm' [H1 H2]]] | [wm' [wt' [v [env' [H1 [H2 _]]]]]]].
         + discriminate H.
         + inversion H1; subst wm'. rewrite Ht in H2.
           inversion H2; subst. reflexivity.
         + inversion H1; subst wm'. rewrite Ht in H2. discriminate H2. }
  unfold bind, get_self, when, external, update_self, ret.
  destruct (1 <? round_num) eqn:Hr.
  - apply Z.ltb_lt in Hr.
    destruct (tuner_receive_trial_result (round_num - 1) (hyperparameters (self wt))
                v (env wt)) as [[[] | e3] env3] eqn:Hrep; cbn [self].
    + split.
      * destruct (Qlt_bool (best_score (self wt)) v); intros H; discriminate H.
      * intros [[H | [wm' [H1 H2]]] | [wm' [wt' [v' [env' [H1 [H2 [_ [H3 _]]]]]]]]].
        -- discriminate H.
        -- inversion H1; subst wm'. rewrite Ht in H2. discriminate H2.
        -- inversion H1; subst wm'. rewrite Ht in H2. inversion H2; subst wt' v'.
           rewrite Hrep in H3. discriminate H3.
    + split.
      * intros H. inversion H; subst e3 we; clear H. right.
        exists wm, wt, v, env3. repeat split; try reflexivity; assumption.
      * intros [[H | [wm' [H1 H2]]] | [wm' [wt' [v' [env' [H1 [H2 [_ [H3 H4]]]]]]]]].
        -- discriminate H.
        -- inversion H1; subst wm'. rewrite Ht in H2. discriminate H2.
        -- inversion H1; subst wm'. rewrite Ht in H2. inversion H2; subst wt' v'.
           rewrite Hrep in H3. inversion H3; subst e3 env'. subst we. reflexivity.
  - apply Z.ltb_ge in Hr. split.
    + destruct (Qlt_bool (best_score (self wt)) v); intros H; discriminate H.
    + intros [[H | [wm' [H1 H2]]] | [wm' [wt' [v' [env' [_ [_ [Hlt _]]]]]]]].
      * discriminate H.
      * inversion H1; subst wm'. rewrite Ht in H2. discriminate H2.
      * lia.
Qed.

(** What [trial_round] makes of an exception of the [try] block: any other
    class than [RuntimeError] passes through; a [RuntimeError] is answered
    by the message and, for [round_num > 1], the report of score 0, whose
    own failure is not caught. *)
Lemma trial_round_handles data round_num n_class feature_num (w : World Env) e we :
  trial_try data round_num n_class feature_num w = (Raise e, we) ->
  let h := hyperparameters (self we) in
  let msg := ev_print_oom (name (self we)) e (hp_hidden h) in
  let answer := tuner_receive_trial_result (round_num - 1) h 0 (env we) in
  trial_round data round_num n_class feature_num w =
  if is_RuntimeError e then
    if 1 <? round_num then
      (match fst answer with Ok _ => Ok 0%Q | Raise x => Raise x end,
       mkWorld (self we) (snd answer)
         (events we ++ [msg; ev_receive_trial_result (round_num - 1) h 0])
         (next_id we))
    else (Ok 0%Q, logged [msg] we)
  else (Raise e, we).
Proof.
  intros Htry. cbv zeta.
  unfold trial_round, bind at 1, try_except_RuntimeError. rewrite Htry.
  destruct (is_RuntimeError e); [| reflexivity].
  unfold trial_except.
  destruct (1 <? round_num); [| reflexivity].
  unfold when, bind, external, get_self, emit, ret; simpl.
  destruct (tuner_receive_trial_result (round_num - 1) (hyperparameters (self we)) 0 (env we))
    as [[[] | x] env']; simpl; rewrite <- app_assoc; reflexivity.
Qed.

End RoundFacts.

Section RoundOutcome.
Context {Env : Type} {B : Backend Env}.

(** What the [try] block leaves behind, on either way out. *)
Lemma trial_try_outcome data round_num n_class feature_num (w : World Env) :
  let res := trial_try data round_num n_class feature_num w in
  best_score (self (snd res)) = best_score (self w) /\
  hyperparameters (self (snd res)) = hyperparameters (self w) /\
  match fst res with
  | Ok out =>
      exists v wm wt,
        out = exit_break v /\
        init_model n_class feature_num w = (Ok tt, wm) /\
        train_valid data round_num wm = (Ok v, wt) /\
        current_round_best_preds (self (snd res)) =
          current_round_best_preds (self wt) /\
        best_hp (self (snd res)) =
          (if Qlt_bool (best_score (self w)) v
           then Some (hyperparameters (self w)) else best_hp (self w))
  | Raise e => best_hp (self (snd res)) = best_hp (self w)
  end.
Proof.
  unfold trial_try, bind.
  pose proof (best_score_kept_by_init_model n_class feature_num w) as S1.
  pose proof (round_config_kept_by_init_model n_class feature_num w) as C1.
  destruct (init_model n_class feature_num w) as [[[] | e] wm] eqn:Hi;
    unfold same, round_config in S1, C1; simpl in S1, C1;
    injection C1 as Hh Hb; simpl; [| auto].
  pose proof (best_score_kept_by_train_valid data round_num wm) as S2.
  pose proof (round_config_kept_by_train_valid data round_num wm) as C2.
  destruct (train_valid data round_num wm) as [[v | e] wt] eqn:Ht;
    unfold same, round_config in S2, C2; simpl in S2, C2;
    injection C2 as Hh2 Hb2; simpl; [| repeat split; congruence].
  assert (G : Qlt_bool (best_score (self wt)) v = Qlt_bool (best_score (self w)) v)
    by (rewrite S2, S1; reflexivity).
  unfold get_self, when, external, update_self, ret.
  destruct (1 <? round_num); simpl.
  - destruct (tuner_receive_trial_result (round_num - 1) (hyperparameters (self wt)) v (env wt))
      as [[[] | e] env']; simpl; [| repeat split; congruence].
    destruct (Qlt_bool (best_score (self wt)) v) eqn:G'; simpl;
      (split; [congruence |]); (split; [congruence |]);
      exists v, wm, wt; rewrite <- G, ?deepcopy_eq;
      repeat split; try assumption; congruence.
  - destruct (Qlt_bool (best_score (self wt)) v) eqn:G'; simpl;
      (split; [congruence |]); (split; [congruence |]);
      exists v, wm, wt; rewrite <- G, ?deepcopy_eq;
      repeat split; try assumption; congruence.
Qed.

(** What a completed call of [trial] did to the best-known configuration,
    when [best_score] holds its initial value. *)
Lemma trial_best_hp data round_num (w : World Env) v w' :
  best_score (self w) = 0%Q ->
  trial data round_num w = (Ok v, w') ->
  best_hp (self w') =
    (if Qlt_bool 0 v then Some (hyperparameters (self w')) else best_hp (self w)).
Proof.
  intros H0 Ht. rewrite trial_unfold in Ht.
  apply bind_Ok in Ht. destruct Ht as [[] [w1 [Hc Hr]]].
  destruct (trial_configure_self _ _ Hc) as [Hs [Hb _]].
  unfold trial_round in Hr. apply bind_Ok in Hr.
  destruct Hr as [out [w2 [Htry Hfin]]].
  unfold try_except_RuntimeError in Htry.
  pose proof (trial_try_outcome data round_num (info_n_class (info (self w)))
                (x_shape1 data) w1) as Hout.
  destruct (trial_try data round_num (info_n_class (info (self w))) (x_shape1 data) w1)
    as [[out' | e] wx]; simpl in Hout.
  - inversion Htry; subst out' wx; clear Htry.
    destruct Hout as [_ [Hh [v0 [wm [wt [Hout [_ [_ [_ Hbest]]]]]]]]].
    subst out. unfold bind, get_self, emit, ret in Hfin; simpl in Hfin.
    inversion Hfin; subst; simpl.
    rewrite Hbest, Hs, H0, Hh, Hb. reflexivity.
  - destruct Hout as [_ [_ Hbest]].
    destruct (is_RuntimeError e); [| discriminate Htry].
    unfold trial_except, bind, get_self, emit, when, external, ret in Htry.
    simpl in Htry.
    destruct (1 <? round_num); simpl in Htry.
    + destruct (tuner_receive_trial_result (round_num - 1)
                  (hyperparameters (self wx)) 0 (env wx)) as [[[] | x] env'];
        simpl in Htry; inversion Htry; subst; clear Htry.
      unfold ret in Hfin. inversion Hfin; subst; simpl.
      rewrite Hbest, Hb. reflexivity.
    + inversion Htry; subst; clear Htry.
      unfold ret in Hfin. inversion Hfin; subst; simpl.
      rewrite Hbest, Hb. reflexivity.
Qed.

End RoundOutcome.

(** ** Claims about the round boundary *)

Lemma Qlt_bool_iff (a b : Q) : Qlt_bool a b = true <-> (a < b)%Q.
Proof. unfold Qlt_bool, Qlt. apply Z.ltb_lt. Qed.

Lemma hyperparameters_kept_by_trial_round (Env : Type) (B : Backend Env)
    data round_num n_class feature_num :
  keeps (same (fun w : World Env => hyperparameters (self w)))
        (trial_round data round_num n_class feature_num).
Proof. apply keeps_trial_round; same_side. Qed.

Lemma torch_calls_logged (Env : Type) (evs : list Event) (w : World Env) :
  forallb (fun ev => negb (is_torch_event ev)) evs = true ->
  torch_calls (logged evs w) = torch_calls w.
Proof.
  intros H. unfold torch_calls, logged; simpl. rewrite filter_app.
  replace (filter is_torch_event evs) with (@nil Event); [apply app_nil_r |].
  induction evs as [| ev evs IH]; simpl in *; [reflexivity |].
  apply andb_true_iff in H. destruct H as [H1 H2].
  destruct (is_torch_event ev); [discriminate H1 | apply IH, H2].
Qed.

(** C3: when model construction or training of round [round_num] raises an
    out-of-memory error, [trial] runs the handler once and returns 0: after
    the failure the log gains only the message and, for [round_num > 1], the
    report of score 0 for index [round_num - 1] (no constructor or training
    call follows, and the configuration is the one the round started with);
    for [round_num = 1] the tuner is not called at all; [best_score] and
    [best_hp] are as they were before the call. *)
Theorem trial_out_of_memory :
  forall (Env : Type) (B : Backend Env) data round_num (w w1 we : World Env),
    trial_configure round_num w = (Ok tt, w1) ->
    round_fails data round_num (info_n_class (info (self w))) (x_shape1 data)
                w1 CudaOOM we ->
    let h := hyperparameters (self w1) in
    let shout := ev_print_oom (name (self we)) CudaOOM (hp_hidden h) in
    let report := ev_receive_trial_result (round_num - 1) h 0 in
    let res := trial data round_num w in
    (round_num = 1 ->
       res = (Ok 0%Q, logged [shout] we) /\
       tuner_calls (snd res) = tuner_calls w) /\
    (1 < round_num ->
       events (snd res) = events we ++ [shout; report] /\
       forall env',
         tuner_receive_trial_result (round_num - 1) h 0 (env we) = (Ok tt, env') ->
         res = (Ok 0%Q, mkWorld (self we) env' (events we ++ [shout; report])
                          (next_id we))) /\
    torch_calls (snd res) = torch_calls we /\
    hyperparameters (self (snd res)) = h /\
    best_score (self (snd res)) = best_score (self w) /\
    best_hp (self (snd res)) = best_hp (self w).
Proof.
  intros Env B data round_num w w1 we Hc Hf h shout report res.
  destruct (round_fails_keeps Hf) as [Ks [Kh [Kb Kt]]].
  destruct (trial_configure_self _ _ Hc) as [Cs [Cb [_ Cfirst]]].
  assert (Hres : res = trial_round data round_num (info_n_class (info (self w)))
                         (x_shape1 data) w1).
  { unfold res. rewrite trial_unfold. erewrite bind_of_Ok by exact Hc. reflexivity. }
  clearbody res. subst h shout report. rewrite <- Kh.
  destruct (Z_le_gt_dec round_num 1) as [Hle | Hgt].
  - rewrite (trial_round_caught_first Hf eq_refl Hle) in Hres.
    rewrite Hres; simpl.
    split; [| split; [intros Hgt; lia |]].
    + intros _. split; [reflexivity |].
      destruct (Cfirst Hle) as [_ Ct].
      unfold tuner_calls, logged; simpl. rewrite filter_app; simpl.
      rewrite app_nil_r. fold (tuner_calls we). fold (tuner_calls w). congruence.
    + repeat split; try congruence.
      apply (@torch_calls_logged Env _ we). reflexivity.
  - assert (Hlt : 1 < round_num) by lia.
    pose proof (trial_round_caught_later Hf eq_refl Hlt) as Hl.
    cbv zeta in Hl. rewrite <- Hres in Hl.
    split; [intros Heq; lia |]. split.
    + intros _. split.
      * rewrite Hl. reflexivity.
      * intros env' Hans. rewrite Hl, Hans. reflexivity.
    + rewrite Hl; simpl. repeat split; try congruence.
      unfold torch_calls; simpl. rewrite filter_app; simpl. apply app_nil_r.
Qed.

Lemma trial_out_of_memory_witness :
  let sc := Scenario.failing 3 CudaOOM in
  let w := Scenario.created sc in
  let w1 := snd (@trial_configure _ (Scripted.backend sc) 2 w) in
  let we := snd (@trial_try _ (Scripted.backend sc) Scenario.graph 2 2 3 w1) in
  @trial_configure _ (Scripted.backend sc) 2 w = (Ok tt, w1) /\
  @round_fails _ (Scripted.backend sc) Scenario.graph 2 2 3 w1 CudaOOM we /\
  fst (@trial _ (Scripted.backend sc) Scenario.graph 2 w) = Ok 0%Q /\
  best_hp (self (snd (@trial _ (Scripted.backend sc) Scenario.graph 2 w))) = None.
Proof.
  intros sc w w1 we.
  assert (Hc : @trial_configure _ (Scripted.backend sc) 2 w = (Ok tt, w1))
    by (vm_compute; reflexivity).
  assert (Hf : @round_fails _ (Scripted.backend sc) Scenario.graph 2 2 3 w1 CudaOOM we).
  { right. exists (snd (@init_model _ (Scripted.backend sc) 2 3 w1)).
    split; vm_compute; reflexivity. }
  split; [exact Hc |]. split; [exact Hf |].
  destruct (@trial_out_of_memory _ (Scripted.backend sc) Scenario.graph 2 w w1 we Hc Hf)
    as [_ [Hlater [_ [_ [_ Hb]]]]].
  split.
  - destruct (Hlater ltac:(lia)) as [_ Hret].
    rewrite (Hret (env we) eq_refl). reflexivity.
  - rewrite Hb. reflexivity.
Defined.

(** C4, as the code has it: the handler of [trial] catches by class.  An
    exception leaves the [try] block when model construction, training or
    the report of the round's score to the tuner raises it.  It propagates
    out of [trial], leaving the world as the failure left it, exactly when
    it is not a [RuntimeError].  Every [RuntimeError] raised there,
    out-of-memory or not, is answered by the handler: the message is
    logged, for [round_num > 1] the score 0 is reported to the tuner for
    index [round_num - 1] and the round's configuration, and [trial]
    returns 0 (unless that report itself raises, which nothing catches).
    An exception raised by the tuner while it generates the configuration
    is outside the [try] statement and propagates whatever its class. *)
Theorem trial_catches_RuntimeError :
  forall (Env : Type) (B : Backend Env) data round_num (w : World Env),
    let n_class := info_n_class (info (self w)) in
    let feature_num := x_shape1 data in
    (forall w1 we e,
       trial_configure round_num w = (Ok tt, w1) ->
       (trial_try data round_num n_class feature_num w1 = (Raise e, we) <->
        round_fails data round_num n_class feature_num w1 e we \/
        report_fails data round_num n_class feature_num w1 e we) /\
       (trial_try data round_num n_class feature_num w1 = (Raise e, we) ->
        let h := hyperparameters (self we) in
        let msg := ev_print_oom (name (self we)) e (hp_hidden h) in
        (is_RuntimeError e = false -> trial data round_num w = (Raise e, we)) /\
        (is_RuntimeError e = true -> round_num <= 1 ->
           trial data round_num w = (Ok 0%Q, logged [msg] we)) /\
        (is_RuntimeError e = true -> 1 < round_num ->
           forall answer env',
             tuner_receive_trial_result (round_num - 1) h 0 (env we)
               = (answer, env') ->
             trial data round_num w =
               (match answer with Ok _ => Ok 0%Q | Raise x => Raise x end,
                mkWorld (self we) env'
                  (events we ++ [msg; ev_receive_trial_result (round_num - 1) h 0])
                  (next_id we))))) /\
    (forall x env',
       1 < round_num ->
       tuner_generate_parameters (round_num - 1) (env w) = (Raise x, env') ->
       trial data round_num w =
         (Raise x, mkWorld (self w) env'
                     (events w ++ [ev_generate_parameters (round_num - 1)])
                     (next_id w))).
Proof.
  intros Env B data round_num w n_class feature_num. split.
  - intros w1 we e Hc. split; [apply trial_try_raises |].
    intros Htry h msg.
    assert (Hres : trial data round_num w =
                   trial_round data round_num n_class feature_num w1).
    { rewrite trial_unfold. erewrite bind_of_Ok by exact Hc. reflexivity. }
    pose proof (trial_round_handles _ _ _ _ _ Htry) as Hh. cbv zeta in Hh.
    fold h in Hh. fold msg in Hh. rewrite <- Hres in Hh.
    split; [| split].
    + intros He. rewrite He in Hh. exact Hh.
    + intros He Hle. rewrite He in Hh.
      replace (1 <? round_num) with false in Hh
        by (symmetry; apply Z.ltb_ge; lia).
      exact Hh.
    + intros He Hlt answer env' Hans. rewrite He in Hh.
      replace (1 <? round_num) with true in Hh
        by (symmetry; apply Z.ltb_lt; lia).
      rewrite Hans in Hh. exact Hh.
  - intros x env' Hlt Hgen. rewrite trial_unfold.
    erewrite bind_of_Raise by (apply trial_configure_raises; eassumption).
    reflexivity.
Qed.

Lemma trial_catches_RuntimeError_witness :
  let sc := Scenario.failing 3 (IndexErr "index out of range") in
  let w := Scenario.created sc in
  let w1 := snd (@trial_configure _ (Scripted.backend sc) 1 w) in
  let we := snd (@trial_try _ (Scripted.backend sc) Scenario.graph 1 2 3 w1) in
  @round_fails _ (Scripted.backend sc) Scenario.graph 1 2 3 w1
     (IndexErr "index out of range") we /\
  @trial _ (Scripted.backend sc) Scenario.graph 1 w =
    (Raise (IndexErr "index out of range"), we).
Proof.
  intros sc w w1 we.
  assert (Hc : @trial_configure _ (Scripted.backend sc) 1 w = (Ok tt, w1))
    by (vm_compute; reflexivity).
  assert (Hf : @round_fails _ (Scripted.backend sc) Scenario.graph 1 2 3 w1
                 (IndexErr "index out of range") we).
  { right. exists (snd (@init_model _ (Scripted.backend sc) 2 3 w1)).
    split; vm_compute; reflexivity. }
  split; [exact Hf |].
  destruct (@trial_catches_RuntimeError _ (Scripted.backend sc) Scenario.graph 1 w)
    as [Hround _].
  destruct (Hround w1 we (IndexErr "index out of range") Hc) as [Hwhere Hwhat].
  assert (Htry : @trial_try _ (Scripted.backend sc) Scenario.graph 1 2 3 w1
                 = (Raise (IndexErr "index out of range"), we)).
  { apply Hwhere. left. exact Hf. }
  destruct (Hwhat Htry) as [Hprop _].
  apply Hprop. reflexivity.
Defined.

(** C4 as stated fails: a [RuntimeError] that is not an out-of-memory
    failure (here a shape mismatch reported by the tensor engine during the
    fourth training step of round 1) is caught as well, and [trial] returns
    0 instead of letting it propagate. *)
Lemma caught_without_out_of_memory :
  let sc := Scenario.failing 3 (RuntimeErr "size mismatch") in
  let w := Scenario.created sc in
  let w1 := snd (@trial_configure _ (Scripted.backend sc) 1 w) in
  let we := snd (@trial_try _ (Scripted.backend sc) Scenario.graph 1 2 3 w1) in
  is_oom (RuntimeErr "size mismatch") = false /\
  @round_fails _ (Scripted.backend sc) Scenario.graph 1 2 3 w1
     (RuntimeErr "size mismatch") we /\
  fst (@trial _ (Scripted.backend sc) Scenario.graph 1 w) = Ok 0%Q /\
  fst (@trial _ (Scripted.backend sc) Scenario.graph 1 w)
    <> Raise (RuntimeErr "size mismatch").
Proof.
  intros sc w w1 we. split; [reflexivity |]. split.
  - right. exists (snd (@init_model _ (Scripted.backend sc) 2 3 w1)).
    split; vm_compute; reflexivity.
  - split; [vm_compute; reflexivity |]. vm_compute. discriminate.
Qed.

(** C8: in round 1 [trial] runs the round (lines 141-156) with the
    configuration the object holds, which after construction is the one
    built from [info]; in a round [round_num > 1] it first asks the tuner
    once, with index [round_num - 1], and runs the round with exactly the
    configuration the tuner returned.  In both cases the configuration is
    still the same when [trial] ends. *)
Theorem trial_configuration :
  forall (Env : Type) (B : Backend Env) data round_num (w : World Env),
    let n_class := info_n_class (info (self w)) in
    (forall i e, hyperparameters (self (snd (__init__ i e))) = initial_hyperparameters i) /\
    (round_num = 1 ->
       trial data round_num w =
         trial_round data round_num n_class (x_shape1 data)
           (logged [ev_print_hp (hyperparameters (self w))] w) /\
       hyperparameters (self (snd (trial data round_num w))) =
         hyperparameters (self w)) /\
    (1 < round_num ->
       forall h env',
         tuner_generate_parameters (round_num - 1) (env w) = (Ok h, env') ->
         trial data round_num w =
           trial_round data round_num n_class (x_shape1 data)
             (mkWorld (set_hyperparameters h (self w)) env'
                (events w ++ [ev_generate_parameters (round_num - 1); ev_print_hp h])
                (next_id w)) /\
         hyperparameters (self (snd (trial data round_num w))) = h).
Proof.
  intros Env B data round_num w n_class. split; [| split].
  - intros i e. unfold __init__, external; simpl.
    destruct (tuner_update_search_space (search_space i) e); reflexivity.
  - intros Hr. subst round_num.
    assert (Hres : trial data 1 w =
                   trial_round data 1 n_class (x_shape1 data)
                     (logged [ev_print_hp (hyperparameters (self w))] w))
      by reflexivity.
    split; [exact Hres |]. rewrite Hres.
    exact (hyperparameters_kept_by_trial_round B data 1 n_class (x_shape1 data)
             (logged [ev_print_hp (hyperparameters (self w))] w)).
  - intros Hr h env' Hgen.
    assert (Hres : trial data round_num w =
                   trial_round data round_num n_class (x_shape1 data)
                     (mkWorld (set_hyperparameters h (self w)) env'
                        (events w ++ [ev_generate_parameters (round_num - 1); ev_print_hp h])
                        (next_id w))).
    { rewrite trial_unfold.
      erewrite bind_of_Ok by (apply trial_configure_later; eassumption).
      reflexivity. }
    split; [exact Hres |]. rewrite Hres.
    exact (hyperparameters_kept_by_trial_round B data round_num n_class
             (x_shape1 data)
             (mkWorld (set_hyperparameters h (self w)) env'
                (events w ++ [ev_generate_parameters (round_num - 1); ev_print_hp h])
                (next_id w))).
Qed.

Lemma trial_configuration_witness :
  let B := Scripted.backend Scenario.fading in
  hyperparameters (self (snd (@trial _ B Scenario.graph 1 (Scenario.created Scenario.fading))))
    = initial_hyperparameters Scenario.the_info /\
  hyperparameters (self (snd (@trial _ B Scenario.graph 2 Scenario.after_round1)))
    = Scenario.proposal.
Proof.
  intros B. split.
  - destruct (@trial_configuration _ B Scenario.graph 1 (Scenario.created Scenario.fading))
      as [_ [Hfirst _]].
    destruct (Hfirst eq_refl) as [_ Hh]. rewrite Hh. reflexivity.
  - destruct (@trial_configuration _ B Scenario.graph 2 Scenario.after_round1)
      as [_ [_ Hlater]].
    destruct (Hlater ltac:(lia) Scenario.proposal (env Scenario.after_round1) eq_refl)
      as [_ Hh].
    exact Hh.
Defined.

(** C10: [best_score] is 0 after construction and no call of [init_model],
    [forward], [train_valid], [trial] or [predict] changes it, so in every
    state the object can reach the test [val_score > self.best_score] is the
    test [val_score > 0]: a completed [trial] replaces [best_hp] by the
    round's configuration exactly when its score is positive, whatever the
    earlier rounds scored. *)
Theorem best_score_never_written :
  forall (Env : Type) (B : Backend Env) (i : Info) (e : Env) (cs : list Call),
    let w := run_calls cs (snd (__init__ i e)) in
    best_score (self (snd (__init__ i e))) = 0%Q /\
    (forall c w0, best_score (self (run_call c w0)) = best_score (self w0)) /\
    best_score (self w) = 0%Q /\
    (forall v, Qlt_bool (best_score (self w)) v = true <-> (0 < v)%Q) /\
    (forall data round_num v w',
       trial data round_num w = (Ok v, w') ->
       best_hp (self w') =
         if Qlt_bool 0 v then Some (hyperparameters (self w')) else best_hp (self w)).
Proof.
  intros Env B i e cs w.
  assert (H0 : best_score (self w) = 0%Q).
  { unfold w. rewrite best_score_kept_by_calls. apply best_score_after_init. }
  split; [apply best_score_after_init |].
  split; [intros c w0; apply best_score_kept_by_call |].
  split; [exact H0 |]. split.
  - intros v. rewrite H0. apply Qlt_bool_iff.
  - intros data round_num v w' Ht. eapply trial_best_hp; eassumption.
Qed.

Lemma best_score_never_written_witness :
  let B := Scripted.backend Scenario.fading in
  let w := run_calls [call_trial Scenario.graph 1]
             (snd (@__init__ _ B Scenario.the_info Scripted.start)) in
  best_hp (self (snd (@trial _ B Scenario.graph 2 w))) = Some Scenario.proposal.
Proof.
  intros B w.
  destruct (@best_score_never_written _ B Scenario.the_info Scripted.start
              [call_trial Scenario.graph 1]) as [_ [_ [_ [_ Hrule]]]].
  assert (Ht : @trial _ B Scenario.graph 2 w
               = (Ok (1 # 2)%Q, snd (@trial _ B Scenario.graph 2 w)))
    by (vm_compute; reflexivity).
  rewrite (Hrule _ _ _ _ Ht). vm_compute. reflexivity.
Defined.

(** ** Registered layers *)

Lemma modules_get_set_same attr v ms :
  modules_get attr (modules_set attr v ms) = Some v.
Proof.
  induction ms as [| [k w] ms IH]; simpl.
  - rewrite String.eqb_refl. reflexivity.
  - destruct (String.eqb k attr) eqn:E; simpl; rewrite E; [reflexivity | exact IH].
Qed.

Lemma modules_get_set_other attr attr' v ms :
  attr <> attr' ->
  modules_get attr' (modules_set attr v ms) = modules_get attr' ms.
Proof.
  intros Hne. induction ms as [| [k w] ms IH]; simpl.
  - destruct (String.eqb attr attr') eqn:E; [| reflexivity].
    apply String.eqb_eq in E. contradiction.
  - destruct (String.eqb k attr) eqn:E; simpl.
    + apply String.eqb_eq in E. subst k.
      destruct (String.eqb attr attr') eqn:E'; [| reflexivity].
      apply String.eqb_eq in E'. contradiction.
    + destruct (String.eqb k attr'); [reflexivity | exact IH].
Qed.

(** A registered layer is among the parameters. *)
Lemma modules_get_layers attr v ms l :
  modules_get attr ms = Some v ->
  In l (submodule_layers v) ->
  In (layer_id l) (map layer_id (modules_layers ms)).
Proof.
  intros Hget Hin. apply in_map. unfold modules_layers.
  induction ms as [| [k w] ms IH]; simpl in *; [discriminate Hget |].
  apply in_or_app.
  destruct (String.eqb k attr).
  - inversion Hget; subst. left. exact Hin.
  - right. apply IH. exact Hget.
Qed.

Lemma layers_used_apply_convs convs edges x :
  layers_used (apply_convs convs edges x) = rev convs ++ layers_used x.
Proof.
  revert x. induction convs as [| c convs IH]; intros x; simpl.
  - reflexivity.
  - rewrite IH. simpl. rewrite <- app_assoc. reflexivity.
Qed.

Section Construction.
Context {Env : Type} {B : Backend Env}.

Lemma external_Ok (A : Type) ev (f : Env -> result A * Env) (w : World Env) a w' :
  external ev f w = (Ok a, w') ->
  self w' = self w /\ next_id w' = next_id w.
Proof.
  unfold external. destruct (f (env w)) as [r env'].
  intros H. inversion H; subst. split; reflexivity.
Qed.

Lemma construct_Ok mk (w : World Env) l w' :
  construct mk w = (Ok l, w') ->
  l = mk (next_id w) /\ self w' = self w /\ next_id w' = S (next_id w).
Proof.
  unfold construct, bind, fresh_id, external, ret; simpl.
  destruct (torch_op (op_construct (mk (next_id w))) (env w)) as [[[] | e] env'];
    intros H; inversion H; subst; simpl. repeat split.
Qed.

Lemma convs_append_Ok l (w : World Env) w' :
  convs_append l w = (Ok tt, w') ->
  exists ls,
    modules_get "convs" (_modules (self w)) = Some (ModuleList ls) /\
    self w' = set_modules (modules_set "convs" (ModuleList (ls ++ [l]))
                             (_modules (self w))) (self w) /\
    next_id w' = next_id w.
Proof.
  unfold convs_append, getattr_list, getattr_module, bind, get_self, ret, raise,
    setattr_module, update_self; simpl.
  destruct (modules_get "convs" (_modules (self w))) as [[c | ls] |]; simpl;
    intros H; inversion H; subst; simpl.
  exists ls. repeat split.
Qed.

(** The loops of [init_model] that fill [self.convs]. *)
Lemma convs_loop_Ok mk k : forall (w : World Env) w' ls,
  (forall id, layer_id (mk id) = id) ->
  for_range k (c <- construct mk ;; convs_append c) w = (Ok tt, w') ->
  modules_get "convs" (_modules (self w)) = Some (ModuleList ls) ->
  exists added,
    modules_get "convs" (_modules (self w')) = Some (ModuleList (ls ++ added)) /\
    Forall (created_between w w') added /\
    (next_id w <= next_id w')%nat /\
    hyperparameters (self w') = hyperparameters (self w) /\
    training (self w') = training (self w) /\
    forall attr, "convs"%string <> attr ->
      modules_get attr (_modules (self w')) = modules_get attr (_modules (self w)).
Proof.
  induction k as [| k IH]; intros w w' ls Hmk Hrun Hget; simpl in Hrun.
  - inversion Hrun; subst. exists []. rewrite app_nil_r.
    repeat split; auto.
  - apply bind_Ok in Hrun. destruct Hrun as [[] [w1 [Hbody Hrest]]].
    apply bind_Ok in Hbody. destruct Hbody as [c [wc [Hc Happ]]].
    apply construct_Ok in Hc. destruct Hc as [Hl [Hs Hn]].
    apply convs_append_Ok in Happ. destruct Happ as [ls' [Hget' [Hs1 Hn1]]].
    rewrite Hs, Hget in Hget'. inversion Hget'; subst ls'; clear Hget'.
    assert (Hget1 : modules_get "convs" (_modules (self w1))
                    = Some (ModuleList (ls ++ [c]))).
    { rewrite Hs1; simpl. apply modules_get_set_same. }
    destruct (IH w1 w' _ Hmk Hrest Hget1)
      as [added [Hg [Hfresh [Hle [Hh [Htr Hother]]]]]].
    exists (c :: added). rewrite <- app_assoc in Hg. simpl in Hg.
    split; [exact Hg |]. split; [| split; [| split; [| split]]].
    + constructor.
      * unfold created_between. rewrite Hl, Hmk. rewrite Hn1, Hn in Hle. lia.
      * eapply Forall_impl; [| exact Hfresh].
        intros l [H1 H2]. unfold created_between. rewrite Hn1, Hn in H1. lia.
    + rewrite Hn1, Hn in Hle. lia.
    + rewrite Hh, Hs1; simpl. rewrite Hs. reflexivity.
    + rewrite Htr, Hs1; simpl. rewrite Hs. reflexivity.
    + intros attr Hne. rewrite (Hother attr Hne), Hs1; simpl.
      rewrite modules_get_set_other by exact Hne. rewrite Hs. reflexivity.
Qed.

End Construction.

Section InitModel.
Context {Env : Type} {B : Backend Env}.

(** Lines 107-111: the optimiser over the registered parameters, the move
    to the device, the cache. *)
Lemma init_model_tail_Ok rate (w w' : World Env) :
  (a <- get_self ;;
   oid <- fresh_id ;;
   let o := mkAdam oid (parameters a) rate (5 # 10000) in
   external (ev_torch (op_Adam o)) (torch_op (op_Adam o)) ;;
   update_self (set_optimizer (Some o)) ;;
   external (ev_torch (op_to_cuda (parameters a))) (torch_op (op_to_cuda (parameters a))) ;;
   external (ev_torch op_empty_cache) (torch_op op_empty_cache)) w = (Ok tt, w') ->
  self w' = set_optimizer
              (Some (mkAdam (next_id w) (parameters (self w)) rate (5 # 10000)))
              (self w) /\
  next_id w' = S (next_id w).
Proof.
  unfold bind, get_self, fresh_id, external, update_self; simpl.
  destruct (torch_op (op_Adam _) (env w)) as [[[] | e] env1]; simpl;
    [| intros H; discriminate H].
  destruct (torch_op (op_to_cuda _) env1) as [[[] | e] env2]; simpl;
    [| intros H; discriminate H].
  destruct (torch_op op_empty_cache env2) as [[[] | e] env3]; simpl;
    intros H; inversion H; subst; simpl. split; reflexivity.
Qed.

Lemma setattr_module_run attr v (w : World Env) :
  setattr_module attr v w =
  (Ok tt, mkWorld (set_modules (modules_set attr v (_modules (self w))) (self w))
            (env w) (events w) (next_id w)).
Proof. reflexivity. Qed.

End InitModel.

Section InitModelFacts.
Context {Env : Type} {B : Backend Env}.

Lemma created_between_widen (w1 w2 w1' w2' : World Env) l :
  (next_id w1' <= next_id w1)%nat -> (next_id w2 <= next_id w2')%nat ->
  created_between w1 w2 l -> created_between w1' w2' l.
Proof. unfold created_between. lia. Qed.

Lemma setattr_module_Ok attr v (w w' : World Env) :
  setattr_module attr v w = (Ok tt, w') ->
  registered w' attr v /\
  (forall attr', attr <> attr' ->
     modules_get attr' (_modules (self w')) = modules_get attr' (_modules (self w))) /\
  hyperparameters (self w') = hyperparameters (self w) /\
  training (self w') = training (self w) /\
  next_id w' = next_id w.
Proof.
  rewrite setattr_module_run. intros H. inversion H; subst; clear H.
  unfold registered; simpl. split; [apply modules_get_set_same |].
  split; [intros attr' Hne; apply modules_get_set_other; exact Hne |].
  repeat split.
Qed.

Ltac step_construct H l w1 :=
  let Hc := fresh "Hc" in
  let Hl := fresh "Hl" in
  let Hs := fresh "Hs" in
  let Hn := fresh "Hn" in
  apply bind_Ok in H; destruct H as [l [w1 [Hc H]]];
  apply construct_Ok in Hc; destruct Hc as [Hl [Hs Hn]].

Ltac step_setattr H w1 :=
  let Hc := fresh "Hc" in
  let Hr := fresh "Hr" in
  let Ho := fresh "Ho" in
  let Hh := fresh "Hh" in
  let Ht := fresh "Ht" in
  let Hn := fresh "Hn" in
  apply bind_Ok in H; destruct H as [[] [w1 [Hc H]]];
  apply setattr_module_Ok in Hc; destruct Hc as [Hr [Ho [Hh [Ht Hn]]]].

Lemma init_model_registers n_class feature_num (w w' : World Env) :
  init_model n_class feature_num w = (Ok tt, w') ->
  hyperparameters (self w') = hyperparameters (self w) /\
  training (self w') = training (self w) /\
  (exists o,
     optimizer (self w') = Some o /\
     opt_params o = parameters (self w') /\
     opt_lr o = hp_lr (hyperparameters (self w)) /\
     (next_id w <= opt_id o < next_id w')%nat) /\
  built_for (hyperparameters (self w)) w w' /\
  others_kept (hyperparameters (self w)) w w'.
Proof.
  intros Hrun. unfold init_model in Hrun.
  apply bind_Ok in Hrun. destruct Hrun as [a [w0 [Hget Hrun]]].
  inversion Hget; subst a w0; clear Hget. cbv zeta in Hrun.
  apply bind_Ok in Hrun. destruct Hrun as [[] [wb [Hbuild Htail]]].
  apply init_model_tail_Ok in Htail. destruct Htail as [Hself Hnext].
  assert (Hgoal :
    hyperparameters (self wb) = hyperparameters (self w) /\
    training (self wb) = training (self w) /\
    (next_id w <= next_id wb)%nat /\
    others_kept (hyperparameters (self w)) w wb /\
    built_for (hyperparameters (self w)) w wb).
  { unfold built_for, others_kept, assigned_attrs.
    destruct (hp_use_linear (hyperparameters (self w))).
    - step_construct Hbuild l1 w1.
      step_setattr Hbuild w2.
      step_setattr Hbuild w3.
      apply bind_Ok in Hbuild. destruct Hbuild as [[] [w4 [Hloop Hbuild]]].
      eapply convs_loop_Ok in Hloop;
        [| intros id; reflexivity | exact Hr0].
      destruct Hloop as [added [Hg [Hfresh [Hle [Hh4 [Ht4 Hother]]]]]].
      step_construct Hbuild l2 w5.
      apply setattr_module_Ok in Hbuild.
      destruct Hbuild as [Hr5 [Ho5 [Hh5 [Ht5 Hn5]]]].
      split; [congruence |]. split; [congruence |]. split; [lia |].
      split.
      { intros attr Hnot.
        rewrite Ho5 by (intros E; apply Hnot; subst; simpl; auto).
        rewrite Hs0.
        rewrite Hother by (intros E; apply Hnot; subst; simpl; auto).
        rewrite Ho0 by (intros E; apply Hnot; subst; simpl; auto).
        rewrite Ho by (intros E; apply Hnot; subst; simpl; auto).
        rewrite Hs. reflexivity. }
      exists l1, added, l2. unfold registered in *.
      split; [| split; [| split]].
      + rewrite Ho5 by discriminate. rewrite Hs0.
        rewrite Hother by discriminate. rewrite Ho0 by discriminate. exact Hr.
      + rewrite Ho5 by discriminate. rewrite Hs0. exact Hg.
      + exact Hr5.
      + constructor; [| constructor].
        * unfold created_between. rewrite Hl; simpl. lia.
        * unfold created_between. rewrite Hl0; simpl. lia.
        * eapply Forall_impl; [| exact Hfresh].
          intros l Hl'. eapply created_between_widen; [| | exact Hl']; lia.
    - destruct (hp_num_layers (hyperparameters (self w)) =? 1).
      + step_construct Hbuild c1 w1.
        apply setattr_module_Ok in Hbuild.
        destruct Hbuild as [Hr5 [Ho5 [Hh5 [Ht5 Hn5]]]].
        split; [congruence |]. split; [congruence |]. split; [lia |].
        split.
        { intros attr Hnot.
          rewrite Ho5 by (intros E; apply Hnot; subst; simpl; auto).
          rewrite Hs. reflexivity. }
        exists c1. split; [exact Hr5 |].
        unfold created_between. rewrite Hl; simpl. lia.
      + step_construct Hbuild c1 w1.
        step_setattr Hbuild w2.
        step_setattr Hbuild w3.
        apply bind_Ok in Hbuild. destruct Hbuild as [[] [w4 [Hloop Hbuild]]].
        eapply convs_loop_Ok in Hloop;
          [| intros id; reflexivity | exact Hr0].
        destruct Hloop as [added [Hg [Hfresh [Hle [Hh4 [Ht4 Hother]]]]]].
        step_construct Hbuild c2 w5.
        apply setattr_module_Ok in Hbuild.
        destruct Hbuild as [Hr5 [Ho5 [Hh5 [Ht5 Hn5]]]].
        split; [congruence |]. split; [congruence |]. split; [lia |].
        split.
        { intros attr Hnot.
          rewrite Ho5 by (intros E; apply Hnot; subst; simpl; auto).
          rewrite Hs0.
          rewrite Hother by (intros E; apply Hnot; subst; simpl; auto).
          rewrite Ho0 by (intros E; apply Hnot; subst; simpl; auto).
          rewrite Ho by (intros E; apply Hnot; subst; simpl; auto).
          rewrite Hs. reflexivity. }
        exists c1, added, c2. unfold registered in *.
        split; [| split; [| split]].
        * rewrite Ho5 by discriminate. rewrite Hs0.
          rewrite Hother by discriminate. rewrite Ho0 by discriminate. exact Hr.
        * rewrite Ho5 by discriminate. rewrite Hs0. exact Hg.
        * exact Hr5.
        * constructor; [| constructor].
          -- unfold created_between. rewrite Hl; simpl. lia.
          -- unfold created_between. rewrite Hl0; simpl. lia.
          -- eapply Forall_impl; [| exact Hfresh].
             intros l Hl'. eapply created_between_widen; [| | exact Hl']; lia. }
  destruct Hgoal as [Gh [Gt [Gn [Gk Gb]]]].
  rewrite Hself; simpl.
  split; [exact Gh |]. split; [exact Gt |]. split; [| split].
  - eexists. split; [reflexivity |]. simpl. repeat split; lia.
  - unfold built_for in *.
    destruct (hp_use_linear (hyperparameters (self w))).
    + destruct Gb as [l1 [ls [l2 [G1 [G2 [G3 G4]]]]]].
      exists l1, ls, l2. unfold registered in *. rewrite Hself; simpl.
      repeat split; try assumption.
      eapply Forall_impl; [| exact G4].
      intros l Hl'. eapply created_between_widen; [| | exact Hl']; lia.
    + destruct (hp_num_layers (hyperparameters (self w)) =? 1).
      * destruct Gb as [c1 [G1 G2]].
        exists c1. unfold registered in *. rewrite Hself; simpl.
        split; [assumption |].
        eapply created_between_widen; [| | exact G2]; lia.
      * destruct Gb as [l1 [ls [l2 [G1 [G2 [G3 G4]]]]]].
        exists l1, ls, l2. unfold registered in *. rewrite Hself; simpl.
        repeat split; try assumption.
        eapply Forall_impl; [| exact G4].
        intros l Hl'. eapply created_between_widen; [| | exact Hl']; lia.
  - intros attr Hnot. rewrite Hself; simpl. apply Gk. exact Hnot.
Qed.

End InitModelFacts.

(** ** The forward pass *)

Section ForwardFacts.
Context {Env : Type} {B : Backend Env}.

Lemma forward_linear data (w : World Env) input_lin convs output_lin :
  hp_use_linear (hyperparameters (self w)) = true ->
  registered w "input_lin" (Single input_lin) ->
  registered w "convs" (ModuleList convs) ->
  registered w "output_lin" (Single output_lin) ->
  forward data w =
  (Ok (call_linear output_lin
         (apply_convs convs (edges_of (self w))
            (F_dropout (hp_dropout_rate (hyperparameters (self w)))
               (training (self w)) (F_relu (call_linear input_lin data_x))))), w).
Proof.
  unfold registered, forward, getattr_layer, getattr_list, getattr_module,
    edges_of.
  unfold bind, get_self, ret, raise.
  intros Hu H1 H2 H3. simpl. rewrite Hu, H1; simpl. rewrite H2; simpl.
  rewrite H3; simpl. reflexivity.
Qed.

Lemma forward_single data (w : World Env) conv1 :
  hp_use_linear (hyperparameters (self w)) = false ->
  hp_num_layers (hyperparameters (self w)) = 1 ->
  registered w "conv1" (Single conv1) ->
  forward data w = (Ok (F_relu (call_conv conv1 data_x (edges_of (self w)))), w).
Proof.
  unfold registered, forward, getattr_layer, getattr_list, getattr_module,
    edges_of.
  unfold bind, get_self, ret, raise.
  intros Hu Hn H1. simpl. rewrite Hu, H1; simpl. rewrite Hn. reflexivity.
Qed.

Lemma forward_deep data (w : World Env) conv1 convs conv2 :
  hp_use_linear (hyperparameters (self w)) = false ->
  (hp_num_layers (hyperparameters (self w)) =? 1) = false ->
  registered w "conv1" (Single conv1) ->
  registered w "convs" (ModuleList convs) ->
  registered w "conv2" (Single conv2) ->
  forward data w =
  (Ok (call_conv conv2
         (apply_convs convs (edges_of (self w))
            (F_dropout (hp_dropout_rate (hyperparameters (self w)))
               (training (self w)) (F_relu (call_conv conv1 data_x (edges_of (self w))))))
         (edges_of (self w))), w).
Proof.
  unfold registered, forward, getattr_layer, getattr_list, getattr_module,
    edges_of.
  unfold bind, get_self, ret, raise.
  intros Hu Hn H1 H2 H3. simpl. rewrite Hu, H1; simpl. rewrite Hn.
  rewrite H2; simpl. rewrite H3; simpl. reflexivity.
Qed.

(** After [init_model], the forward pass finds every layer it needs, and
    each of them was created by that call. *)
Lemma forward_after_init_model n_class feature_num data (w w' : World Env) :
  init_model n_class feature_num w = (Ok tt, w') ->
  exists e,
    forward data w' = (Ok e, w') /\
    forall l, In l (layers_used e) ->
      created_between w w' l /\ In (layer_id l) (parameters (self w')).
Proof.
  intros Hrun.
  apply init_model_registers in Hrun. destruct Hrun as [Hh [_ [_ [Hb _]]]].
  unfold built_for in Hb.
  destruct (hp_use_linear (hyperparameters (self w))) eqn:Hu.
  - destruct Hb as [l1 [ls [l2 [G1 [G2 [G3 G4]]]]]].
    eexists. split.
    + apply forward_linear; [congruence | eassumption ..].
    + intros l Hin. simpl in Hin. rewrite layers_used_apply_convs in Hin.
      simpl in Hin. rewrite Forall_forall in G4.
      assert (Hcases : l = l2 \/ In l ls \/ l = l1).
      { destruct Hin as [Hin | Hin]; [left; congruence |].
        apply in_app_or in Hin. destruct Hin as [Hin | Hin].
        - right; left. apply in_rev. exact Hin.
        - destruct Hin as [Hin | []]. right; right. congruence. }
      split.
      * apply G4. simpl. destruct Hcases as [-> | [H | ->]]; auto.
      * unfold parameters.
        destruct Hcases as [-> | [H | ->]].
        -- eapply modules_get_layers; [exact G3 | simpl; auto].
        -- eapply modules_get_layers; [exact G2 | simpl; auto].
        -- eapply modules_get_layers; [exact G1 | simpl; auto].
  - destruct (hp_num_layers (hyperparameters (self w)) =? 1) eqn:Hn.
    + destruct Hb as [c1 [G1 G2]].
      eexists. split.
      * apply forward_single; [congruence | | eassumption].
        rewrite Hh. apply Z.eqb_eq. exact Hn.
      * intros l Hin. simpl in Hin. destruct Hin as [<- | []].
        split; [exact G2 |].
        unfold parameters. eapply modules_get_layers; [exact G1 | simpl; auto].
    + destruct Hb as [l1 [ls [l2 [G1 [G2 [G3 G4]]]]]].
      eexists. split.
      * apply forward_deep; [congruence | congruence | eassumption ..].
      * intros l Hin. simpl in Hin. rewrite layers_used_apply_convs in Hin.
        simpl in Hin. rewrite Forall_forall in G4.
        assert (Hcases : l = l2 \/ In l ls \/ l = l1).
        { destruct Hin as [Hin | Hin]; [left; congruence |].
          apply in_app_or in Hin. destruct Hin as [Hin | Hin].
          - right; left. apply in_rev. exact Hin.
          - destruct Hin as [Hin | []]. right; right. congruence. }
        split.
        -- apply G4. simpl. destruct Hcases as [-> | [H | ->]]; auto.
        -- unfold parameters.
           destruct Hcases as [-> | [H | ->]].
           ++ eapply modules_get_layers; [exact G3 | simpl; auto].
           ++ eapply modules_get_layers; [exact G2 | simpl; auto].
           ++ eapply modules_get_layers; [exact G1 | simpl; auto].
Qed.

End ForwardFacts.

(** ** Claims about the architecture *)

(** C7: under a configuration with [num_layers == 1] and
    [use_linear == False], [forward] returns the ReLU of one graph
    convolution, the layer [conv1], applied to the node features: the result
    contains one convolution, no linear projection, no feature dropout, and
    uses no layer but [conv1]; the object is left unchanged. *)
Theorem forward_single_convolution :
  forall (Env : Type) data (w : World Env) conv1,
    hp_num_layers (hyperparameters (self w)) = 1 ->
    hp_use_linear (hyperparameters (self w)) = false ->
    modules_get "conv1" (_modules (self w)) = Some (Single conv1) ->
    exists out,
      forward data w = (Ok out, w) /\
      out = F_relu (call_conv conv1 data_x (edges_of (self w))) /\
      conv_count out = 1%nat /\
      linear_count out = 0%nat /\
      dropout_count out = 0%nat /\
      layers_used out = [conv1].
Proof.
  intros Env data w conv1 Hn Hu Hreg.
  exists (F_relu (call_conv conv1 data_x (edges_of (self w)))).
  split; [apply forward_single; assumption |].
  repeat split.
Qed.

(** After [init_model] under such a configuration, [conv1] is there. *)
Lemma forward_single_after_init_model (Env : Type) (B : Backend Env)
    n_class feature_num data (w w' : World Env) :
  hp_num_layers (hyperparameters (self w)) = 1 ->
  hp_use_linear (hyperparameters (self w)) = false ->
  init_model n_class feature_num w = (Ok tt, w') ->
  exists conv1,
    created_between w w' conv1 /\
    forward data w' = (Ok (F_relu (call_conv conv1 data_x (edges_of (self w')))), w').
Proof.
  intros Hn Hu Hrun. apply init_model_registers in Hrun.
  destruct Hrun as [Hh [_ [_ [Hb _]]]]. unfold built_for in Hb.
  rewrite Hu, Hn in Hb. simpl in Hb. destruct Hb as [conv1 [Hreg Hnew]].
  exists conv1. split; [exact Hnew |].
  apply forward_single; [congruence | congruence | exact Hreg].
Qed.

Lemma forward_single_convolution_witness :
  let B := Scripted.backend Scenario.fading in
  let w0 := snd (@__init__ _ B Scenario.single_info Scripted.start) in
  let w := snd (@init_model _ B 2 3 w0) in
  fst (@forward _ Scenario.graph w) =
    Ok (F_relu (call_conv (ARMAConv 0 3 2 1 1 false (1 # 2)) data_x
                  (dropout_adj (1 # 10) true))).
Proof.
  intros B w0 w.
  destruct (@forward_single_convolution _ Scenario.graph w
              (ARMAConv 0 3 2 1 1 false (1 # 2)) eq_refl eq_refl eq_refl)
    as [out [Hrun [Hout _]]].
  rewrite Hrun, Hout. reflexivity.
Defined.

(** C9, as the code has it: a call of [init_model] that returns has created
    anew every layer that the forward pass applies under the current
    configuration, and has allocated a new optimiser over all parameters
    registered at that moment, which include those of every layer the
    forward pass applies.  What an earlier call registered under an
    attribute that the configuration does not assign stays registered, and
    its parameters are handed to the new optimiser too. *)
Theorem init_model_builds_anew :
  forall (Env : Type) (B : Backend Env) n_class feature_num data (w w' : World Env),
    init_model n_class feature_num w = (Ok tt, w') ->
    exists o e,
      optimizer (self w') = Some o /\
      (next_id w <= opt_id o < next_id w')%nat /\
      opt_params o = parameters (self w') /\
      forward data w' = (Ok e, w') /\
      (forall l, In l (layers_used e) ->
         (next_id w <= layer_id l < next_id w')%nat /\
         In (layer_id l) (opt_params o)) /\
      (forall attr v l,
         ~ In attr (assigned_attrs (hyperparameters (self w))) ->
         modules_get attr (_modules (self w)) = Some v ->
         In l (submodule_layers v) ->
         modules_get attr (_modules (self w')) = Some v /\
         In (layer_id l) (opt_params o)).
Proof.
  intros Env B n_class feature_num data w w' Hrun.
  pose proof Hrun as Hfwd.
  apply forward_after_init_model with (data := data) in Hfwd.
  destruct Hfwd as [e [Hfwd Hfresh]].
  apply init_model_registers in Hrun.
  destruct Hrun as [_ [_ [[o [Ho [Hp [_ Hid]]]] [_ Hkept]]]].
  exists o, e.
  split; [exact Ho |]. split; [exact Hid |]. split; [exact Hp |].
  split; [exact Hfwd |]. split.
  - intros l Hin. destruct (Hfresh l Hin) as [Hc Hpar].
    split; [exact Hc | rewrite Hp; exact Hpar].
  - intros attr v l Hnot Hget Hin.
    assert (Hget' : modules_get attr (_modules (self w')) = Some v)
      by (rewrite (Hkept attr Hnot); exact Hget).
    split; [exact Hget' |].
    rewrite Hp. unfold parameters. eapply modules_get_layers; eassumption.
Qed.

Lemma init_model_builds_anew_witness :
  let B := Scripted.backend Scenario.fading in
  let w := snd (@trial_configure _ B 2 Scenario.after_round1) in
  exists o e,
    optimizer (self (snd (@init_model _ B 2 3 w))) = Some o /\
    fst (@forward _ Scenario.graph (snd (@init_model _ B 2 3 w))) = Ok e /\
    forall l, In l (layers_used e) -> (3 <= layer_id l)%nat.
Proof.
  intros B w.
  assert (Hrun : @init_model _ B 2 3 w = (Ok tt, snd (@init_model _ B 2 3 w)))
    by (vm_compute; reflexivity).
  destruct (@init_model_builds_anew _ B 2 3 Scenario.graph w _ Hrun)
    as [o [e [Ho [_ [_ [Hf [Hl _]]]]]]].
  exists o, e. split; [exact Ho |]. split; [rewrite Hf; reflexivity |].
  intros l Hin. destruct (Hl l Hin) as [[Hlow _] _].
  change (next_id w) with 3%nat in Hlow. exact Hlow.
Defined.

(** C9 as stated fails: round 1 builds [conv1] and [conv2] (layers 0 and
    1); the configuration of round 2 uses linear projections, so
    [init_model] assigns [input_lin], [convs] and [output_lin] only, and the
    parameters of layers 0 and 1, created by the earlier call, are still
    registered and are handed to the new optimiser. *)
Lemma stale_parameters_remain :
  let B := Scripted.backend Scenario.fading in
  let w := snd (@trial_configure _ B 2 Scenario.after_round1) in
  let w' := snd (@init_model _ B 2 3 w) in
  @init_model _ B 2 3 w = (Ok tt, w') /\
  parameters (self w) = [0; 1]%nat /\
  next_id w = 3%nat /\
  parameters (self w') = [0; 4; 1; 3; 5]%nat /\
  optimizer (self w') = Some (mkAdam 6 [0; 4; 1; 3; 5]%nat (5 # 1000) (5 # 10000)) /\
  ~ (forall p, In p (parameters (self w')) -> (next_id w <= p)%nat).
Proof.
  intros B w w'.
  split; [vm_compute; reflexivity |].
  split; [vm_compute; reflexivity |].
  split; [vm_compute; reflexivity |].
  split; [vm_compute; reflexivity |].
  split; [vm_compute; reflexivity |].
  intros H. specialize (H 0%nat).
  assert (Hin : In 0%nat (parameters (self w'))) by (vm_compute; auto).
  specialize (H Hin). vm_compute in H. lia.
Qed.

(** ** One epoch *)

Section EpochFacts.
Context {Env : Type} {B : Backend Env}.

Lemma loop_view_kept_by_epoch_train data :
  keeps (same loop_view) (epoch_train data).
Proof. apply keeps_epoch_train; same_side. Qed.

Lemma loop_view_kept_by_epoch_valid data :
  keeps (same loop_view) (epoch_valid data).
Proof. apply keeps_epoch_valid; same_side. Qed.

Lemma lift_Ok (A : Type) (r : result A) (w : World Env) a w' :
  lift r w = (Ok a, w') -> r = Ok a /\ w' = w.
Proof. unfold lift. intros H. inversion H; subst. split; reflexivity. Qed.

Lemma mask_index_Ok (A : Type) (mask : list bool) (rows sel : list A) :
  mask_index mask rows = Ok sel ->
  List.length rows = List.length mask /\ sel = select_rows mask rows.
Proof.
  unfold mask_index.
  destruct (Nat.eqb (List.length mask) (List.length rows)) eqn:E;
    intros H; inversion H; subst.
  apply Nat.eqb_eq in E. split; [symmetry; exact E | reflexivity].
Qed.

(** The evaluation of an epoch yields a score computed by the metric and
    the rows of the class-probability matrix that the test mask selects. *)
Lemma epoch_valid_Ok data (w : World Env) v tp w' :
  epoch_valid data w = (Ok (v, tp), w') ->
  (exists y_valid valid_preds, f1_score_micro y_valid valid_preds = Ok v) /\
  (exists probs : Probs,
     List.length probs = List.length (test_mask data) /\
     tp = select_rows (test_mask data) probs) /\
  loop_view w' = loop_view w.
Proof.
  intros H.
  pose proof (loop_view_kept_by_epoch_valid data w) as Hview.
  rewrite H in Hview. unfold same in Hview; simpl in Hview.
  unfold epoch_valid in H.
  apply bind_Ok in H. destruct H as [[] [w1 [_ H]]].
  apply bind_Ok in H. destruct H as [logits [w2 [_ H]]].
  apply bind_Ok in H. destruct H as [preds [w3 [_ H]]].
  apply bind_Ok in H. destruct H as [vp [w4 [Hvp H]]].
  apply bind_Ok in H. destruct H as [tp0 [w5 [Htp H]]].
  apply bind_Ok in H. destruct H as [yv [w6 [Hyv H]]].
  apply bind_Ok in H. destruct H as [vs [w7 [Hvs H]]].
  inversion H; subst; clear H.
  apply lift_Ok in Htp. destruct Htp as [Htp _].
  apply mask_index_Ok in Htp. destruct Htp as [Hlen Hsel].
  apply lift_Ok in Hvs. destruct Hvs as [Hvs _].
  split; [exists yv, vp; exact Hvs |].
  split; [exists preds; split; assumption | exact Hview].
Qed.

Lemma epoch_body_Ok data f (w : World Env) f' w' :
  epoch_body data f w = (Ok f', w') -> epoch_effect data f w f' w'.
Proof.
  intros H. unfold epoch_body in H.
  apply bind_Ok in H. destruct H as [[] [w1 [Htrain H]]].
  apply bind_Ok in H. destruct H as [[v tp] [w2 [Hvalid H]]].
  pose proof (loop_view_kept_by_epoch_train data w) as V1.
  rewrite Htrain in V1. unfold same, loop_view in V1; simpl in V1.
  apply epoch_valid_Ok in Hvalid. destruct Hvalid as [Hv [Hprobs V2]].
  unfold loop_view in V2. rewrite V1 in V2. injection V2 as Vp Ve Vc.
  cbv zeta in H. simpl fst in H. simpl snd in H.
  unfold bind, get_self, update_self, ret in H.
  exists v, tp.
  destruct (Qlt_bool (loc_best_valid_score f)
              (avg (AverageMeter_update v (valid_acc_meter f)))) eqn:G;
    inversion H; subst; clear H;
    cbn [valid_acc_meter valid_score test_preds patience loc_best_valid_score self];
    rewrite G; repeat split; auto.
Qed.

Lemma forward_pure data (w : World Env) : snd (forward data w) = w.
Proof.
  apply (@keeps_forward Env (fun w w' : World Env => w' = w)).
  - intros w0. reflexivity.
  - intros w1 w2 w3 H1 H2. congruence.
Qed.

Lemma external_run (A : Type) ev (f : Env -> result A * Env) (w : World Env) :
  external ev f w =
  (fst (f (env w)),
   mkWorld (self w) (snd (f (env w))) (events w ++ [ev]) (next_id w)).
Proof. unfold external. destruct (f (env w)); reflexivity. Qed.

(** The evaluation of an epoch, step by step: which logits the softmax was
    asked for, what it answered, and what was scored and selected. *)
Lemma epoch_valid_evaluated data (w1 : World Env) v tp w2 :
  epoch_valid data w1 = (Ok (v, tp), w2) ->
  exists logits probs,
    forward data (eval_world w1) = (Ok logits, eval_world w1) /\
    torch_softmax logits data (env w1) = (Ok probs, env w2) /\
    events w2 = events w1 ++ [ev_softmax logits] /\
    List.length probs = List.length (valid_mask data) /\
    List.length probs = List.length (test_mask data) /\
    f1_score_micro (select_rows (valid_mask data) (y data))
                   (select_rows (valid_mask data) probs) = Ok v /\
    tp = select_rows (test_mask data) probs.
Proof.
  intros H. unfold epoch_valid in H.
  apply bind_Ok in H. destruct H as [[] [wa [Ha H]]].
  unfold update_self in Ha. inversion Ha as [Hwa]; clear Ha.
  fold (eval_world w1) in Hwa. subst wa.
  apply bind_Ok in H. destruct H as [logits [wb [Hb H]]].
  pose proof (forward_pure data (eval_world w1)) as Hp.
  rewrite Hb in Hp. simpl in Hp. subst wb.
  apply bind_Ok in H. destruct H as [preds [wc [Hc H]]].
  rewrite external_run in Hc. inversion Hc as [[Hr Hwc]]; clear Hc.
  apply bind_Ok in H. destruct H as [vp [w4 [Hvp H]]].
  apply lift_Ok in Hvp. destruct Hvp as [Hvp ->].
  apply bind_Ok in H. destruct H as [tp0 [w5 [Htp H]]].
  apply lift_Ok in Htp. destruct Htp as [Htp ->].
  apply bind_Ok in H. destruct H as [yv [w6 [Hyv H]]].
  apply lift_Ok in Hyv. destruct Hyv as [Hyv ->].
  apply bind_Ok in H. destruct H as [vs [w7 [Hvs H]]].
  apply lift_Ok in Hvs. destruct Hvs as [Hvs ->].
  inversion H; subst v tp w2; clear H.
  apply mask_index_Ok in Hvp. destruct Hvp as [Hlv ->].
  apply mask_index_Ok in Htp. destruct Htp as [Hlt ->].
  apply mask_index_Ok in Hyv. destruct Hyv as [_ ->].
  exists logits, preds. subst wc. cbn [env events self eval_world].
  split; [exact Hb |]. split.
  - rewrite <- Hr. apply surjective_pairing.
  - repeat split; assumption.
Qed.

Lemma epoch_body_evaluated data f (w : World Env) f' w' :
  epoch_body data f w = (Ok f', w') ->
  evaluated_step data (f, w) (f', w').
Proof.
  intros H. unfold epoch_body in H.
  apply bind_Ok in H. destruct H as [[] [w1 [Htrain H]]].
  apply bind_Ok in H. destruct H as [[v tp] [w2 [Hvalid H]]].
  apply epoch_valid_evaluated in Hvalid.
  destruct Hvalid as [logits [probs [Hfw [Hsm [Hev [Hlv [Hlt [Hf1 Htp]]]]]]]].
  cbv zeta in H. simpl fst in H. simpl snd in H.
  unfold bind, get_self, update_self, ret in H.
  exists probs, v. unfold evaluated. cbn [fst snd].
  assert (Hend : env w' = env w2 /\ events w' = events w2 /\
                 valid_score f' = Some v /\
                 valid_acc_meter f' = AverageMeter_update v (valid_acc_meter f) /\
                 test_preds f' = Some tp).
  { destruct (Qlt_bool (loc_best_valid_score f)
                (avg (AverageMeter_update v (valid_acc_meter f))));
      inversion H; subst; cbn; repeat split. }
  destruct Hend as [Eenv [Eev [Hvs [Hm Htps]]]].
  split.
  - exists w1, logits. rewrite Eenv, Eev. repeat split; assumption.
  - split; [exact Hvs |]. split; [exact Hm |]. rewrite Htps, Htp. reflexivity.
Qed.

End EpochFacts.

(** ** The running mean *)

Lemma AverageMeter_update_spec v m :
  (meter_sum (AverageMeter_update v m) == meter_sum m + v)%Q /\
  meter_count (AverageMeter_update v m) = meter_count m + 1 /\
  (avg (AverageMeter_update v m) ==
   meter_sum (AverageMeter_update v m)
   / inject_Z (meter_count (AverageMeter_update v m)))%Q.
Proof.
  unfold AverageMeter_update; cbn [meter_sum meter_count avg].
  split; [apply Qred_correct |]. split; [reflexivity | apply Qred_correct].
Qed.

Lemma meter_ok_new : meter_ok AverageMeter_new.
Proof.
  unfold meter_ok, AverageMeter_new; simpl.
  split; [apply Qle_refl |]. split; [lia | apply Qle_refl].
Qed.

Lemma meter_ok_update v m :
  (0 <= v)%Q -> meter_ok m -> meter_ok (AverageMeter_update v m).
Proof.
  intros Hv [Hs [Hc Ha]].
  destruct (AverageMeter_update_spec v m) as [Es [Ec Ea]].
  assert (Hs' : (0 <= meter_sum (AverageMeter_update v m))%Q).
  { rewrite Es. replace 0%Q with (0 + 0)%Q by reflexivity.
    apply Qplus_le_compat; assumption. }
  split; [exact Hs' |]. split; [lia |].
  rewrite Ea. apply Qle_shift_div_l.
  - rewrite Ec. change 0%Q with (inject_Z 0). rewrite <- Zlt_Qlt. lia.
  - rewrite Qmult_0_l. exact Hs'.
Qed.

(** ** Runs of the epoch loop *)

Lemma chain_impl (A : Type) (rel rel' : A -> A -> Prop) :
  (forall a b, rel a b -> rel' a b) ->
  forall xs prev, chain rel prev xs -> chain rel' prev xs.
Proof.
  intros Himpl xs. induction xs as [| x xs IH]; intros prev H; simpl in *.
  - exact I.
  - destruct H as [H1 H2]. split; [apply Himpl, H1 | apply IH, H2].
Qed.

(** An invariant of the steps holds all along. *)
Lemma chain_Forall (A : Type) (rel : A -> A -> Prop) (inv : A -> Prop) :
  (forall a b, inv a -> rel a b -> inv b) ->
  forall xs prev, inv prev -> chain rel prev xs -> Forall inv xs.
Proof.
  intros Hstep xs. induction xs as [| x xs IH]; intros prev Hp H; simpl in *.
  - constructor.
  - destruct H as [H1 H2].
    assert (Hx : inv x) by (eapply Hstep; eassumption).
    constructor; [exact Hx | eapply IH; eassumption].
Qed.

Lemma chain_and (A : Type) (rel rel' : A -> A -> Prop) :
  forall xs prev,
    chain rel prev xs -> chain rel' prev xs ->
    chain (fun a b => rel a b /\ rel' a b) prev xs.
Proof.
  induction xs as [| x xs IH]; intros prev H H'; simpl in *.
  - exact I.
  - destruct H as [H1 H2]. destruct H' as [H1' H2'].
    split; [split; assumption | apply IH; assumption].
Qed.

Lemma last_cons (A : Type) (xs : list A) (x d : A) :
  last (x :: xs) d = last xs x.
Proof.
  revert x d. induction xs as [| y ys IH]; intros x d.
  - reflexivity.
  - change (last (y :: ys) d = last (y :: ys) x).
    rewrite (IH y d), (IH y x). reflexivity.
Qed.

(** In a chain, every element is related to the one before it. *)
Lemma chain_at (A : Type) (rel : A -> A -> Prop) :
  forall before prev x after,
    chain rel prev (before ++ x :: after) ->
    rel (last before prev) x.
Proof.
  induction before as [| b before IH]; intros prev x after H.
  - simpl in H. destruct H as [H _]. exact H.
  - change ((b :: before) ++ x :: after) with (b :: (before ++ x :: after)) in H.
    simpl chain in H. destruct H as [_ H].
    rewrite last_cons. eapply IH. exact H.
Qed.

Section LoopFacts.
Context {Env : Type} {B : Backend Env}.

Lemma epoch_frames_chain data n : forall f (w : World Env),
  chain (epoch_step data) (f, w) (epoch_frames n data f w).
Proof.
  induction n as [| n IH]; intros f w; simpl.
  - exact I.
  - destruct (epoch_body data f w) as [[f' | e] w'] eqn:Hb; simpl; [| exact I].
    split.
    + unfold epoch_step; simpl. apply epoch_body_Ok. exact Hb.
    + destruct (patience f' =? 0); [exact I | apply IH].
Qed.

(** Every completed iteration scored and selected from its own
    evaluation. *)
Lemma epoch_frames_evaluated data n : forall f (w : World Env),
  chain (evaluated_step data) (f, w) (epoch_frames n data f w).
Proof.
  induction n as [| n IH]; intros f w; simpl.
  - exact I.
  - destruct (epoch_body data f w) as [[f' | e] w'] eqn:Hb; simpl; [| exact I].
    split.
    + apply epoch_body_evaluated. exact Hb.
    + destruct (patience f' =? 0); [exact I | apply IH].
Qed.

Lemma epoch_frames_length data n : forall f (w : World Env),
  (List.length (epoch_frames n data f w) <= n)%nat.
Proof.
  induction n as [| n IH]; intros f w; simpl.
  - lia.
  - destruct (epoch_body data f w) as [[f' | e] w']; simpl; [| lia].
    destruct (patience f' =? 0); simpl; [lia |].
    specialize (IH f' w'). lia.
Qed.

(** Only the last completed iteration can end with [patience == 0]. *)
Lemma epoch_frames_go_on data n : forall f (w : World Env),
  Forall (fun x => patience (fst x) <> 0)
         (removelast (epoch_frames n data f w)).
Proof.
  induction n as [| n IH]; intros f w; simpl.
  - constructor.
  - destruct (epoch_body data f w) as [[f' | e] w']; simpl; [| constructor].
    destruct (patience f' =? 0) eqn:Hp; [constructor |].
    specialize (IH f' w').
    destruct (epoch_frames n data f' w') as [| x xs] eqn:E; [constructor |].
    constructor; [| exact IH].
    simpl. apply Z.eqb_neq. exact Hp.
Qed.

(** The loop returns the local variables of its last iteration, and it
    stops at the end of the range or at [patience == 0]. *)
Lemma epoch_loop_Ok data n : forall f (w : World Env) f' w',
  epoch_loop n data f w = (Ok f', w') ->
  (f', w') = last (epoch_frames n data f w) (f, w) /\
  (List.length (epoch_frames n data f w) = n \/
   (epoch_frames n data f w <> [] /\ patience f' = 0)).
Proof.
  induction n as [| n IH]; intros f w f' w' H; simpl in *.
  - inversion H; subst. split; [reflexivity | left; reflexivity].
  - unfold bind in H.
    destruct (epoch_body data f w) as [[f1 | e] w1]; [| discriminate H].
    destruct (patience f1 =? 0) eqn:Hp.
    + inversion H; subst. split; [reflexivity |].
      right. split; [discriminate | apply Z.eqb_eq; exact Hp].
    + destruct (IH f1 w1 f' w' H) as [Hlast Hstop].
      split.
      * rewrite Hlast. symmetry. apply last_cons.
      * destruct Hstop as [Hlen | [Hne Hz]].
        -- left. simpl. rewrite Hlen. reflexivity.
        -- right. split; [discriminate | exact Hz].
Qed.

End LoopFacts.

Lemma chain_with_invariant (A : Type) (rel : A -> A -> Prop) (inv : A -> Prop) :
  (forall a b, inv a -> rel a b -> inv b) ->
  forall xs prev, inv prev -> chain rel prev xs ->
    chain (fun a b => inv a /\ rel a b) prev xs.
Proof.
  intros Hstep xs. induction xs as [| x xs IH]; intros prev Hp H; simpl in *.
  - exact I.
  - destruct H as [H1 H2]. split; [split; assumption |].
    apply IH; [eapply Hstep; eassumption | exact H2].
Qed.

Lemma Qlt_bool_false (a b : Q) : Qlt_bool a b = false -> (b <= a)%Q.
Proof.
  intros H. apply Qnot_lt_le. intros Hlt.
  apply Qlt_bool_iff in Hlt. congruence.
Qed.

Lemma running_means_compat scores : forall s s' c,
  (s == s')%Q ->
  Forall2 Qeq (running_means s c scores) (running_means s' c scores).
Proof.
  induction scores as [| v rest IH]; intros s s' c Hs; simpl.
  - constructor.
  - constructor.
    + rewrite Hs. reflexivity.
    + apply IH. rewrite Hs. reflexivity.
Qed.

Lemma Forall2_Qeq_trans (xs ys zs : list Q) :
  Forall2 Qeq xs ys -> Forall2 Qeq ys zs -> Forall2 Qeq xs zs.
Proof.
  intros H. revert zs. induction H as [| x y xs ys Hxy _ IH]; intros zs Hz.
  - inversion Hz; subst. constructor.
  - inversion Hz; subst. constructor.
    + rewrite Hxy. assumption.
    + apply IH. assumption.
Qed.

Section LoopInvariants.
Context {Env : Type} {B : Backend Env}.

(** The iterations started with [patience <> 0], as [epoch_loop] ensures. *)
Lemma epoch_frames_chain_going data n : forall f (w : World Env),
  patience f <> 0 ->
  chain (fun p c => patience (fst p) <> 0 /\ epoch_step data p c)
        (f, w) (epoch_frames n data f w).
Proof.
  induction n as [| n IH]; intros f w Hf; simpl.
  - exact I.
  - destruct (epoch_body data f w) as [[f' | e] w'] eqn:Hb; simpl; [| exact I].
    split.
    + split; [exact Hf |]. unfold epoch_step; simpl. apply epoch_body_Ok. exact Hb.
    + destruct (patience f' =? 0) eqn:Hp; [exact I |].
      apply IH. apply Z.eqb_neq. exact Hp.
Qed.

Lemma patience_within_step data bound (p c : Frame * World Env) :
  0 <= bound ->
  patience_within bound p ->
  patience (fst p) <> 0 /\ epoch_step data p c ->
  patience_within bound c.
Proof.
  intros Hb [Hp Hm] [Hgo Hstep].
  destruct Hstep as [v [tp [_ [_ [_ [_ [_ [Hmp [_ Hif]]]]]]]]].
  unfold patience_within. split; [| congruence].
  destruct (Qlt_bool (loc_best_valid_score (fst p)) (avg (valid_acc_meter (fst c)))).
  - destruct Hif as [Hpat _]. rewrite Hpat, Hm. lia.
  - destruct Hif as [Hpat _]. rewrite Hpat. lia.
Qed.

(** The meter has only seen scores that are not negative. *)
Lemma meter_ok_step data (p c : Frame * World Env) :
  f1_score_in_range ->
  meter_ok (valid_acc_meter (fst p)) ->
  epoch_step data p c ->
  meter_ok (valid_acc_meter (fst c)).
Proof.
  intros Hf1 Hm [v [tp [_ [_ [[yv [vp Hv]] [_ [Hup _]]]]]]].
  rewrite Hup. apply meter_ok_update; [| assumption].
  eapply Hf1. exact Hv.
Qed.

(** The means held by the meter are the running means of the scores. *)
Lemma meter_follows_running_means data : forall xs (p : Frame * World Env),
  chain (epoch_step data) p xs ->
  List.length (frame_scores xs) = List.length xs /\
  Forall2 Qeq (map (fun x => avg (valid_acc_meter (fst x))) xs)
              (running_means (meter_sum (valid_acc_meter (fst p)))
                             (meter_count (valid_acc_meter (fst p)))
                             (frame_scores xs)).
Proof.
  induction xs as [| x xs IH]; intros p H; simpl in *.
  - split; [reflexivity | constructor].
  - destruct H as [Hstep Hrest].
    destruct (IH x Hrest) as [Hlen Hmeans].
    destruct Hstep as [v [tp [Hv [_ [_ [_ [Hup _]]]]]]].
    rewrite Hv; simpl.
    destruct (AverageMeter_update_spec v (valid_acc_meter (fst p)))
      as [Es [Ec Ea]].
    rewrite <- Hup in Es, Ec, Ea.
    split; [rewrite Hlen; reflexivity |].
    constructor.
    + rewrite Ea, Es, Ec. reflexivity.
    + eapply Forall2_Qeq_trans; [exact Hmeans |].
      rewrite Ec. apply running_means_compat. exact Es.
Qed.

(** The local [best_valid_score] is the largest mean so far. *)
Lemma best_is_largest_mean data : forall xs (p : Frame * World Env),
  chain (epoch_step data) p xs ->
  let best := loc_best_valid_score (fst (last xs p)) in
  (loc_best_valid_score (fst p) <= best)%Q /\
  Forall (fun x => (avg (valid_acc_meter (fst x)) <= best)%Q) xs /\
  (best = loc_best_valid_score (fst p) \/
   Exists (fun x => avg (valid_acc_meter (fst x)) = best) xs).
Proof.
  induction xs as [| x xs IH]; intros p H; simpl chain in H.
  - simpl. split; [apply Qle_refl |]. split; [constructor | left; reflexivity].
  - destruct H as [Hstep Hrest].
    specialize (IH x Hrest). cbv zeta in IH.
    destruct IH as [Hle [Hall Hex]].
    rewrite last_cons. cbv zeta.
    destruct Hstep as [v [tp [_ [_ [_ [_ [_ [_ [_ Hif]]]]]]]]].
    destruct (Qlt_bool (loc_best_valid_score (fst p)) (avg (valid_acc_meter (fst x))))
      eqn:G.
    + destruct Hif as [_ [Hbest _]]. apply Qlt_bool_iff in G.
      split; [| split].
      * eapply Qle_trans; [apply Qlt_le_weak; exact G |].
        rewrite <- Hbest. exact Hle.
      * constructor; [rewrite <- Hbest; exact Hle | exact Hall].
      * right. destruct Hex as [Hex | Hex].
        -- apply Exists_cons_hd. congruence.
        -- apply Exists_cons_tl. exact Hex.
    + destruct Hif as [_ [Hbest _]]. apply Qlt_bool_false in G.
      split; [| split].
      * rewrite <- Hbest. exact Hle.
      * constructor; [| exact Hall].
        eapply Qle_trans; [exact G |]. rewrite <- Hbest. exact Hle.
      * destruct Hex as [Hex | Hex].
        -- left. congruence.
        -- right. apply Exists_cons_tl. exact Hex.
Qed.

Lemma train_valid_Ok data round_num (w : World Env) v w' :
  train_valid data round_num w = (Ok v, w') ->
  let start := (initial_frame (self w), w) in
  let run := train_valid_frames data w in
  v = loc_best_valid_score (fst (last run start)) /\
  w' = snd (last run start) /\
  (List.length run = Z.to_nat (max_epochs (self w)) \/
   (run <> [] /\ patience (fst (last run start)) = 0)).
Proof.
  intros H. unfold train_valid in H.
  apply bind_Ok in H. destruct H as [a [w0 [Hget H]]].
  inversion Hget; subst a w0; clear Hget.
  apply bind_Ok in H. destruct H as [f' [w1 [Hloop H]]].
  inversion H; subst; clear H.
  apply epoch_loop_Ok in Hloop. destruct Hloop as [Hlast Hstop].
  unfold train_valid_frames. cbv zeta. rewrite <- Hlast. simpl.
  repeat split; try reflexivity. exact Hstop.
Qed.

End LoopInvariants.

(** The scripted metric is in range. *)
Lemma accuracy_nonneg (sc : Scripted.Script) :
  @f1_score_in_range _ (Scripted.backend sc).
Proof.
  intros labels p v H. simpl in H. unfold Scripted.accuracy in H.
  destruct labels; inversion H; subst; clear H.
  - apply Qle_refl.
  - unfold Qle; simpl. lia.
Qed.

(** ** Claims about the training loop *)

(** C6: in [train_valid], with the bounds set by the constructor, the
    patience counter starts at 100; an iteration sets it to 100 when the
    running mean exceeds the best mean so far and lowers it by one
    otherwise; it is never negative; at most 1600 iterations are executed;
    no iteration but the last ends with the counter at 0, and a run that
    returns has either used the whole budget or ended at the first
    iteration that brought the counter to 0. *)
Theorem patience_and_epoch_budget :
  forall (Env : Type) (B : Backend Env) data round_num (w : World Env),
    max_patience (self w) = 100 ->
    max_epochs (self w) = 1600 ->
    let start := (initial_frame (self w), w) in
    let run := train_valid_frames data w in
    patience (fst start) = 100 /\
    chain (fun p c =>
             if Qlt_bool (loc_best_valid_score (fst p)) (avg (valid_acc_meter (fst c)))
             then patience (fst c) = 100
             else patience (fst c) = patience (fst p) - 1) start run /\
    Forall (fun x => 0 <= patience (fst x) <= 100) run /\
    (List.length run <= 1600)%nat /\
    Forall (fun x => patience (fst x) <> 0) (removelast run) /\
    forall v w',
      train_valid data round_num w = (Ok v, w') ->
      (List.length run = 1600%nat \/
       (run <> [] /\ patience (fst (last run start)) = 0)) /\
      v = loc_best_valid_score (fst (last run start)) /\
      w' = snd (last run start).
Proof.
  intros Env B data round_num w Hp He start run.
  assert (Hstart : patience (fst start) = 100) by (simpl; exact Hp).
  assert (Hgo : chain (fun p c => patience (fst p) <> 0 /\ epoch_step data p c)
                      start run).
  { apply epoch_frames_chain_going. simpl. rewrite Hp. discriminate. }
  assert (Hinv0 : patience_within 100 start).
  { unfold patience_within; simpl. rewrite Hp. split; [lia | reflexivity]. }
  assert (Hstep : forall a b : Frame * World Env,
             patience_within 100 a ->
             patience (fst a) <> 0 /\ epoch_step data a b ->
             patience_within 100 b).
  { intros a b Ha Hab. eapply patience_within_step; [lia | exact Ha | exact Hab]. }
  assert (Hchain : chain (fun a b => patience_within 100 a /\
                                     (patience (fst a) <> 0 /\ epoch_step data a b))
                         start run).
  { apply chain_with_invariant; [exact Hstep | exact Hinv0 | exact Hgo]. }
  split; [exact Hstart |]. split; [| split; [| split; [| split]]].
  - eapply chain_impl; [| exact Hchain].
    intros p c [[_ Hm] [_ Heff]].
    destruct Heff as [v [tp [_ [_ [_ [_ [_ [_ [_ Hif]]]]]]]]].
    destruct (Qlt_bool (loc_best_valid_score (fst p)) (avg (valid_acc_meter (fst c)))).
    + destruct Hif as [Hpat _]. congruence.
    + destruct Hif as [Hpat _]. exact Hpat.
  - assert (Hall : Forall (patience_within 100) run).
    { eapply chain_Forall; [exact Hstep | exact Hinv0 | exact Hgo]. }
    eapply Forall_impl; [| exact Hall].
    intros x [Hx _]. exact Hx.
  - unfold run, train_valid_frames. rewrite He.
    apply (epoch_frames_length data (Z.to_nat 1600)).
  - apply epoch_frames_go_on.
  - intros v w' Hrun. apply train_valid_Ok in Hrun. cbv zeta in Hrun.
    destruct Hrun as [Hv [Hw Hstop]]. rewrite He in Hstop.
    split; [exact Hstop |]. split; assumption.
Qed.

Lemma patience_and_epoch_budget_witness :
  let B := Scripted.backend Scenario.fading in
  let w := snd (@init_model _ B 2 3 (Scenario.created Scenario.fading)) in
  max_patience (self w) = 100 /\
  max_epochs (self w) = 1600 /\
  (List.length (@train_valid_frames _ B Scenario.graph w) <= 1600)%nat /\
  Forall (fun x => 0 <= patience (fst x) <= 100)
         (@train_valid_frames _ B Scenario.graph w).
Proof.
  intros B w.
  assert (Hp : max_patience (self w) = 100) by (vm_compute; reflexivity).
  assert (He : max_epochs (self w) = 1600) by (vm_compute; reflexivity).
  destruct (@patience_and_epoch_budget _ B Scenario.graph 1 w Hp He)
    as [_ [_ [Hall [Hlen _]]]].
  split; [exact Hp |]. split; [exact He |]. split; [exact Hlen | exact Hall].
Defined.

(** C5: in [train_valid] every iteration is scored by the metric on the
    validation rows of the class probabilities that the softmax answered
    for that iteration's forward pass in evaluation mode, and this score is
    folded into the mean of all scores of the round so far; an iteration
    whose mean exceeds the best mean so far resets the patience counter,
    records the mean as the new best and caches the test-mask rows of that
    same iteration's class probabilities in [current_round_best_preds]; any
    other iteration lowers the counter by one and leaves the best mean and
    the cache alone; the value returned is the largest of the means of the
    executed iterations (the metric being an F1 score, which is never
    negative). *)
Theorem early_stopping_on_running_mean :
  forall (Env : Type) (B : Backend Env) data round_num (w : World Env),
    f1_score_in_range ->
    let start := (initial_frame (self w), w) in
    let run := train_valid_frames data w in
    let mean := fun x : Frame * World Env => avg (valid_acc_meter (fst x)) in
    List.length (frame_scores run) = List.length run /\
    Forall2 Qeq (map mean run) (running_means 0 0 (frame_scores run)) /\
    chain (fun p c =>
             exists (probs : Probs) (score : Q),
               evaluated data (snd p) (snd c) probs score /\
               valid_score (fst c) = Some score /\
               valid_acc_meter (fst c) =
                 AverageMeter_update score (valid_acc_meter (fst p)) /\
               List.length probs = List.length (test_mask data) /\
               test_preds (fst c) = Some (select_rows (test_mask data) probs) /\
               if Qlt_bool (loc_best_valid_score (fst p)) (mean c)
               then patience (fst c) = max_patience (self w) /\
                    loc_best_valid_score (fst c) = mean c /\
                    current_round_best_preds (self (snd c)) = test_preds (fst c)
               else patience (fst c) = patience (fst p) - 1 /\
                    loc_best_valid_score (fst c) = loc_best_valid_score (fst p) /\
                    current_round_best_preds (self (snd c)) =
                      current_round_best_preds (self (snd p)))
          start run /\
    forall v w',
      train_valid data round_num w = (Ok v, w') ->
      0 < max_epochs (self w) ->
      Forall (fun x => (mean x <= v)%Q) run /\
      Exists (fun x => (mean x == v)%Q) run.
Proof.
  intros Env B data round_num w Hf1 start run mean.
  pose proof (epoch_frames_chain data (Z.to_nat (max_epochs (self w)))
                (initial_frame (self w)) w) as Hchain.
  fold (train_valid_frames data w) in Hchain. fold run in Hchain.
  fold start in Hchain.
  pose proof Hchain as Hfollow.
  apply meter_follows_running_means in Hfollow.
  destruct Hfollow as [Hlen Hmeans].
  split; [exact Hlen |]. split; [exact Hmeans |]. split.
  - assert (Hwith : chain (fun a b : Frame * World Env =>
                             max_patience (self (snd a)) = max_patience (self w) /\
                             epoch_step data a b) start run).
    { apply chain_with_invariant; [| reflexivity | exact Hchain].
      intros a b Ha Hab.
      destruct Hab as [v [tp [_ [_ [_ [_ [_ [Hmp _]]]]]]]]. congruence. }
    pose proof (epoch_frames_evaluated data (Z.to_nat (max_epochs (self w)))
                  (initial_frame (self w)) w) as Heval.
    fold (train_valid_frames data w) in Heval. fold run in Heval.
    fold start in Heval.
    eapply chain_impl; [| apply chain_and; [exact Hwith | exact Heval]].
    intros p c [[Hm Hstep] [probs [score [Hev [Hvs [Hmeter Hsel]]]]]].
    destruct Hstep as [v [tp [_ [Htp [_ [_ [_ [_ [_ Hif]]]]]]]]].
    exists probs, score.
    split; [exact Hev |]. split; [exact Hvs |]. split; [exact Hmeter |].
    split; [destruct Hev as [? [? [_ [_ [_ [_ [_ [Hl _]]]]]]]]; exact Hl |].
    split; [exact Hsel |].
    unfold mean.
    destruct (Qlt_bool (loc_best_valid_score (fst p)) (avg (valid_acc_meter (fst c)))).
    + destruct Hif as [H1 [H2 H3]]. repeat split; congruence.
    + exact Hif.
  - intros v w' Hrun Hpos.
    apply train_valid_Ok in Hrun. cbv zeta in Hrun.
    fold run in Hrun. fold start in Hrun.
    destruct Hrun as [Hv [_ Hstop]].
    pose proof Hchain as Hbest. apply best_is_largest_mean in Hbest.
    cbv zeta in Hbest. destruct Hbest as [_ [Hall Hex]].
    rewrite <- Hv in Hall, Hex.
    split; [exact Hall |].
    destruct Hex as [Hzero | Hex].
    + simpl in Hzero.
      assert (Hne : run <> []).
      { destruct Hstop as [Hfull | [Hne _]]; [| exact Hne].
        intros E. rewrite E in Hfull. simpl in Hfull.
        assert (0 < Z.to_nat (max_epochs (self w)))%nat by lia. lia. }
      destruct run as [| x xs] eqn:E; [contradiction |].
      apply Exists_cons_hd.
      inversion Hall as [| ? ? Hx _]; subst.
      apply Qle_antisym; [exact Hx |].
      rewrite Hzero.
      assert (Hok : Forall (fun x : Frame * World Env =>
                              meter_ok (valid_acc_meter (fst x))) (x :: xs)).
      { eapply chain_Forall; [| | exact Hchain].
        - intros a b Ha Hab. eapply meter_ok_step; eassumption.
        - simpl. apply meter_ok_new. }
      inversion Hok as [| ? ? [_ [_ Hx0]] _]; subst. exact Hx0.
    + eapply Exists_impl; [| exact Hex].
      intros x Hx. unfold mean. rewrite Hx. reflexivity.
Qed.

Lemma early_stopping_on_running_mean_witness :
  let B := Scripted.backend Scenario.fading in
  let w := snd (@init_model _ B 2 3 (Scenario.created Scenario.fading)) in
  fst (@train_valid _ B Scenario.graph 1 w) = Ok 1%Q /\
  Exists (fun x => (avg (valid_acc_meter (fst x)) == 1)%Q)
         (@train_valid_frames _ B Scenario.graph w).
Proof.
  intros B w.
  assert (Hrun : @train_valid _ B Scenario.graph 1 w
                 = (Ok 1%Q, snd (@train_valid _ B Scenario.graph 1 w)))
    by (vm_compute; reflexivity).
  destruct (@early_stopping_on_running_mean _ B Scenario.graph 1 w
              (accuracy_nonneg Scenario.fading))
    as [_ [_ [_ Hret]]].
  destruct (Hret _ _ Hrun ltac:(vm_compute; reflexivity)) as [_ Hex].
  split; [rewrite Hrun; reflexivity | exact Hex].
Defined.

(** ** Claims about the predictions *)

Lemma select_rows_length (A : Type) (mask : list bool) : forall rows : list A,
  List.length rows = List.length mask ->
  List.length (select_rows mask rows) = count_occ bool_dec mask true.
Proof.
  induction mask as [| b mask IH]; intros rows Hlen.
  - reflexivity.
  - destruct rows as [| r rows]; [discriminate Hlen |].
    simpl in Hlen. injection Hlen as Hlen.
    destruct b; simpl; rewrite (IH rows Hlen); reflexivity.
Qed.

Section CacheFacts.
Context {Env : Type} {B : Backend Env}.

(** Either no iteration improved on the best mean, or the cache holds the
    rows of the iteration that reached the final best mean. *)
Lemma cache_is_from_best_epoch data : forall xs (p : Frame * World Env),
  chain (epoch_step data) p xs ->
  let final := last xs p in
  (loc_best_valid_score (fst final) = loc_best_valid_score (fst p) /\
   current_round_best_preds (self (snd final)) =
     current_round_best_preds (self (snd p))) \/
  Exists (cached_from data (loc_best_valid_score (fst final)) (snd final)) xs.
Proof.
  induction xs as [| x xs IH]; intros p H; simpl chain in H.
  - left. split; reflexivity.
  - destruct H as [Hstep Hrest].
    specialize (IH x Hrest). cbv zeta in IH. cbv zeta. rewrite last_cons.
    destruct IH as [[Hb Hc] | Hex]; [| right; apply Exists_cons_tl; exact Hex].
    destruct Hstep as [v [tp [_ [Htp [_ [Hprobs [_ [_ [_ Hif]]]]]]]]].
    destruct (Qlt_bool (loc_best_valid_score (fst p)) (avg (valid_acc_meter (fst x)))).
    + destruct Hif as [_ [Hbest Hcache]].
      right. apply Exists_cons_hd. unfold cached_from.
      split; [congruence |]. split; [congruence |].
      destruct Hprobs as [probs [Hl Hsel]]. exists probs.
      split; [exact Hl |]. rewrite Htp, Hsel. reflexivity.
    + destruct Hif as [_ [Hbest Hcache]].
      left. split; congruence.
Qed.

(** A training run that returns a positive score has cached the test-mask
    rows of the iteration that reached that score. *)
Lemma train_valid_cache data round_num (w : World Env) v w' :
  train_valid data round_num w = (Ok v, w') ->
  (0 < v)%Q ->
  Exists (cached_from data v w') (train_valid_frames data w).
Proof.
  intros Hrun Hpos.
  apply train_valid_Ok in Hrun. cbv zeta in Hrun.
  destruct Hrun as [Hv [Hw _]].
  pose proof (epoch_frames_chain data (Z.to_nat (max_epochs (self w)))
                (initial_frame (self w)) w) as Hchain.
  fold (train_valid_frames data w) in Hchain.
  apply cache_is_from_best_epoch in Hchain. cbv zeta in Hchain.
  rewrite <- Hv, <- Hw in Hchain.
  destruct Hchain as [[Hzero _] | Hex]; [| exact Hex].
  simpl in Hzero. rewrite Hzero in Hpos. discriminate Hpos.
Qed.

(** A call of [trial] that returns a positive score went through a
    completed training run, and holds that run's cache. *)
Lemma trial_positive data round_num (w : World Env) v w' :
  trial data round_num w = (Ok v, w') ->
  (0 < v)%Q ->
  exists w1 wm wt,
    trial_configure round_num w = (Ok tt, w1) /\
    init_model (info_n_class (info (self w))) (x_shape1 data) w1 = (Ok tt, wm) /\
    train_valid data round_num wm = (Ok v, wt) /\
    current_round_best_preds (self w') = current_round_best_preds (self wt).
Proof.
  intros Ht Hpos. rewrite trial_unfold in Ht.
  apply bind_Ok in Ht. destruct Ht as [[] [w1 [Hc Hr]]].
  unfold trial_round in Hr. apply bind_Ok in Hr.
  destruct Hr as [out [w2 [Htry Hfin]]].
  unfold try_except_RuntimeError in Htry.
  pose proof (trial_try_outcome data round_num (info_n_class (info (self w)))
                (x_shape1 data) w1) as Hout.
  destruct (trial_try data round_num (info_n_class (info (self w))) (x_shape1 data) w1)
    as [[out' | e] wx]; simpl in Hout.
  - inversion Htry; subst out' wx; clear Htry.
    destruct Hout as [_ [_ [v0 [wm [wt [Hout [Hi [Htv [Hcache _]]]]]]]]].
    subst out. unfold bind, get_self, emit, ret in Hfin; simpl in Hfin.
    inversion Hfin; subst; simpl.
    exists w1, wm, wt. repeat split; assumption.
  - destruct (is_RuntimeError e); [| discriminate Htry].
    unfold trial_except, bind, get_self, emit, when, external, ret in Htry.
    simpl in Htry.
    destruct (1 <? round_num); simpl in Htry.
    + destruct (tuner_receive_trial_result (round_num - 1)
                  (hyperparameters (self wx)) 0 (env wx)) as [[[] | x] env'];
        simpl in Htry; inversion Htry; subst; clear Htry.
      unfold ret in Hfin. inversion Hfin; subst. discriminate Hpos.
    + inversion Htry; subst; clear Htry.
      unfold ret in Hfin. inversion Hfin; subst. discriminate Hpos.
Qed.

End CacheFacts.

(** C2, as the code has it: after a round that [trial] completed with a
    positive score, [predict] returns the test-mask rows of a matrix of
    class probabilities (one row of probabilities per held-out node, not a
    class index).  The matrix is the one that the softmax answered, in the
    round's training loop, for the forward pass in evaluation mode of the
    iteration [best_epoch], the iteration whose running mean is the round's
    best, and which that iteration cached. *)
Theorem predict_returns_cached_probabilities :
  forall (Env : Type) (B : Backend Env) data round_num (w : World Env) v w',
    trial data round_num w = (Ok v, w') ->
    (0 < v)%Q ->
    exists w1 wm before (best_epoch : Frame * World Env) after
           (probs : Probs) (score : Q),
      trial_configure round_num w = (Ok tt, w1) /\
      init_model (info_n_class (info (self w))) (x_shape1 data) w1 = (Ok tt, wm) /\
      train_valid_frames data wm = before ++ best_epoch :: after /\
      avg (valid_acc_meter (fst best_epoch)) = v /\
      evaluated data (snd (last before (initial_frame (self wm), wm)))
                (snd best_epoch) probs score /\
      valid_score (fst best_epoch) = Some score /\
      List.length probs = List.length (test_mask data) /\
      test_preds (fst best_epoch) = Some (select_rows (test_mask data) probs) /\
      List.length (select_rows (test_mask data) probs)
        = count_occ bool_dec (test_mask data) true /\
      predict w' = (Ok (array2 (select_rows (test_mask data) probs)), w').
Proof.
  intros Env B data round_num w v w' Ht Hpos.
  destruct (trial_positive _ _ _ Ht Hpos) as [w1 [wm [wt [Hc [Hi [Htv Hcache]]]]]].
  pose proof (train_valid_cache _ _ _ Htv Hpos) as Hex.
  apply Exists_exists in Hex.
  destruct Hex as [x [Hin [Havg [Hcur _]]]].
  apply in_split in Hin. destruct Hin as [before [after Hrun]].
  pose proof (epoch_frames_evaluated data (Z.to_nat (max_epochs (self wm)))
                (initial_frame (self wm)) wm) as Heval.
  fold (train_valid_frames data wm) in Heval. rewrite Hrun in Heval.
  apply chain_at in Heval.
  destruct Heval as [probs [score [Hev [Hvs [_ Hsel]]]]].
  assert (Hlen : List.length probs = List.length (test_mask data)).
  { destruct Hev as [? [? [_ [_ [_ [_ [_ [Hl _]]]]]]]]. exact Hl. }
  exists w1, wm, before, x, after, probs, score.
  split; [exact Hc |]. split; [exact Hi |]. split; [exact Hrun |].
  split; [exact Havg |]. split; [exact Hev |]. split; [exact Hvs |].
  split; [exact Hlen |]. split; [exact Hsel |]. split.
  - apply select_rows_length. exact Hlen.
  - unfold predict, bind, get_self. simpl.
    rewrite Hcache, Hcur, Hsel. reflexivity.
Qed.

Lemma predict_returns_cached_probabilities_witness :
  let B := Scripted.backend Scenario.fading in
  fst (@predict Scripted.SEnv Scenario.after_round1) = Ok (array2 [[1 # 4; 3 # 4]%Q]).
Proof.
  intros B.
  assert (Ht : @trial _ B Scenario.graph 1 (Scenario.created Scenario.fading)
               = (Ok 1%Q, Scenario.after_round1)) by (vm_compute; reflexivity).
  destruct (@predict_returns_cached_probabilities _ B Scenario.graph 1 _ _ _ Ht eq_refl)
    as [w1 [wm [before [x [after [probs [score [_ [_ [_ [_ [_ [_ [_ [_ [_ Hp]]]]]]]]]]]]]]]].
  rewrite Hp. simpl fst.
  assert (Hc : fst (@predict Scripted.SEnv Scenario.after_round1)
               = Ok (array2 [[1 # 4; 3 # 4]%Q])) by (vm_compute; reflexivity).
  rewrite Hp in Hc. exact Hc.
Defined.

(** C2 as stated fails: after round 1 on the four-node graph, [predict]
    returns the probabilities (1/4, 3/4) of the held-out node, a matrix with
    one row, and not the class index 1. *)
Lemma predict_returns_no_class_indices :
  fst (@predict Scripted.SEnv Scenario.after_round1) = Ok (array2 [[1 # 4; 3 # 4]%Q]) /\
  ~ exists labels : list Z,
      fst (@predict Scripted.SEnv Scenario.after_round1) = Ok (class_indices labels).
Proof.
  assert (Hc : fst (@predict Scripted.SEnv Scenario.after_round1)
               = Ok (array2 [[1 # 4; 3 # 4]%Q])) by (vm_compute; reflexivity).
  split; [exact Hc |].
  intros [labels H]. rewrite Hc in H. unfold class_indices in H. discriminate H.
Qed.

(** A completed round whose score is 0 caches nothing: [predict] then
    still returns what round 1 cached. *)
Lemma unscored_round_keeps_cache :
  let B := Scripted.backend Scenario.collapsing in
  let w1 := snd (@trial _ B Scenario.graph 1 (Scenario.created Scenario.collapsing)) in
  let w2 := snd (@trial _ B Scenario.graph 2 w1) in
  fst (@trial _ B Scenario.graph 2 w1) = Ok 0%Q /\
  events w2 <> events w1 /\
  fst (@predict Scripted.SEnv w2) = fst (@predict Scripted.SEnv w1).
Proof.
  intros B w1 w2. split; [vm_compute; reflexivity |].
  split; [| vm_compute; reflexivity].
  intros H. apply (f_equal (@List.length Event)) in H.
  vm_compute in H. discriminate H.
Qed.

(** ** The best-result record across rounds *)

(** C1, on the code: round 1 scores 1 and round 2, with the configuration
    proposed by the tuner, scores 1/2.  Round 2 does not beat round 1, yet
    [trial] replaces [best_hp] by the configuration of round 2; [best_score]
    is still 0 and [best_preds] is still [None] after both rounds. *)
Theorem worse_round_overwrites_best_hp :
  let B := Scripted.backend Scenario.fading in
  let w0 := Scenario.created Scenario.fading in
  let w1 := snd (@trial _ B Scenario.graph 1 w0) in
  let w2 := snd (@trial _ B Scenario.graph 2 w1) in
  fst (@trial _ B Scenario.graph 1 w0) = Ok 1%Q /\
  best_hp (self w1) = Some (initial_hyperparameters Scenario.the_info) /\
  fst (@trial _ B Scenario.graph 2 w1) = Ok (1 # 2)%Q /\
  ((1 # 2) < 1)%Q /\
  best_hp (self w2) = Some Scenario.proposal /\
  Scenario.proposal <> initial_hyperparameters Scenario.the_info /\
  best_score (self w1) = 0%Q /\
  best_score (self w2) = 0%Q /\
  best_preds (self w2) = None.
Proof.
  intros B w0 w1 w2.
  split; [vm_compute; reflexivity |].
  split; [vm_compute; reflexivity |].
  split; [vm_compute; reflexivity |].
  split; [reflexivity |].
  split; [vm_compute; reflexivity |].
  split; [discriminate |].
  split; [vm_compute; reflexivity |].
  split; vm_compute; reflexivity.
Qed.

(** * Further properties *)

(** ** What [init_model] builds, layer by layer *)

Ltac step_construct H l w1 :=
  let Hc := fresh "Hc" in
  let Hl := fresh "Hl" in
  let Hs := fresh "Hs" in
  let Hn := fresh "Hn" in
  apply bind_Ok in H; destruct H as [l [w1 [Hc H]]];
  apply construct_Ok in Hc; destruct Hc as [Hl [Hs Hn]].

Ltac step_setattr H w1 :=
  let Hc := fresh "Hc" in
  let Hr := fresh "Hr" in
  let Ho := fresh "Ho" in
  let Hh := fresh "Hh" in
  let Ht := fresh "Ht" in
  let Hn := fresh "Hn" in
  apply bind_Ok in H; destruct H as [[] [w1 [Hc H]]];
  apply setattr_module_Ok in Hc; destruct Hc as [Hr [Ho [Hh [Ht Hn]]]].

Section ExactConstruction.
Context {Env : Type} {B : Backend Env}.

(** The loops that fill [self.convs] append the layers made from the next
    [k] identities, in order. *)
Lemma convs_loop_exact mk k : forall (w : World Env) w' ls,
  for_range k (c <- construct mk ;; convs_append c) w = (Ok tt, w') ->
  modules_get "convs" (_modules (self w)) = Some (ModuleList ls) ->
  modules_get "convs" (_modules (self w'))
    = Some (ModuleList (ls ++ map mk (seq (next_id w) k))) /\
  next_id w' = (next_id w + k)%nat.
Proof.
  induction k as [| k IH]; intros w w' ls Hrun Hget; simpl in Hrun.
  - inversion Hrun; subst. simpl. rewrite app_nil_r.
    split; [exact Hget | lia].
  - apply bind_Ok in Hrun. destruct Hrun as [[] [w1 [Hbody Hrest]]].
    apply bind_Ok in Hbody. destruct Hbody as [c [wc [Hc Happ]]].
    apply construct_Ok in Hc. destruct Hc as [Hl [Hs Hn]].
    apply convs_append_Ok in Happ. destruct Happ as [ls' [Hget' [Hs1 Hn1]]].
    rewrite Hs, Hget in Hget'. inversion Hget'; subst ls'; clear Hget'.
    assert (Hget1 : modules_get "convs" (_modules (self w1))
                    = Some (ModuleList (ls ++ [c]))).
    { rewrite Hs1; simpl. apply modules_get_set_same. }
    destruct (IH w1 w' _ Hrest Hget1) as [Hg Hnext].
    rewrite Hn1, Hn in Hg, Hnext.
    split; [| lia].
    rewrite Hg, <- app_assoc, Hl. reflexivity.
Qed.

(** [init_model] followed by [forward] is the network [architecture]
    describes, built from the identities that come next. *)
Lemma forward_of_init_model n_class feature_num data (w w' : World Env) :
  init_model n_class feature_num w = (Ok tt, w') ->
  forward data w' =
  (Ok (architecture (hyperparameters (self w)) n_class feature_num
         (next_id w) (training (self w))), w').
Proof.
  intros Hrun.
  pose proof Hrun as Hreg. apply init_model_registers in Hreg.
  destruct Hreg as [Hh [Htr _]].
  unfold init_model in Hrun.
  apply bind_Ok in Hrun. destruct Hrun as [a [w0 [Hget Hrun]]].
  inversion Hget; subst a w0; clear Hget. cbv zeta in Hrun.
  apply bind_Ok in Hrun. destruct Hrun as [[] [wb [Hbuild Htail]]].
  apply init_model_tail_Ok in Htail. destruct Htail as [Hself _].
  assert (Hmod : _modules (self w') = _modules (self wb))
    by (rewrite Hself; reflexivity).
  unfold architecture.
  destruct (hp_use_linear (hyperparameters (self w))) eqn:Hu.
  - step_construct Hbuild l1 w1.
    step_setattr Hbuild w2.
    step_setattr Hbuild w3.
    apply bind_Ok in Hbuild. destruct Hbuild as [[] [w4 [Hloop Hbuild]]].
    pose proof Hloop as Hexact.
    apply convs_loop_exact with (ls := []) in Hexact; [| exact Hr0].
    destruct Hexact as [Hconvs Hnext].
    eapply convs_loop_Ok in Hloop; [| intros id; reflexivity | exact Hr0].
    destruct Hloop as [added [_ [_ [_ [_ [_ Hother]]]]]].
    step_construct Hbuild l2 w5.
    apply setattr_module_Ok in Hbuild.
    destruct Hbuild as [Hr5 [Ho5 _]].
    rewrite (forward_linear (input_lin := l1)
               (convs := map (conv_layer (hyperparameters (self w))
                                (hidden_size_of (hp_hidden (hyperparameters (self w))))
                                (hidden_size_of (hp_hidden (hyperparameters (self w)))))
                             (seq (next_id w3) (Z.to_nat (hp_num_layers (hyperparameters (self w))))))
               (output_lin := l2) data).
    + unfold edges_of, edges_for. rewrite Hh, Htr, Hl, Hl0, Hnext, Hn1, Hn0, Hn.
      replace (S (next_id w)) with (next_id w + 1)%nat by lia.
      reflexivity.
    + congruence.
    + unfold registered in *. rewrite Hmod.
      rewrite Ho5 by discriminate. rewrite Hs0.
      rewrite Hother by discriminate. rewrite Ho0 by discriminate. exact Hr.
    + unfold registered in *. rewrite Hmod.
      rewrite Ho5 by discriminate. rewrite Hs0. exact Hconvs.
    + unfold registered in *. rewrite Hmod. exact Hr5.
  - destruct (hp_num_layers (hyperparameters (self w)) =? 1) eqn:Hn1.
    + step_construct Hbuild c1 w1.
      apply setattr_module_Ok in Hbuild. destruct Hbuild as [Hr5 _].
      rewrite (forward_single (conv1 := c1) data).
      * unfold edges_of, edges_for, conv_layer. rewrite Hh, Htr, Hl. reflexivity.
      * congruence.
      * rewrite Hh. apply Z.eqb_eq. exact Hn1.
      * unfold registered in *. rewrite Hmod. exact Hr5.
    + step_construct Hbuild c1 w1.
      step_setattr Hbuild w2.
      step_setattr Hbuild w3.
      apply bind_Ok in Hbuild. destruct Hbuild as [[] [w4 [Hloop Hbuild]]].
      pose proof Hloop as Hexact.
      apply convs_loop_exact with (ls := []) in Hexact; [| exact Hr0].
      destruct Hexact as [Hconvs Hnext].
      eapply convs_loop_Ok in Hloop; [| intros id; reflexivity | exact Hr0].
      destruct Hloop as [added [_ [_ [_ [_ [_ Hother]]]]]].
      step_construct Hbuild c2 w5.
      apply setattr_module_Ok in Hbuild.
      destruct Hbuild as [Hr5 [Ho5 _]].
      rewrite (forward_deep (conv1 := c1)
                 (convs := map (conv_layer (hyperparameters (self w))
                                  (hidden_size_of (hp_hidden (hyperparameters (self w))))
                                  (hidden_size_of (hp_hidden (hyperparameters (self w)))))
                               (seq (next_id w3) (Z.to_nat (hp_num_layers (hyperparameters (self w)) - 2))))
                 (conv2 := c2) data).
      * unfold edges_of, edges_for, conv_layer.
        rewrite Hh, Htr, Hl, Hl0, Hnext, Hn2, Hn0, Hn.
        replace (S (next_id w)) with (next_id w + 1)%nat by lia.
        reflexivity.
      * congruence.
      * congruence.
      * unfold registered in *. rewrite Hmod.
        rewrite Ho5 by discriminate. rewrite Hs0.
        rewrite Hother by discriminate. rewrite Ho0 by discriminate. exact Hr.
      * unfold registered in *. rewrite Hmod.
        rewrite Ho5 by discriminate. rewrite Hs0. exact Hconvs.
      * unfold registered in *. rewrite Hmod. exact Hr5.
Qed.

End ExactConstruction.

(** ** Depth and widths of the network *)

Lemma conv_count_apply_convs convs edges x :
  conv_count (apply_convs convs edges x) = (List.length convs + conv_count x)%nat.
Proof.
  revert x. induction convs as [| c convs IH]; intros x; simpl.
  - reflexivity.
  - rewrite IH. simpl. lia.
Qed.

Lemma linear_count_apply_convs convs edges x :
  linear_count (apply_convs convs edges x) = linear_count x.
Proof.
  revert x. induction convs as [| c convs IH]; intros x; simpl.
  - reflexivity.
  - rewrite IH. reflexivity.
Qed.

Lemma dropout_count_apply_convs convs edges x :
  dropout_count (apply_convs convs edges x) = dropout_count x.
Proof.
  revert x. induction convs as [| c convs IH]; intros x; simpl.
  - reflexivity.
  - rewrite IH. reflexivity.
Qed.

Lemma columns_apply_convs feature_num d convs edges : forall x,
  Forall (fun l => layer_in l = d /\ layer_out l = d) convs ->
  columns feature_num x = Some d ->
  columns feature_num (apply_convs convs edges x) = Some d.
Proof.
  induction convs as [| c convs IH]; intros x Hall Hx; simpl.
  - exact Hx.
  - inversion Hall as [| c' convs' Hc Hrest]; subst.
    destruct Hc as [Hin Hout].
    apply IH; [exact Hrest |].
    simpl. rewrite Hx, Hin, Z.eqb_refl, Hout. reflexivity.
Qed.

Lemma conv_layers_square h d ids :
  Forall (fun l => layer_in l = d /\ layer_out l = d) (map (conv_layer h d d) ids).
Proof.
  induction ids as [| id ids IH]; simpl; constructor.
  - split; reflexivity.
  - exact IH.
Qed.

(** X1: after [init_model], the forward pass applies as many graph
    convolutions as the configuration says: [num_layers] of them between
    the two linear projections; one for [num_layers == 1] without linear
    projections; otherwise two plus [max(num_layers - 2, 0)], so never
    fewer than two (also for [num_layers <= 0]).  Feature dropout is applied
    once, whatever the depth, and not at all by the single convolution. *)
Theorem network_depth :
  forall (Env : Type) (B : Backend Env) n_class feature_num data (w w' : World Env),
    init_model n_class feature_num w = (Ok tt, w') ->
    let h := hyperparameters (self w) in
    exists e,
      forward data w' = (Ok e, w') /\
      conv_count e =
        (if hp_use_linear h then Z.to_nat (hp_num_layers h)
         else if hp_num_layers h =? 1 then 1%nat
         else (2 + Z.to_nat (hp_num_layers h - 2))%nat) /\
      linear_count e = (if hp_use_linear h then 2%nat else 0%nat) /\
      dropout_count e =
        (if hp_use_linear h then 1%nat
         else if hp_num_layers h =? 1 then 0%nat else 1%nat).
Proof.
  intros Env B n_class feature_num data w w' Hrun h.
  apply forward_of_init_model with (data := data) in Hrun.
  eexists. split; [exact Hrun |].
  unfold architecture. fold h.
  destruct (hp_use_linear h).
  - simpl. rewrite conv_count_apply_convs, linear_count_apply_convs,
      dropout_count_apply_convs, length_map, length_seq. simpl.
    repeat split; lia.
  - destruct (hp_num_layers h =? 1).
    + simpl. repeat split.
    + simpl. rewrite conv_count_apply_convs, linear_count_apply_convs,
        dropout_count_apply_convs, length_map, length_seq. simpl.
      repeat split; lia.
Qed.

Lemma network_depth_witness :
  let B := Scripted.backend Scenario.fading in
  let w := Scenario.created Scenario.fading in
  exists e,
    fst (@forward _ Scenario.graph (snd (@init_model _ B 2 3 w))) = Ok e /\
    conv_count e = 2%nat /\ linear_count e = 0%nat /\ dropout_count e = 1%nat.
Proof.
  intros B w.
  assert (Hrun : @init_model _ B 2 3 w = (Ok tt, snd (@init_model _ B 2 3 w)))
    by (vm_compute; reflexivity).
  destruct (@network_depth _ B 2 3 Scenario.graph w _ Hrun)
    as [e [Hf [Hc [Hl Hd]]]].
  exists e. rewrite Hf. split; [reflexivity |].
  split; [exact Hc |]. split; [exact Hl | exact Hd].
Defined.

(** X2: the layers that [init_model] creates fit together: in the forward
    pass every layer receives an input of the width it was built for, from
    the [feature_num] columns of the node features to the [n_class] columns
    of the result. *)
Theorem network_widths_fit :
  forall (Env : Type) (B : Backend Env) n_class feature_num data (w w' : World Env),
    init_model n_class feature_num w = (Ok tt, w') ->
    exists e,
      forward data w' = (Ok e, w') /\
      columns feature_num e = Some n_class.
Proof.
  intros Env B n_class feature_num data w w' Hrun.
  apply forward_of_init_model with (data := data) in Hrun.
  eexists. split; [exact Hrun |].
  unfold architecture.
  destruct (hp_use_linear (hyperparameters (self w))).
  - cbn [columns].
    rewrite (@columns_apply_convs feature_num
               (hidden_size_of (hp_hidden (hyperparameters (self w))))).
    + cbn [layer_in layer_out]. rewrite Z.eqb_refl. reflexivity.
    + apply conv_layers_square.
    + cbn [columns layer_in layer_out]. rewrite Z.eqb_refl. reflexivity.
  - destruct (hp_num_layers (hyperparameters (self w)) =? 1).
    + cbn [columns conv_layer layer_in layer_out]. rewrite Z.eqb_refl. reflexivity.
    + cbn [columns].
      rewrite (@columns_apply_convs feature_num
                 (hidden_size_of (hp_hidden (hyperparameters (self w))))).
      * cbn [conv_layer layer_in layer_out]. rewrite Z.eqb_refl. reflexivity.
      * apply conv_layers_square.
      * cbn [columns conv_layer layer_in layer_out]. rewrite Z.eqb_refl.
        reflexivity.
Qed.

Lemma network_widths_fit_witness :
  let B := Scripted.backend Scenario.fading in
  let w := snd (@trial_configure _ B 2 Scenario.after_round1) in
  exists e,
    fst (@forward _ Scenario.graph (snd (@init_model _ B 2 3 w))) = Ok e /\
    columns 3 e = Some 2.
Proof.
  intros B w.
  assert (Hrun : @init_model _ B 2 3 w = (Ok tt, snd (@init_model _ B 2 3 w)))
    by (vm_compute; reflexivity).
  destruct (@network_widths_fit _ B 2 3 Scenario.graph w _ Hrun) as [e [Hf Hc]].
  exists e. rewrite Hf. split; [reflexivity | exact Hc].
Defined.

(** ** Identities of the registered layers *)

Lemma modules_layers_set attr v ms l :
  In l (modules_layers (modules_set attr v ms)) ->
  In l (submodule_layers v) \/ In l (modules_layers ms).
Proof.
  unfold modules_layers.
  induction ms as [| [k u] ms IH]; simpl; intros H.
  - rewrite app_nil_r in H. left. exact H.
  - destruct (String.eqb k attr); simpl in H; apply in_app_or in H.
    + destruct H as [H | H]; [left; exact H |].
      right. apply in_or_app. right. exact H.
    + destruct H as [H | H].
      * right. apply in_or_app. left. exact H.
      * destruct (IH H) as [H' | H']; [left; exact H' |].
        right. apply in_or_app. right. exact H'.
Qed.

Lemma modules_get_In attr v ms l :
  modules_get attr ms = Some v ->
  In l (submodule_layers v) ->
  In l (modules_layers ms).
Proof.
  unfold modules_layers.
  induction ms as [| [k u] ms IH]; simpl; intros Hget Hin; [discriminate Hget |].
  apply in_or_app.
  destruct (String.eqb k attr).
  - inversion Hget; subst. left. exact Hin.
  - right. apply IH; assumption.
Qed.

Section Identities.
Context {Env : Type} {B : Backend Env}.

Lemma ensures_bind (A C : Type) (m : M Env A) (k : A -> M Env C)
    (pre : World Env -> Prop) mid post inv :
  ensures pre m mid inv ->
  (forall a, ensures (mid a) (k a) post inv) ->
  ensures pre (bind m k) post inv.
Proof.
  intros Hm Hk w Hpre. unfold bind. specialize (Hm w Hpre).
  destruct (m w) as [[a | e] w1]; [apply Hk; exact Hm | exact Hm].
Qed.

Lemma ensures_pre (A : Type) (m : M Env A) (pre pre' : World Env -> Prop) post inv :
  (forall w, pre' w -> pre w) ->
  ensures pre m post inv -> ensures pre' m post inv.
Proof. intros Himp Hm w Hpre. apply Hm, Himp, Hpre. Qed.

Lemma ids_kept_refl (w : World Env) : ids_kept w w.
Proof. intros H. exact H. Qed.

Lemma ids_kept_trans (w1 w2 w3 : World Env) :
  ids_kept w1 w2 -> ids_kept w2 w3 -> ids_kept w1 w3.
Proof. unfold ids_kept. auto. Qed.

Lemma ids_below_grow (w w' : World Env) :
  _modules (self w') = _modules (self w) ->
  (next_id w <= next_id w')%nat ->
  ids_below w -> ids_below w'.
Proof.
  unfold ids_below. intros Hm Hn H. rewrite Hm.
  eapply Forall_impl; [| exact H]. intros l Hl. simpl in Hl. lia.
Qed.

Lemma ids_kept_grow (w w' : World Env) :
  _modules (self w') = _modules (self w) ->
  (next_id w <= next_id w')%nat ->
  ids_kept w w'.
Proof. intros Hm Hn H. eapply ids_below_grow; eassumption. Qed.

Lemma ids_kept_external (A : Type) ev (f : Env -> result A * Env) :
  keeps ids_kept (external ev f).
Proof.
  intros w. unfold external. destruct (f (env w)) as [r env'].
  apply ids_kept_grow; simpl; auto.
Qed.

Lemma ids_kept_emit ev : keeps ids_kept (@emit Env ev).
Proof. intros w. apply ids_kept_grow; simpl; auto. Qed.

Lemma ids_kept_fresh : keeps ids_kept (@fresh_id Env).
Proof. intros w. apply ids_kept_grow; simpl; auto. Qed.

Lemma ids_kept_update (f : ARMA -> ARMA) :
  (forall a, _modules (f a) = _modules a) ->
  keeps ids_kept (@update_self Env f).
Proof. intros Hf w. apply ids_kept_grow; simpl; auto. Qed.

Lemma ensures_of_keeps (A : Type) (m : M Env A) :
  keeps ids_kept m -> ensures ids_below m (fun _ => ids_below) ids_below.
Proof.
  intros Hm w Hpre. specialize (Hm w).
  destruct (m w) as [[a | e] w']; simpl in Hm; apply Hm; exact Hpre.
Qed.

(** A new layer is below the next identity. *)
Lemma ensures_construct mk :
  (forall id, layer_id (mk id) = id) ->
  ensures ids_below (construct mk)
          (fun l (w : World Env) => ids_below w /\ (layer_id l < next_id w)%nat)
          ids_below.
Proof.
  intros Hmk w Hpre. unfold construct, bind, fresh_id, external, ret; simpl.
  assert (Hgrow : forall (env' : Env) evs,
             ids_below (mkWorld (self w) env' evs (S (next_id w)))).
  { intros env' evs. eapply ids_below_grow; [| | exact Hpre]; simpl; auto. }
  destruct (torch_op (op_construct (mk (next_id w))) (env w)) as [[[] | e] env'];
    simpl.
  - split; [apply Hgrow |]. rewrite Hmk. lia.
  - apply Hgrow.
Qed.

Lemma ensures_setattr attr v :
  ensures (fun w : World Env =>
             ids_below w /\
             Forall (fun l => (layer_id l < next_id w)%nat) (submodule_layers v))
          (setattr_module attr v) (fun _ => ids_below) ids_below.
Proof.
  intros w [Hpre Hv]. rewrite setattr_module_run.
  unfold ids_below in *; simpl. apply Forall_forall. intros l Hin.
  apply modules_layers_set in Hin. rewrite Forall_forall in Hpre, Hv.
  destruct Hin as [Hin | Hin]; [apply Hv | apply Hpre]; exact Hin.
Qed.

Lemma ensures_convs_append l :
  ensures (fun w : World Env => ids_below w /\ (layer_id l < next_id w)%nat)
          (convs_append l) (fun _ => ids_below) ids_below.
Proof.
  intros w [Hpre Hl].
  unfold convs_append, getattr_list, getattr_module.
  unfold bind, get_self, ret, raise.
  destruct (modules_get "convs" (_modules (self w))) as [[c | ls] |] eqn:Hget;
    simpl; try exact Hpre.
  apply (@ensures_setattr "convs" (ModuleList (ls ++ [l])) w).
  split; [exact Hpre |]. simpl. apply Forall_forall. intros x Hin.
  apply in_app_or in Hin.
  destruct Hin as [Hin | [Heq | []]]; [| rewrite <- Heq; exact Hl].
  unfold ids_below in Hpre. rewrite Forall_forall in Hpre. apply Hpre.
  eapply modules_get_In; [exact Hget | exact Hin].
Qed.

Lemma ensures_for_range k (body : M Env unit) :
  ensures ids_below body (fun _ => ids_below) ids_below ->
  ensures ids_below (for_range k body) (fun _ => ids_below) ids_below.
Proof.
  intros Hb. induction k as [| k IH]; simpl.
  - intros w Hpre. exact Hpre.
  - eapply ensures_bind; [exact Hb | intros u; exact IH].
Qed.

Lemma ensures_register mk attr (rest : M Env unit) :
  (forall id, layer_id (mk id) = id) ->
  ensures ids_below rest (fun _ => ids_below) ids_below ->
  ensures ids_below
          (l <- construct mk ;; setattr_module attr (Single l) ;; rest)
          (fun _ => ids_below) ids_below.
Proof.
  intros Hmk Hrest.
  eapply ensures_bind; [apply ensures_construct; exact Hmk |].
  intros l. eapply ensures_bind; [| intros u; exact Hrest].
  eapply ensures_pre; [| apply ensures_setattr].
  intros w [H1 H2]. split; [exact H1 |]. simpl. constructor; [exact H2 | constructor].
Qed.

Lemma ensures_done : ensures ids_below (@ret Env unit tt) (fun _ => ids_below) ids_below.
Proof. intros w H. exact H. Qed.

Lemma ensures_fill mk k :
  (forall id, layer_id (mk id) = id) ->
  ensures ids_below (for_range k (c <- construct mk ;; convs_append c))
          (fun _ => ids_below) ids_below.
Proof.
  intros Hmk. apply ensures_for_range.
  eapply ensures_bind; [apply ensures_construct; exact Hmk |].
  intros l. apply ensures_convs_append.
Qed.

End Identities.

Ltac ids_side :=
  solve
    [ apply ids_kept_refl
    | apply ids_kept_trans
    | intros; apply ids_kept_external
    | intros; apply ids_kept_emit
    | apply ids_kept_fresh
    | intros; apply ids_kept_update; intros; reflexivity ].

Section IdentitiesKept.
Context {Env : Type} {B : Backend Env}.

Lemma ensures_register_last mk attr :
  (forall id, layer_id (mk id) = id) ->
  ensures ids_below
          (l <- construct mk ;; setattr_module attr (Single l))
          (fun _ => ids_below) (@ids_below Env).
Proof.
  intros Hmk.
  eapply ensures_bind; [apply ensures_construct; exact Hmk |].
  intros l. eapply ensures_pre; [| apply ensures_setattr].
  intros w [H1 H2]. split; [exact H1 |]. simpl. constructor; [exact H2 | constructor].
Qed.

Lemma ensures_reset_convs (rest : M Env unit) :
  ensures ids_below rest (fun _ => ids_below) ids_below ->
  ensures ids_below (setattr_module "convs" (ModuleList []) ;; rest)
          (fun _ => ids_below) ids_below.
Proof.
  intros Hrest. eapply ensures_bind; [| intros u; exact Hrest].
  eapply ensures_pre; [| apply ensures_setattr].
  intros w H. split; [exact H | constructor].
Qed.

Lemma ensures_init_model n_class feature_num :
  ensures ids_below (init_model n_class feature_num)
          (fun _ => ids_below) (@ids_below Env).
Proof.
  unfold init_model.
  eapply ensures_bind;
    [apply ensures_of_keeps; apply keeps_get_self; apply ids_kept_refl |].
  intros a. cbv zeta.
  eapply ensures_bind.
  - destruct (hp_use_linear (hyperparameters a)).
    + apply ensures_register; [intros id; reflexivity |].
      apply ensures_reset_convs.
      eapply ensures_bind; [apply ensures_fill; intros id; reflexivity |].
      intros u. apply ensures_register_last. intros id; reflexivity.
    + destruct (hp_num_layers (hyperparameters a) =? 1).
      * apply ensures_register_last. intros id; reflexivity.
      * apply ensures_register; [intros id; reflexivity |].
        apply ensures_reset_convs.
        eapply ensures_bind; [apply ensures_fill; intros id; reflexivity |].
        intros u. apply ensures_register_last. intros id; reflexivity.
  - intros u. apply ensures_of_keeps.
    pose proof (@ids_kept_refl Env). pose proof (@ids_kept_trans Env).
    pose proof (@ids_kept_fresh Env).
    keeps_structure; ids_side.
Qed.

Lemma ids_kept_by_init_model n_class feature_num :
  keeps ids_kept (init_model n_class feature_num).
Proof.
  intros w Hpre. pose proof (@ensures_init_model n_class feature_num w Hpre) as H.
  destruct (init_model n_class feature_num w) as [[a | e] w']; exact H.
Qed.

Lemma ids_kept_by_forward data : keeps ids_kept (@forward Env data).
Proof. apply keeps_forward; ids_side. Qed.

Lemma ids_kept_by_train_valid data round_num :
  keeps ids_kept (train_valid data round_num).
Proof. apply keeps_train_valid; ids_side. Qed.

Lemma ids_kept_by_predict : keeps ids_kept (@predict Env).
Proof. apply keeps_predict; ids_side. Qed.

Lemma ids_kept_by_trial data round_num : keeps ids_kept (trial data round_num).
Proof.
  unfold trial, trial_configure, trial_round, trial_try, trial_except.
  pose proof (@ids_kept_refl Env). pose proof (@ids_kept_trans Env).
  pose proof ids_kept_by_init_model. pose proof ids_kept_by_train_valid.
  keeps_structure; ids_side.
Qed.

Lemma ids_below_after_calls (i : Info) (e : Env) (cs : list Call) :
  ids_below (run_calls cs (snd (__init__ i e))).
Proof.
  assert (Hstart : ids_below (snd (__init__ i e))).
  { unfold __init__, external; simpl.
    destruct (tuner_update_search_space (search_space i) e); constructor. }
  revert Hstart. generalize (snd (__init__ i e)).
  induction cs as [| c cs IH]; intros w Hw; simpl.
  - exact Hw.
  - apply IH. destruct c; simpl.
    + apply ids_kept_by_init_model; exact Hw.
    + apply ids_kept_by_forward; exact Hw.
    + apply ids_kept_by_train_valid; exact Hw.
    + apply ids_kept_by_trial; exact Hw.
    + apply ids_kept_by_predict; exact Hw.
Qed.

End IdentitiesKept.

(** X3: no warm start, whatever came before.  In every state the object
    can reach from its construction, every registered layer was created
    earlier (its identity is below the next one to be handed out); so after
    a call of [init_model] that returns, none of the layers the forward pass
    applies was registered before the call. *)
Theorem forward_uses_no_earlier_layer :
  forall (Env : Type) (B : Backend Env) (i : Info) (e0 : Env) (cs : list Call)
         n_class feature_num data w',
    let w := run_calls cs (snd (__init__ i e0)) in
    init_model n_class feature_num w = (Ok tt, w') ->
    ids_below w /\ ids_below w' /\
    exists e,
      forward data w' = (Ok e, w') /\
      forall l, In l (layers_used e) ->
        ~ In (layer_id l) (parameters (self w)) /\
        ~ In l (modules_layers (_modules (self w))).
Proof.
  intros Env B i e0 cs n_class feature_num data w' w Hrun.
  assert (Hw : ids_below w) by apply ids_below_after_calls.
  split; [exact Hw |]. split.
  - pose proof (@ids_kept_by_init_model _ B n_class feature_num) as H.
    specialize (H w Hw). rewrite Hrun in H. exact H.
  - apply forward_after_init_model with (data := data) in Hrun.
    destruct Hrun as [e [Hf Hfresh]].
    exists e. split; [exact Hf |].
    intros l Hin. destruct (Hfresh l Hin) as [[Hlow _] _].
    unfold ids_below in Hw. rewrite Forall_forall in Hw.
    assert (Hnot : ~ In l (modules_layers (_modules (self w)))).
    { intros Hold. specialize (Hw l Hold). simpl in Hw. lia. }
    split; [| exact Hnot].
    unfold parameters. intros Hold. apply in_map_iff in Hold.
    destruct Hold as [l' [Hid Hl']]. specialize (Hw l' Hl'). simpl in Hw. lia.
Qed.

Lemma forward_uses_no_earlier_layer_witness :
  let B := Scripted.backend Scenario.fading in
  let w := run_calls [call_trial Scenario.graph 1]
             (snd (@__init__ _ B Scenario.the_info Scripted.start)) in
  exists e,
    fst (@forward _ Scenario.graph (snd (@init_model _ B 2 3 w))) = Ok e /\
    forall l, In l (layers_used e) -> ~ In (layer_id l) (parameters (self w)).
Proof.
  intros B w.
  assert (Hrun : @init_model _ B 2 3 w = (Ok tt, snd (@init_model _ B 2 3 w)))
    by (vm_compute; reflexivity).
  destruct (@forward_uses_no_earlier_layer _ B Scenario.the_info Scripted.start
              [call_trial Scenario.graph 1] 2 3 Scenario.graph _ Hrun)
    as [_ [_ [e [Hf Hl]]]].
  exists e. split; [rewrite Hf; reflexivity |].
  intros l Hin. apply (Hl l Hin).
Defined.

(** ** Attributes across calls *)

Ltac view_side :=
  solve
    [ apply same_refl
    | apply same_trans
    | intros; intros ?w;
      unfold same, tuning_view, cache_view, fixed_attributes, external, emit,
        update_self, fresh_id, tuner_calls, torch_calls;
      simpl;
      try match goal with
          | |- context [let (_, _) := ?f ?e in _] => destruct (f e)
          end;
      simpl; rewrite ?filter_app; simpl; rewrite ?app_nil_r; reflexivity ].

Section AcrossCalls.
Context {Env : Type} {B : Backend Env}.

Lemma fixed_attributes_kept_by_call (c : Call) (w : World Env) :
  fixed_attributes (self (run_call c w)) = fixed_attributes (self w).
Proof.
  destruct c; simpl.
  - apply (@keeps_init_model Env B (same (fun w => fixed_attributes (self w))));
      view_side.
  - apply (@keeps_forward Env (same (fun w => fixed_attributes (self w))));
      view_side.
  - apply (@keeps_train_valid Env B (same (fun w => fixed_attributes (self w))));
      view_side.
  - apply (@keeps_trial Env B (same (fun w => fixed_attributes (self w))));
      view_side.
  - apply (@keeps_predict Env (same (fun w => fixed_attributes (self w))));
      view_side.
Qed.

Lemma tuning_view_kept_by_untuned_trial data round_num :
  round_num <= 1 ->
  keeps (same tuning_view) (trial data round_num).
Proof.
  intros Hr.
  unfold trial, trial_configure, trial_round, trial_try, trial_except.
  replace (2 <=? round_num) with false by (symmetry; apply Z.leb_gt; lia).
  replace (1 <? round_num) with false by (symmetry; apply Z.ltb_ge; lia).
  unfold when.
  assert (Hrefl : forall w : World Env, same tuning_view w w)
    by (intros; apply same_refl).
  assert (Htrans : forall w1 w2 w3 : World Env,
             same tuning_view w1 w2 -> same tuning_view w2 w3 ->
             same tuning_view w1 w3) by (intros; eapply same_trans; eassumption).
  assert (Hinit : forall n f, keeps (same tuning_view) (init_model n f))
    by (intros; apply keeps_init_model; view_side).
  assert (Htrain : forall d r, keeps (same tuning_view) (train_valid d r))
    by (intros; apply keeps_train_valid; view_side).
  keeps_structure; view_side.
Qed.

Lemma tuning_view_kept_by_call (c : Call) (w : World Env) :
  is_tuned_round c = false ->
  tuning_view (run_call c w) = tuning_view w.
Proof.
  destruct c; simpl; intros Hc.
  - apply (@keeps_init_model Env B (same tuning_view)); view_side.
  - apply (@keeps_forward Env (same tuning_view)); view_side.
  - apply (@keeps_train_valid Env B (same tuning_view)); view_side.
  - apply tuning_view_kept_by_untuned_trial. apply Z.leb_gt in Hc. lia.
  - apply (@keeps_predict Env (same tuning_view)); view_side.
Qed.

Lemma cache_view_kept_by_call (c : Call) (w : World Env) :
  is_training_call c = false ->
  cache_view (run_call c w) = cache_view w.
Proof.
  destruct c; simpl; intros Hc; try discriminate Hc.
  - apply (@keeps_init_model Env B (same cache_view)); view_side.
  - apply (@keeps_forward Env (same cache_view)); view_side.
  - apply (@keeps_predict Env (same cache_view)); view_side.
Qed.

End AcrossCalls.

(** X4: [info], [hist_score], [best_preds], the attribute
    [best_valid_score], [max_patience], [max_epochs], [name], [hidden] and
    [lr] are assigned by the constructor only: whatever methods are called
    afterwards, and however they end, [best_preds] is still [None],
    [hist_score] is still empty and the loop bounds are still 100 and
    1600. *)
Theorem attributes_assigned_once :
  forall (Env : Type) (B : Backend Env) (i : Info) (e : Env) (cs : list Call),
    fixed_attributes (self (run_calls cs (snd (__init__ i e)))) =
    (i, [], None, 0%Q, 100, 1600, "ARMA"%string, 16, (5 # 1000)%Q).
Proof.
  intros Env B i e cs.
  assert (Hstart : fixed_attributes (self (snd (__init__ i e))) =
                   (i, [], None, 0%Q, 100, 1600, "ARMA"%string, 16, (5 # 1000)%Q)).
  { unfold __init__, external; simpl.
    destruct (tuner_update_search_space (search_space i) e); reflexivity. }
  revert Hstart. generalize (snd (__init__ i e)).
  induction cs as [| c cs IH]; intros w Hw; simpl.
  - exact Hw.
  - apply IH. rewrite fixed_attributes_kept_by_call. exact Hw.
Qed.

(** X5: the configuration changes only in a call of [trial] with
    [round_num >= 2], and only such a call talks to the tuner: after any
    other calls ([init_model], [forward], [train_valid], [predict], [trial]
    with [round_num <= 1]), however they end, the configuration is the one
    built by the constructor and the tuner has only been given the search
    space. *)
Theorem configuration_changes_in_tuned_rounds_only :
  forall (Env : Type) (B : Backend Env) (i : Info) (e : Env) (cs : list Call),
    forallb (fun c => negb (is_tuned_round c)) cs = true ->
    let w := run_calls cs (snd (__init__ i e)) in
    hyperparameters (self w) = initial_hyperparameters i /\
    tuner_calls w = [ev_update_search_space (search_space i)].
Proof.
  intros Env B i e cs Hcs w.
  assert (Hstart : tuning_view (snd (__init__ i e)) =
                   (initial_hyperparameters i,
                    [ev_update_search_space (search_space i)])).
  { unfold __init__, external, tuning_view, tuner_calls; simpl.
    destruct (tuner_update_search_space (search_space i) e); reflexivity. }
  assert (Hw : tuning_view w =
               (initial_hyperparameters i,
                [ev_update_search_space (search_space i)])).
  { unfold w. revert Hstart Hcs. generalize (snd (__init__ i e)).
    induction cs as [| c cs IH]; intros w0 Hw0 Hcs; simpl.
    - exact Hw0.
    - simpl in Hcs. apply andb_true_iff in Hcs. destruct Hcs as [Hc Hcs].
      apply IH; [| exact Hcs].
      rewrite tuning_view_kept_by_call; [exact Hw0 |].
      apply negb_true_iff. exact Hc. }
  unfold tuning_view in Hw. injection Hw as Hh Ht. split; assumption.
Qed.

Lemma configuration_changes_in_tuned_rounds_only_witness :
  let B := Scripted.backend Scenario.fading in
  hyperparameters
    (self (run_calls [call_trial Scenario.graph 1; call_predict]
             (snd (@__init__ _ B Scenario.the_info Scripted.start))))
  = initial_hyperparameters Scenario.the_info.
Proof.
  intros B.
  destruct (@configuration_changes_in_tuned_rounds_only _ B Scenario.the_info
              Scripted.start [call_trial Scenario.graph 1; call_predict] eq_refl)
    as [Hh _].
  exact Hh.
Defined.

(** X6: the cache of test predictions is written by the epoch loop only.
    As long as neither [train_valid] nor [trial] has been called, [predict]
    raises [AttributeError] (the cache is [None]) and leaves the object as it
    is, whatever [init_model], [forward] and [predict] calls came before. *)
Theorem predict_before_training :
  forall (Env : Type) (B : Backend Env) (i : Info) (e : Env) (cs : list Call),
    forallb (fun c => negb (is_training_call c)) cs = true ->
    let w := run_calls cs (snd (__init__ i e)) in
    predict w = (Raise (AttributeErr "cpu"), w).
Proof.
  intros Env B i e cs Hcs w.
  assert (Hstart : cache_view (snd (__init__ i e)) = None).
  { unfold __init__, external, cache_view; simpl.
    destruct (tuner_update_search_space (search_space i) e); reflexivity. }
  assert (Hw : cache_view w = None).
  { unfold w. revert Hstart Hcs. generalize (snd (__init__ i e)).
    induction cs as [| c cs IH]; intros w0 Hw0 Hcs; simpl.
    - exact Hw0.
    - simpl in Hcs. apply andb_true_iff in Hcs. destruct Hcs as [Hc Hcs].
      apply IH; [| exact Hcs].
      rewrite cache_view_kept_by_call; [exact Hw0 |].
      apply negb_true_iff. exact Hc. }
  unfold cache_view in Hw. unfold predict, bind, get_self, raise.
  rewrite Hw. reflexivity.
Qed.

Lemma predict_before_training_witness :
  let B := Scripted.backend Scenario.fading in
  fst (@predict _
         (run_calls [call_init_model 2 3; call_forward Scenario.graph]
            (snd (@__init__ _ B Scenario.the_info Scripted.start))))
  = Raise (AttributeErr "cpu").
Proof.
  intros B.
  rewrite (@predict_before_training _ B Scenario.the_info Scripted.start
             [call_init_model 2 3; call_forward Scenario.graph] eq_refl).
  reflexivity.
Defined.

(** ** Range of the scores *)

Lemma meter_capped_new : meter_capped AverageMeter_new.
Proof.
  unfold meter_capped, AverageMeter_new; simpl.
  split; [apply Qle_refl |]. split; [lia | discriminate].
Qed.

Lemma meter_capped_update v m :
  (v <= 1)%Q -> meter_capped m -> meter_capped (AverageMeter_update v m).
Proof.
  intros Hv [Hs [Hc Ha]].
  destruct (AverageMeter_update_spec v m) as [Es [Ec Ea]].
  assert (Hs' : (meter_sum (AverageMeter_update v m)
                 <= inject_Z (meter_count (AverageMeter_update v m)))%Q).
  { rewrite Es, Ec, inject_Z_plus. apply Qplus_le_compat; assumption. }
  split; [exact Hs' |]. split; [lia |].
  rewrite Ea. apply Qle_shift_div_r.
  - rewrite Ec. change 0%Q with (inject_Z 0). rewrite <- Zlt_Qlt. lia.
  - rewrite Qmult_1_l. exact Hs'.
Qed.

Section ScoreRange.
Context {Env : Type} {B : Backend Env}.

Lemma meter_capped_step data (p c : Frame * World Env) :
  f1_score_at_most_one ->
  meter_capped (valid_acc_meter (fst p)) ->
  epoch_step data p c ->
  meter_capped (valid_acc_meter (fst c)).
Proof.
  intros Hf1 Hm [v [tp [_ [_ [[yv [vp Hv]] [_ [Hup _]]]]]]].
  rewrite Hup. apply meter_capped_update; [| assumption].
  eapply Hf1. exact Hv.
Qed.

Lemma train_valid_range data round_num (w : World Env) v w' :
  f1_score_at_most_one ->
  train_valid data round_num w = (Ok v, w') ->
  (0 <= v)%Q /\ (v <= 1)%Q.
Proof.
  intros Hf1 Hrun.
  apply train_valid_Ok in Hrun. cbv zeta in Hrun. destruct Hrun as [Hv _].
  pose proof (epoch_frames_chain data (Z.to_nat (max_epochs (self w)))
                (initial_frame (self w)) w) as Hchain.
  fold (train_valid_frames data w) in Hchain.
  pose proof Hchain as Hbest. apply best_is_largest_mean in Hbest.
  cbv zeta in Hbest. rewrite <- Hv in Hbest.
  destruct Hbest as [Hlow [_ Hex]]. simpl in Hlow.
  split; [exact Hlow |].
  destruct Hex as [Hzero | Hex].
  - simpl in Hzero. rewrite Hzero. discriminate.
  - assert (Hcap : Forall (fun x : Frame * World Env =>
                             meter_capped (valid_acc_meter (fst x)))
                          (train_valid_frames data w)).
    { eapply chain_Forall; [| | exact Hchain].
      - intros a b Ha Hab. eapply meter_capped_step; eassumption.
      - simpl. apply meter_capped_new. }
    apply Exists_exists in Hex. destruct Hex as [x [Hin Hx]].
    rewrite Forall_forall in Hcap. destruct (Hcap x Hin) as [_ [_ Hone]].
    rewrite <- Hx. exact Hone.
Qed.

(** The score [trial] returns is 0 or the one [train_valid] returned. *)
Lemma trial_score_source data round_num (w : World Env) v w' :
  trial data round_num w = (Ok v, w') ->
  v = 0%Q \/ exists wm wt, train_valid data round_num wm = (Ok v, wt).
Proof.
  intros Ht. rewrite trial_unfold in Ht.
  apply bind_Ok in Ht. destruct Ht as [[] [w1 [Hc Hr]]].
  unfold trial_round in Hr. apply bind_Ok in Hr.
  destruct Hr as [out [w2 [Htry Hfin]]].
  unfold try_except_RuntimeError in Htry.
  pose proof (trial_try_outcome data round_num (info_n_class (info (self w)))
                (x_shape1 data) w1) as Hout.
  destruct (trial_try data round_num (info_n_class (info (self w))) (x_shape1 data) w1)
    as [[out' | e] wx]; simpl in Hout.
  - inversion Htry; subst out' wx; clear Htry.
    destruct Hout as [_ [_ [v0 [wm [wt [Hout [_ [Htv _]]]]]]]].
    subst out. unfold bind, get_self, emit, ret in Hfin; simpl in Hfin.
    inversion Hfin; subst. right. exists wm, wt. exact Htv.
  - destruct (is_RuntimeError e); [| discriminate Htry].
    unfold trial_except, bind, get_self, emit, when, external, ret in Htry.
    simpl in Htry.
    destruct (1 <? round_num); simpl in Htry.
    + destruct (tuner_receive_trial_result (round_num - 1)
                  (hyperparameters (self wx)) 0 (env wx)) as [[[] | x] env'];
        simpl in Htry; inversion Htry; subst; clear Htry.
      unfold ret in Hfin. inversion Hfin; subst. left. reflexivity.
    + inversion Htry; subst; clear Htry.
      unfold ret in Hfin. inversion Hfin; subst. left. reflexivity.
Qed.

End ScoreRange.

(** X7: when the metric is at most 1, as an F1 score is, the score that
    [train_valid] returns lies between 0 and 1, and so does the score that
    [trial] returns; the lower bound does not depend on the metric, since
    the best mean starts at 0 and only grows. *)
Theorem scores_between_0_and_1 :
  forall (Env : Type) (B : Backend Env) data round_num (w : World Env) v w',
    f1_score_at_most_one ->
    (train_valid data round_num w = (Ok v, w') ->
     (0 <= v)%Q /\ (v <= 1)%Q) /\
    (trial data round_num w = (Ok v, w') ->
     (0 <= v)%Q /\ (v <= 1)%Q).
Proof.
  intros Env B data round_num w v w' Hf1. split.
  - intros Hrun. eapply train_valid_range; eassumption.
  - intros Ht. apply trial_score_source in Ht.
    destruct Ht as [Hz | [wm [wt Htv]]].
    + subst v. split; discriminate.
    + eapply train_valid_range; eassumption.
Qed.

Lemma accuracy_at_most_one (sc : Scripted.Script) :
  @f1_score_at_most_one _ (Scripted.backend sc).
Proof.
  intros labels p v H. simpl in H. unfold Scripted.accuracy in H.
  assert (Hhits : forall ls ps, (Scripted.hits ls ps <= List.length ls)%nat).
  { induction ls as [| l ls IH]; intros ps; simpl; [lia |].
    destruct ps as [| row ps]; [lia |].
    specialize (IH ps). destruct (l =? Scripted.argmax row); lia. }
  destruct labels as [| l labels].
  - inversion H; subst. discriminate.
  - specialize (Hhits (l :: labels) p).
    assert (Hn : List.length (l :: labels) <> O) by discriminate.
    revert H Hhits Hn.
    generalize (Scripted.hits (l :: labels) p) (List.length (l :: labels)).
    intros h n H Hhits Hn. inversion H; subst; clear H.
    unfold Qle. cbn [Qnum Qden].
    rewrite <- (positive_nat_Z (Pos.of_nat n)), Nat2Pos.id by exact Hn. lia.
Qed.

Lemma scores_between_0_and_1_witness :
  let B := Scripted.backend Scenario.fading in
  @trial _ B Scenario.graph 2 Scenario.after_round1
    = (Ok (1 # 2)%Q, Scenario.after_round2) /\
  (0 <= 1 # 2)%Q /\ (1 # 2 <= 1)%Q.
Proof.
  intros B.
  assert (Ht : @trial _ B Scenario.graph 2 Scenario.after_round1
               = (Ok (1 # 2)%Q, Scenario.after_round2)) by (vm_compute; reflexivity).
  split; [exact Ht |].
  destruct (@scores_between_0_and_1 _ B Scenario.graph 2 Scenario.after_round1
              (1 # 2)%Q Scenario.after_round2 (accuracy_at_most_one Scenario.fading))
    as [_ Htrial].
  exact (Htrial Ht).
Defined.

(** ** How long the epoch loop runs *)

Section RunLength.
Context {Env : Type} {B : Backend Env}.

(** An iteration lowers the counter by one at most. *)
Lemma patience_drops_slowly data bound : forall xs (p : Frame * World Env),
  chain (fun a b => patience_within bound a /\
                    (patience (fst a) <> 0 /\ epoch_step data a b)) p xs ->
  patience (fst p) - Z.of_nat (List.length xs) <= patience (fst (last xs p)).
Proof.
  induction xs as [| x xs IH]; intros p H; simpl chain in H.
  - simpl. lia.
  - destruct H as [[[Hp Hm] [_ Hstep]] Hrest].
    specialize (IH x Hrest). rewrite last_cons.
    destruct Hstep as [v [tp [_ [_ [_ [_ [_ [_ [_ Hif]]]]]]]]].
    assert (Hx : patience (fst p) - 1 <= patience (fst x)).
    { destruct (Qlt_bool (loc_best_valid_score (fst p)) (avg (valid_acc_meter (fst x)))).
      - destruct Hif as [Hpat _]. rewrite Hpat, Hm. lia.
      - destruct Hif as [Hpat _]. rewrite Hpat. lia. }
    simpl List.length. lia.
Qed.

End RunLength.

(** X8: a call of [train_valid] that returns has executed at least
    [min(max_patience, max_epochs)] iterations: with the bounds of the
    constructor, never fewer than 100 epochs, since an iteration lowers the
    patience counter by one at most. *)
Theorem training_runs_at_least_patience_epochs :
  forall (Env : Type) (B : Backend Env) data round_num (w : World Env) v w',
    train_valid data round_num w = (Ok v, w') ->
    Z.min (max_patience (self w)) (max_epochs (self w))
      <= Z.of_nat (List.length (train_valid_frames data w)).
Proof.
  intros Env B data round_num w v w' Hrun.
  destruct (Z_le_gt_dec (max_patience (self w)) 0) as [Hle | Hgt]; [lia |].
  apply train_valid_Ok in Hrun. cbv zeta in Hrun.
  destruct Hrun as [_ [_ [Hfull | [_ Hzero]]]].
  - rewrite Hfull. lia.
  - assert (Hgo : chain (fun p c => patience (fst p) <> 0 /\ epoch_step data p c)
                        (initial_frame (self w), w) (train_valid_frames data w)).
    { apply epoch_frames_chain_going. simpl. lia. }
    assert (Hinv0 : patience_within (max_patience (self w))
                      (initial_frame (self w), w)).
    { unfold patience_within; simpl. split; [lia | reflexivity]. }
    assert (Hchain : chain (fun a b => patience_within (max_patience (self w)) a /\
                                       (patience (fst a) <> 0 /\ epoch_step data a b))
                           (initial_frame (self w), w) (train_valid_frames data w)).
    { apply chain_with_invariant; [| exact Hinv0 | exact Hgo].
      intros a b Ha Hab. eapply patience_within_step; [lia | exact Ha | exact Hab]. }
    apply patience_drops_slowly in Hchain.
    rewrite Hzero in Hchain. simpl in Hchain. lia.
Qed.

Lemma training_runs_at_least_patience_epochs_witness :
  let B := Scripted.backend Scenario.fading in
  let w := snd (@init_model _ B 2 3 (Scenario.created Scenario.fading)) in
  100 <= Z.of_nat (List.length (@train_valid_frames _ B Scenario.graph w)).
Proof.
  intros B w.
  assert (Hrun : @train_valid _ B Scenario.graph 1 w
                 = (Ok 1%Q, snd (@train_valid _ B Scenario.graph 1 w)))
    by (vm_compute; reflexivity).
  pose proof (@training_runs_at_least_patience_epochs _ B Scenario.graph 1 w _ _ Hrun)
    as H.
  change (max_patience (self w)) with 100 in H.
  change (max_epochs (self w)) with 1600 in H.
  exact H.
Defined.

(** ** The calls of one epoch *)

Lemma in_mode_apply_convs mode convs edges : forall x,
  edges_in_mode mode edges = true ->
  in_mode mode x = true ->
  in_mode mode (apply_convs convs edges x) = true.
Proof.
  induction convs as [| c convs IH]; intros x He Hx; simpl.
  - exact Hx.
  - apply IH; [exact He |]. simpl. rewrite He, Hx. reflexivity.
Qed.

Section EpochCalls.
Context {Env : Type} {B : Backend Env}.

Lemma edges_of_in_mode (a : ARMA) : edges_in_mode (training a) (edges_of a) = true.
Proof.
  unfold edges_of. destruct (hp_dropedge_rate (hyperparameters a)); simpl.
  - apply eqb_reflx.
  - reflexivity.
Qed.

(** Every stochastic operator of a forward pass runs in the mode the
    object is in. *)
Lemma forward_in_mode data (w : World Env) e w' :
  forward data w = (Ok e, w') ->
  in_mode (training (self w)) e = true.
Proof.
  pose proof (edges_of_in_mode (self w)) as He. unfold edges_of in He.
  unfold forward, getattr_layer, getattr_list, getattr_module.
  unfold bind, get_self, ret, raise. simpl.
  destruct (hp_use_linear (hyperparameters (self w))).
  - destruct (modules_get "input_lin" (_modules (self w))) as [[l1 | ?] |];
      simpl; try (intros H; discriminate H).
    destruct (modules_get "convs" (_modules (self w))) as [[? | ls] |];
      simpl; try (intros H; discriminate H).
    destruct (modules_get "output_lin" (_modules (self w))) as [[l2 | ?] |];
      simpl; try (intros H; discriminate H).
    intros H. inversion H; subst; clear H. simpl.
    apply in_mode_apply_convs; [exact He |].
    simpl. rewrite eqb_reflx. reflexivity.
  - destruct (modules_get "conv1" (_modules (self w))) as [[c1 | ?] |];
      simpl; try (intros H; discriminate H).
    destruct (hp_num_layers (hyperparameters (self w)) =? 1).
    + intros H. inversion H; subst; clear H. simpl. rewrite He. reflexivity.
    + destruct (modules_get "convs" (_modules (self w))) as [[? | ls] |];
        simpl; try (intros H; discriminate H).
      destruct (modules_get "conv2" (_modules (self w))) as [[c2 | ?] |];
        simpl; try (intros H; discriminate H).
      intros H. inversion H; subst; clear H. simpl. rewrite He. simpl.
      apply in_mode_apply_convs; [exact He |].
      simpl. rewrite eqb_reflx, He. reflexivity.
Qed.

Lemma forward_Ok data (w : World Env) e w' :
  forward data w = (Ok e, w') ->
  w' = w /\ in_mode (training (self w)) e = true.
Proof.
  intros H. split; [| eapply forward_in_mode; exact H].
  pose proof (forward_pure data w) as Hp. rewrite H in Hp. exact Hp.
Qed.

(** The result of a forward pass depends on the object only. *)
Lemma forward_self data (w1 w2 : World Env) :
  self w1 = self w2 -> fst (forward data w1) = fst (forward data w2).
Proof.
  destruct w1 as [a e1 evs1 n1]. destruct w2 as [a2 e2 evs2 n2].
  simpl. intros H. subst a2.
  unfold forward, getattr_layer, getattr_list, getattr_module.
  unfold bind, get_self, ret, raise. cbv beta iota delta [self fst].
  destruct (hp_use_linear (hyperparameters a)).
  - destruct (modules_get "input_lin" (_modules a)) as [[l1 | ?] |];
      cbv beta iota delta [self fst]; try reflexivity.
    destruct (modules_get "convs" (_modules a)) as [[? | ls] |];
      cbv beta iota delta [self fst]; try reflexivity.
    destruct (modules_get "output_lin" (_modules a)) as [[l2 | ?] |];
      cbv beta iota delta [self fst]; reflexivity.
  - destruct (modules_get "conv1" (_modules a)) as [[c1 | ?] |];
      cbv beta iota delta [self fst]; try reflexivity.
    destruct (hp_num_layers (hyperparameters a) =? 1); [reflexivity |].
    destruct (modules_get "convs" (_modules a)) as [[? | ls] |];
      cbv beta iota delta [self fst]; try reflexivity.
    destruct (modules_get "conv2" (_modules a)) as [[c2 | ?] |];
      cbv beta iota delta [self fst]; reflexivity.
Qed.

Lemma epoch_train_Ok data (w w' : World Env) :
  epoch_train data w = (Ok tt, w') ->
  exists o preds,
    optimizer (self w) = Some o /\
    fst (forward data (train_world w)) = Ok preds /\
    in_mode true preds = true /\
    events w' = events w ++ [ev_torch (op_zero_grad o);
                             ev_torch (op_train_step preds data o)] /\
    self w' = set_training true (self w).
Proof.
  intros H. unfold epoch_train in H.
  apply bind_Ok in H. destruct H as [[] [w1 [H1 H]]].
  unfold update_self in H1. inversion H1; subst w1; clear H1.
  apply bind_Ok in H. destruct H as [o [w2 [H2 H]]].
  unfold getattr_optimizer, bind, get_self, ret, raise in H2. simpl in H2.
  destruct (optimizer (self w)) as [o' |] eqn:Hopt; inversion H2; subst; clear H2.
  apply bind_Ok in H. destruct H as [[] [w3 [H3 H]]].
  rewrite external_run in H3. inversion H3 as [[Hr Hw3]]; clear H3.
  apply bind_Ok in H. destruct H as [preds [w4 [H4 H]]].
  assert (Hfw : fst (forward data (train_world w)) = Ok preds).
  { rewrite (@forward_self data (train_world w) w3);
      [rewrite H4; reflexivity | rewrite <- Hw3; reflexivity]. }
  apply forward_Ok in H4. destruct H4 as [Hw4 Hmode]. subst w4.
  rewrite external_run in H. inversion H as [[Hr' Hw']]; clear H.
  exists o, preds. rewrite <- Hw3 in *. simpl in *.
  split; [reflexivity |]. split; [exact Hfw |]. split; [exact Hmode |].
  split; [rewrite <- app_assoc; reflexivity | reflexivity].
Qed.

Lemma epoch_valid_calls data (w : World Env) scored w' :
  epoch_valid data w = (Ok scored, w') ->
  exists logits,
    fst (forward data (eval_world w)) = Ok logits /\
    in_mode false logits = true /\
    events w' = events w ++ [ev_softmax logits] /\
    training (self w') = false /\
    optimizer (self w') = optimizer (self w).
Proof.
  intros H. unfold epoch_valid in H.
  apply bind_Ok in H. destruct H as [[] [w1 [H1 H]]].
  unfold update_self in H1. inversion H1; subst w1; clear H1.
  apply bind_Ok in H. destruct H as [logits [w2 [H2 H]]].
  assert (Hfw : fst (forward data (eval_world w)) = Ok logits).
  { unfold eval_world. rewrite H2. reflexivity. }
  apply forward_Ok in H2. destruct H2 as [Hw2 Hmode]. subst w2.
  apply bind_Ok in H. destruct H as [preds [w3 [H3 H]]].
  rewrite external_run in H3. inversion H3 as [[Hr Hw3]]; clear H3.
  apply bind_Ok in H. destruct H as [vp [w4 [H4 H]]].
  apply lift_Ok in H4. destruct H4 as [_ ->].
  apply bind_Ok in H. destruct H as [tp [w5 [H5 H]]].
  apply lift_Ok in H5. destruct H5 as [_ ->].
  apply bind_Ok in H. destruct H as [yv [w6 [H6 H]]].
  apply lift_Ok in H6. destruct H6 as [_ ->].
  apply bind_Ok in H. destruct H as [vs [w7 [H7 H]]].
  apply lift_Ok in H7. destruct H7 as [_ ->].
  inversion H; subst; clear H.
  exists logits. simpl in *. split; [exact Hfw |]. repeat split. exact Hmode.
Qed.

End EpochCalls.

(** X9: the order and the modes of an iteration of the epoch loop that
    completes.  The gradients are reset first; the training step (loss,
    backward pass and optimizer step) is taken on the result of [forward]
    in training mode, in which every dropout of features or edges is
    active; the softmax comes last, of the result of [forward] in
    evaluation mode, in which every dropout is inactive; nothing else is
    logged, and the module is left in evaluation mode. *)
Theorem epoch_calls_and_modes :
  forall (Env : Type) (B : Backend Env) data f (w : World Env) f' w',
    epoch_body data f w = (Ok f', w') ->
    exists o preds logits,
      optimizer (self w) = Some o /\
      fst (forward data (train_world w)) = Ok preds /\
      in_mode true preds = true /\
      fst (forward data (eval_world w)) = Ok logits /\
      in_mode false logits = true /\
      events w' = events w ++ epoch_events o data preds logits /\
      training (self w') = false.
Proof.
  intros Env B data f w f' w' H. unfold epoch_body in H.
  apply bind_Ok in H. destruct H as [[] [w1 [Ht H]]].
  apply bind_Ok in H. destruct H as [scored [w2 [Hv H]]].
  apply epoch_train_Ok in Ht.
  destruct Ht as [o [preds [Ho [Hfp [Hp [He1 Hself]]]]]].
  apply epoch_valid_calls in Hv.
  destruct Hv as [logits [Hfl [Hl [He2 [Htr _]]]]].
  exists o, preds, logits.
  assert (Hend : events w' = events w2 /\ training (self w') = training (self w2)).
  { cbv zeta in H. unfold bind, get_self, update_self, ret in H.
    destruct (Qlt_bool (loc_best_valid_score f)
                (avg (AverageMeter_update (fst scored) (valid_acc_meter f))));
      inversion H; subst; simpl; split; reflexivity. }
  destruct Hend as [Hev Htr'].
  split; [exact Ho |]. split; [exact Hfp |]. split; [exact Hp |].
  split.
  - rewrite <- Hfl. apply forward_self.
    unfold eval_world. cbn [self]. rewrite Hself. reflexivity.
  - split; [exact Hl |]. split.
    + rewrite Hev, He2, He1, <- app_assoc. reflexivity.
    + congruence.
Qed.

Lemma epoch_calls_and_modes_witness :
  let B := Scripted.backend Scenario.fading in
  let w := snd (@init_model _ B 2 3 (Scenario.created Scenario.fading)) in
  training (self (snd (@epoch_body _ B Scenario.graph (initial_frame (self w)) w)))
  = false.
Proof.
  intros B w.
  assert (Hrun : exists f', @epoch_body _ B Scenario.graph (initial_frame (self w)) w
                 = (Ok f', snd (@epoch_body _ B Scenario.graph (initial_frame (self w)) w))).
  { eexists. vm_compute. reflexivity. }
  destruct Hrun as [f' Hrun].
  destruct (@epoch_calls_and_modes _ B Scenario.graph _ w f' _ Hrun)
    as [o [preds [logits [_ [_ [_ [_ [_ [_ Htr]]]]]]]]].
  exact Htr.
Defined.

(** ** The tuner's side of a round *)

Section TunerProtocol.
Context {Env : Type} {B : Backend Env}.

Lemma tuner_calls_app (w w1 : World Env) evs :
  events w1 = events w ++ evs ->
  tuner_calls w1 = tuner_calls w ++ filter is_tuner_event evs.
Proof. intros H. unfold tuner_calls. rewrite H. apply filter_app. Qed.

(** What the [try] block of a round [round_num > 1] tells the tuner, on
    either way out. *)
Lemma trial_try_reports data round_num n_class feature_num (w : World Env) :
  1 < round_num ->
  let res := trial_try data round_num n_class feature_num w in
  let h := hyperparameters (self w) in
  hyperparameters (self (snd res)) = h /\
  match fst res with
  | Ok out =>
      exists v, out = exit_break v /\
        tuner_calls (snd res) =
          tuner_calls w ++ [ev_receive_trial_result (round_num - 1) h v]
  | Raise e =>
      tuner_calls (snd res) = tuner_calls w \/
      exists v0, tuner_calls (snd res) =
                   tuner_calls w ++ [ev_receive_trial_result (round_num - 1) h v0]
  end.
Proof.
  intros Hr. unfold trial_try, bind.
  pose proof (round_config_kept_by_init_model n_class feature_num w) as C1.
  pose proof (tuner_calls_kept_by_init_model n_class feature_num w) as T1.
  destruct (init_model n_class feature_num w) as [[[] | e] wm] eqn:Hi;
    unfold same, round_config in C1, T1; simpl in C1, T1;
    injection C1 as Hh Hb; simpl; [| auto].
  pose proof (round_config_kept_by_train_valid data round_num wm) as C2.
  pose proof (tuner_calls_kept_by_train_valid data round_num wm) as T2.
  destruct (train_valid data round_num wm) as [[v | e] wt] eqn:Ht;
    unfold same, round_config in C2, T2; simpl in C2, T2;
    injection C2 as Hh2 Hb2; simpl; [| split; [congruence | left; congruence]].
  replace (1 <? round_num) with true by (symmetry; apply Z.ltb_lt; lia).
  unfold get_self, when, external, update_self, ret; simpl.
  assert (Hhh : hyperparameters (self wt) = hyperparameters (self w)) by congruence.
  assert (Htt : tuner_calls wt = tuner_calls w) by congruence.
  destruct (tuner_receive_trial_result (round_num - 1) (hyperparameters (self wt)) v (env wt))
    as [[[] | e] env']; simpl.
  - destruct (Qlt_bool (best_score (self wt)) v); simpl;
      (split; [exact Hhh |]); exists v; (split; [reflexivity |]);
      unfold tuner_calls in *; simpl; rewrite filter_app, Htt, Hhh; reflexivity.
  - split; [exact Hhh |]. right. exists v.
    unfold tuner_calls in *; simpl. rewrite filter_app, Htt, Hhh. reflexivity.
Qed.

End TunerProtocol.

(** X10: what the tuner hears of a round [round_num > 1] whose call of
    [trial] returns [v].  It is asked once for the configuration of index
    [round_num - 1], and then receives the round's score for that index and
    that configuration: one report of [v], or, when the report of a
    training score [v0] itself raised a [RuntimeError], that report
    followed by a second report of 0 for the same index (and [trial]
    returns 0). *)
Theorem tuner_protocol_of_a_round :
  forall (Env : Type) (B : Backend Env) data round_num (w : World Env) v w',
    1 < round_num ->
    trial data round_num w = (Ok v, w') ->
    let h := hyperparameters (self w') in
    let i := round_num - 1 in
    tuner_calls w' =
      tuner_calls w ++ [ev_generate_parameters i; ev_receive_trial_result i h v]
    \/ (v = 0%Q /\ exists v0,
        tuner_calls w' =
          tuner_calls w ++ [ev_generate_parameters i;
                            ev_receive_trial_result i h v0;
                            ev_receive_trial_result i h 0]).
Proof.
  intros Env B data round_num w v w' Hr Ht h i. subst h i.
  rewrite trial_unfold in Ht.
  apply bind_Ok in Ht. destruct Ht as [[] [w1 [Hc Hround]]].
  destruct (tuner_generate_parameters (round_num - 1) (env w)) as [[h | e] env'] eqn:Hgen.
  2: { rewrite (trial_configure_raises _ Hr Hgen) in Hc. discriminate Hc. }
  rewrite (trial_configure_later _ Hr Hgen) in Hc.
  inversion Hc as [Hw1]; clear Hc.
  assert (T1 : tuner_calls w1 = tuner_calls w ++ [ev_generate_parameters (round_num - 1)]).
  { subst w1. unfold tuner_calls; simpl. rewrite filter_app. reflexivity. }
  assert (H1 : hyperparameters (self w1) = h) by (subst w1; reflexivity).
  clear Hw1.
  unfold trial_round in Hround. apply bind_Ok in Hround.
  destruct Hround as [out [w2 [Htry Hfin]]].
  unfold try_except_RuntimeError in Htry.
  pose proof (trial_try_reports data (info_n_class (info (self w))) (x_shape1 data)
                w1 Hr) as Hrep.
  destruct (trial_try data round_num (info_n_class (info (self w))) (x_shape1 data) w1)
    as [[out' | e] wx]; simpl in Hrep; destruct Hrep as [Hh Hrep].
  - inversion Htry; subst out' wx; clear Htry.
    destruct Hrep as [v0 [Hout Hcalls]]. subst out.
    unfold bind, get_self, emit, ret in Hfin; simpl in Hfin.
    inversion Hfin; subst v w'; clear Hfin. left.
    unfold tuner_calls in *; simpl. rewrite filter_app; simpl.
    rewrite app_nil_r, Hcalls, T1, Hh, H1, <- app_assoc. reflexivity.
  - destruct (is_RuntimeError e); [| discriminate Htry].
    unfold trial_except in Htry.
    replace (1 <? round_num) with true in Htry by (symmetry; apply Z.ltb_lt; lia).
    unfold bind, get_self, emit, when, external, ret in Htry; simpl in Htry.
    destruct (tuner_receive_trial_result (round_num - 1)
                (hyperparameters (self wx)) 0 (env wx)) as [[[] | x] env''];
      simpl in Htry; inversion Htry; subst out w2; clear Htry.
    unfold ret in Hfin. inversion Hfin; subst v w'; clear Hfin.
    unfold tuner_calls in *; simpl.
    rewrite <- app_assoc, filter_app; simpl.
    destruct Hrep as [Hcalls | [v0 Hcalls]]; rewrite Hcalls, T1, Hh, H1.
    + left. rewrite <- app_assoc. reflexivity.
    + right. split; [reflexivity |]. exists v0.
      rewrite <- !app_assoc. reflexivity.
Qed.

Lemma tuner_protocol_of_a_round_witness :
  let B := Scripted.backend Scenario.fading in
  let res := @trial _ B Scenario.graph 2 Scenario.after_round1 in
  exists v,
    fst res = Ok v /\
    tuner_calls (snd res) =
      tuner_calls Scenario.after_round1 ++
      [ev_generate_parameters 1; ev_receive_trial_result 1 Scenario.proposal v].
Proof.
  intros B res.
  assert (Hrun : exists v, res = (Ok v, snd res)).
  { eexists. vm_compute. reflexivity. }
  destruct Hrun as [v Hrun]. exists v. split; [rewrite Hrun; reflexivity |].
  destruct (@tuner_protocol_of_a_round _ B Scenario.graph 2 Scenario.after_round1
              v (snd res) ltac:(lia) Hrun) as [H | [_ [v0 H]]].
  - rewrite H. vm_compute. reflexivity.
  - exfalso. revert H. vm_compute. discriminate.
Defined.

(** ** The cache of a training run that fails *)

Section FailedRuns.
Context {Env : Type} {B : Backend Env}.

Lemma cache_view_kept_by_epoch_train data :
  keeps (same cache_view) (epoch_train (Env := Env) data).
Proof. apply keeps_epoch_train; view_side. Qed.

Lemma cache_view_kept_by_epoch_valid data :
  keeps (same cache_view) (epoch_valid (Env := Env) data).
Proof. apply keeps_epoch_valid; view_side. Qed.

(** The cache is written by the last statement of an iteration: one that
    raises has not touched it. *)
Lemma epoch_body_Raise data f (w : World Env) e w' :
  epoch_body data f w = (Raise e, w') ->
  cache_view w' = cache_view w.
Proof.
  intros H. unfold epoch_body in H.
  pose proof (cache_view_kept_by_epoch_train data w) as Kt.
  apply bind_Raise in H. destruct H as [H | [[] [w1 [Ht H]]]].
  - rewrite H in Kt. exact Kt.
  - rewrite Ht in Kt. unfold same in Kt; simpl in Kt.
    pose proof (cache_view_kept_by_epoch_valid data w1) as Kv.
    apply bind_Raise in H. destruct H as [H | [scored [w2 [Hv H]]]].
    + rewrite H in Kv. unfold same in Kv; simpl in Kv. congruence.
    + exfalso. cbv zeta in H. unfold bind, get_self, update_self, ret in H.
      destruct (Qlt_bool (loc_best_valid_score f)
                  (avg (AverageMeter_update (fst scored) (valid_acc_meter f))));
        discriminate H.
Qed.

(** However the loop is left, the cache is the one of its last completed
    iteration. *)
Lemma epoch_loop_cache data n : forall f (w : World Env),
  cache_view (snd (epoch_loop n data f w)) =
  cache_view (last (map snd (epoch_frames n data f w)) w).
Proof.
  induction n as [| n IH]; intros f w; [reflexivity |].
  simpl. unfold bind.
  destruct (epoch_body data f w) as [[f' | e] w1] eqn:Hb.
  - destruct (patience f' =? 0).
    + reflexivity.
    + rewrite IH. cbn [map snd]. rewrite last_cons. reflexivity.
  - simpl. eapply epoch_body_Raise. exact Hb.
Qed.

Lemma train_valid_cache_of_last data round_num (w : World Env) :
  cache_view (snd (train_valid data round_num w)) =
  cache_view (last (map snd (train_valid_frames data w)) w).
Proof.
  unfold train_valid_frames. rewrite <- epoch_loop_cache.
  unfold train_valid, bind, get_self, ret; simpl.
  destruct (epoch_loop (Z.to_nat (max_epochs (self w))) data (initial_frame (self w)) w)
    as [[f | e] w1]; reflexivity.
Qed.

Lemma cache_view_last (ws : list (World Env)) (w1 w2 : World Env) :
  cache_view w1 = cache_view w2 ->
  cache_view (last ws w1) = cache_view (last ws w2).
Proof.
  intros H. destruct ws as [| a ws]; [exact H |].
  rewrite !last_cons. reflexivity.
Qed.

End FailedRuns.

(** X11: a round that fails does not clear the cache of test predictions.
    When training of the round raises a [RuntimeError], the cache that
    [trial] leaves (and [predict] then reads) is the one of the last
    iteration the failed training completed, or, when it completed none,
    the cache from before the call; in round 1, where no tuner is
    involved, [trial] returns 0 all the same. *)
Theorem failed_round_keeps_its_cache :
  forall (Env : Type) (B : Backend Env) data round_num (w w1 wm we : World Env) e,
    trial_configure round_num w = (Ok tt, w1) ->
    init_model (info_n_class (info (self w))) (x_shape1 data) w1 = (Ok tt, wm) ->
    train_valid data round_num wm = (Raise e, we) ->
    is_RuntimeError e = true ->
    let res := trial data round_num w in
    cache_view (snd res) =
      cache_view (last (map snd (train_valid_frames data wm)) w) /\
    (round_num <= 1 -> fst res = Ok 0%Q).
Proof.
  intros Env B data round_num w w1 wm we e Hc Hi Ht He res. subst res.
  assert (Hf : round_fails data round_num (info_n_class (info (self w)))
                 (x_shape1 data) w1 e we).
  { right. exists wm. split; assumption. }
  rewrite trial_unfold. erewrite bind_of_Ok by exact Hc.
  split.
  - pose proof (train_valid_cache_of_last data round_num wm) as Hlast.
    rewrite Ht in Hlast. simpl in Hlast.
    assert (Ki : keeps (same cache_view)
                   (init_model (info_n_class (info (self w))) (x_shape1 data)))
      by (apply keeps_init_model; view_side).
    specialize (Ki w1). rewrite Hi in Ki. unfold same in Ki; simpl in Ki.
    assert (Kc : keeps (same cache_view) (trial_configure round_num))
      by (apply keeps_trial_configure; view_side).
    specialize (Kc w). rewrite Hc in Kc. unfold same in Kc; simpl in Kc.
    rewrite (cache_view_last _ w wm) by congruence.
    rewrite <- Hlast.
    rewrite (trial_round_caught Hf He).
    unfold trial_except, bind, get_self, emit, when, external, ret; simpl.
    destruct (1 <? round_num); simpl; [| reflexivity].
    destruct (tuner_receive_trial_result (round_num - 1)
                (hyperparameters (self we)) 0 (env we)) as [[[] | x] env'];
      reflexivity.
  - intros Hr. rewrite (trial_round_caught_first Hf He Hr). reflexivity.
Qed.

Lemma failed_round_keeps_its_cache_witness :
  let sc := Scenario.failing 3 CudaOOM in
  let B := Scripted.backend sc in
  let w := Scenario.created sc in
  let res := @trial _ B Scenario.graph 1 w in
  cache_view (snd res) = Some [[1 # 4; 3 # 4]]%Q /\ fst res = Ok 0%Q.
Proof.
  intros sc B w res.
  destruct (@failed_round_keeps_its_cache _ B Scenario.graph 1 w
              (snd (@trial_configure _ B 1 w))
              (snd (@init_model _ B 2 3 (snd (@trial_configure _ B 1 w))))
              (snd (@train_valid _ B Scenario.graph 1
                      (snd (@init_model _ B 2 3 (snd (@trial_configure _ B 1 w))))))
              CudaOOM)
    as [Hcache Hret];
    try (vm_compute; reflexivity).
  split.
  - fold res in Hcache. rewrite Hcache. vm_compute. reflexivity.
  - apply Hret. lia.
Defined.

(** ** Methods called before a model exists *)

Section Unbuilt.
Context {Env : Type} {B : Backend Env}.

Lemma predict_pure (w : World Env) : snd (predict w) = w.
Proof.
  apply (@keeps_predict Env (fun w w' : World Env => w' = w)).
  - intros w0. reflexivity.
  - intros w1 w2 w3 H1 H2. congruence.
Qed.

Lemma forward_unbuilt i data (w : World Env) :
  unbuilt i w ->
  forward data w =
  (Raise (AttributeErr (if info_use_linear i then "input_lin" else "conv1")), w).
Proof.
  intros [Hm [_ [Hh _]]].
  unfold forward, getattr_layer, getattr_list, getattr_module.
  unfold bind, get_self, ret, raise. simpl. rewrite Hh. simpl.
  destruct (info_use_linear i); rewrite Hm; reflexivity.
Qed.

(** Without an optimizer the first iteration stops at
    [self.optimizer.zero_grad()], after [self.train()]. *)
Lemma train_valid_unbuilt i data round_num (w : World Env) :
  unbuilt i w ->
  train_valid data round_num w =
  (Raise (AttributeErr "optimizer"),
   mkWorld (set_training true (self w)) (env w) (events w) (next_id w)).
Proof.
  intros [_ [Ho [_ [He _]]]].
  unfold train_valid, bind at 1, get_self. rewrite He.
  destruct (Z.to_nat 1600) as [| n] eqn:Hn; [lia |].
  cbn [epoch_loop].
  unfold bind, epoch_body, epoch_train, bind, update_self, getattr_optimizer,
    bind, get_self, raise.
  simpl. rewrite Ho. reflexivity.
Qed.

Lemma unbuilt_kept_by_call i (c : Call) (w : World Env) :
  builds_model c = false ->
  unbuilt i w -> unbuilt i (run_call c w).
Proof.
  intros Hc Hw. destruct c as [? ? | data | data r | ? ? |];
    simpl in *; try discriminate Hc.
  - rewrite (forward_unbuilt data Hw). exact Hw.
  - rewrite (train_valid_unbuilt data r Hw). exact Hw.
  - rewrite predict_pure. exact Hw.
Qed.

Lemma unbuilt_kept_by_calls i (cs : list Call) : forall w : World Env,
  forallb (fun c => negb (builds_model c)) cs = true ->
  unbuilt i w -> unbuilt i (run_calls cs w).
Proof.
  induction cs as [| c cs IH]; intros w Hcs Hw; [exact Hw |].
  simpl in Hcs. apply andb_true_iff in Hcs. destruct Hcs as [Hc Hcs].
  apply negb_true_iff in Hc.
  change (run_calls (c :: cs) w) with (run_calls cs (run_call c w)).
  apply IH; [exact Hcs |]. apply unbuilt_kept_by_call; assumption.
Qed.

Lemma unbuilt_after_init i (e : Env) : unbuilt i (snd (__init__ i e)).
Proof.
  unfold __init__, external, unbuilt, torch_calls; simpl.
  destruct (tuner_update_search_space (search_space i) e); simpl.
  repeat split.
Qed.

End Unbuilt.

(** X12: the constructor builds no model.  For an [info] that asks for no
    edge dropping ([dropedge_rate] is [None], so that [forward] starts with
    the first layer), and as long as neither [init_model] nor [trial] has
    been called: [forward] raises an [AttributeError] for the first layer
    it reads ([input_lin] or [conv1], by [use_linear]) and [train_valid]
    raises an [AttributeError] for [optimizer] in its first iteration; the
    tensor engine has not been called by then. *)
Theorem methods_need_a_model :
  forall (Env : Type) (B : Backend Env) (i : Info) (e : Env) (cs : list Call)
         data round_num,
    info_dropedge_rate i = None ->
    forallb (fun c => negb (builds_model c)) cs = true ->
    let w := run_calls cs (snd (__init__ i e)) in
    fst (forward data w) =
      Raise (AttributeErr (if info_use_linear i then "input_lin" else "conv1")) /\
    fst (train_valid data round_num w) = Raise (AttributeErr "optimizer") /\
    torch_calls (snd (train_valid data round_num w)) = [].
Proof.
  intros Env B i e cs data round_num Hedges Hcs w.
  assert (Hw : unbuilt i w).
  { apply unbuilt_kept_by_calls; [exact Hcs | apply unbuilt_after_init]. }
  rewrite (forward_unbuilt data Hw), (train_valid_unbuilt data round_num Hw).
  split; [reflexivity |]. split; [reflexivity |].
  destruct Hw as [_ [_ [_ [_ Ht]]]]. exact Ht.
Qed.

Lemma methods_need_a_model_witness :
  let B := Scripted.backend Scenario.fading in
  let cs := [call_forward Scenario.graph; call_predict;
             call_train_valid Scenario.graph 1] in
  let w := @run_calls _ B cs (snd (@__init__ _ B Scenario.the_info Scripted.start)) in
  fst (forward Scenario.graph w) = Raise (AttributeErr "conv1") /\
  fst (@train_valid _ B Scenario.graph 1 w) = Raise (AttributeErr "optimizer").
Proof.
  intros B cs w.
  destruct (@methods_need_a_model _ B Scenario.the_info Scripted.start cs
              Scenario.graph 1 eq_refl eq_refl) as [Hf [Ht _]].
  split; [exact Hf | exact Ht].
Defined.
